(** * nhl-api-go: the domain value-type layer, embedded and verified

    A shallow embedding of the codecs of package [nhl] (game, team and
    player identifiers, seasons, game dates, enumerated codes, game
    situations, season game types), of the team statistics aggregator, and
    of the helpers of the play-by-play, the roster, the errors and the
    client (URLs, the schedule of one day), followed by the properties
    proved about them.

    Conventions of the embedding:
    - Go [int] and [int64] are 64-bit two's-complement integers, modelled as
      [Z] with the wrap-around of [+] written out ([wrap64]);
    - Go integer division and remainder truncate toward zero ([Z.quot],
      [Z.rem]);
    - Go [string] is a sequence of bytes, modelled as [string] (one [ascii]
      per byte);
    - Go [float64] is IEEE 754 binary64, modelled by the primitive floats;
    - a Go function returning [(T, error)] returns [result T];
    - the bytes handed to a JSON codec are modelled by the JSON value they
      spell ([json]). *)

From Stdlib Require Import ZArith Lia List Sorted Permutation.
From Stdlib Require Import String Ascii Bool.
From Stdlib Require Import Floats Uint63.
Import ListNotations.

Open Scope string_scope.
Open Scope Z_scope.

(** ** Errors *)

(** An argument handed to [fmt.Errorf]. *)
Inductive fmt_arg : Type :=
| ArgInt (z : Z)
| ArgString (s : string).

(** The two failures of package [strconv]. *)
Inductive num_err : Type :=
| ErrSyntax
| ErrRange.

(** Error values.  [Errorf] keeps the format and its arguments unrendered;
    [Wrapf] is [fmt.Errorf] with a trailing [%w] verb. *)
Inductive error : Type :=
| Errorf (format : string) (args : list fmt_arg)
| Wrapf (format : string) (cause : error)
| NumError (func : string) (input : string) (kind : num_err)
| JsonUnmarshalError (target : string).

Inductive result (A : Type) : Type :=
| Ok (a : A)
| Err (e : error).

Arguments Ok {A} a.
Arguments Err {A} e.

Definition is_ok {A : Type} (r : result A) : bool :=
  match r with
  | Ok _ => true
  | Err _ => false
  end.

(** ** Machine integers *)

Definition minInt64 : Z := - 2 ^ 63.
Definition maxInt64 : Z := 2 ^ 63 - 1.
Definition maxUint64 : Z := 2 ^ 64 - 1.

Definition in_int64 (z : Z) : Prop := minInt64 <= z <= maxInt64.

Definition in_int64b (z : Z) : bool := (minInt64 <=? z) && (z <=? maxInt64).

(** Reduction of an exact integer to the 64-bit two's-complement value that
    represents it. *)
Definition wrap64 (z : Z) : Z := (z + 2 ^ 63) mod 2 ^ 64 - 2 ^ 63.

(** Go [a + b] on [int]. *)
Definition int_add (a b : Z) : Z := wrap64 (a + b).

(** Go [a / b] and [a % b] on integers (truncated division). *)
Definition int_div (a b : Z) : Z := Z.quot a b.
Definition int_mod (a b : Z) : Z := Z.rem a b.

(** Exact sum of a list of integers. *)
Definition sumZ (l : list Z) : Z := fold_right Z.add 0 l.

(** ** Bytes and strings *)

Definition byte_val (c : ascii) : Z := Z.of_N (N_of_ascii c).

Definition byte_of (z : Z) : ascii := ascii_of_N (Z.to_N z).

Definition is_digit (c : ascii) : bool :=
  (48 <=? byte_val c) && (byte_val c <=? 57).

Definition digit_val (c : ascii) : Z := byte_val c - 48.

Definition digit_char (d : Z) : ascii := byte_of (48 + d).

Definition len (s : string) : Z := Z.of_nat (String.length s).

(** [len] of a slice. *)
Definition len_list {A : Type} (l : list A) : Z := Z.of_nat (List.length l).

(** [string(b)] for a byte [b]: the UTF-8 encoding of the code point [b]. *)
Definition string_of_byte (b : ascii) : string :=
  let v := byte_val b in
  if v <? 128 then String b EmptyString
  else String (byte_of (192 + Z.shiftr v 6))
         (String (byte_of (128 + Z.land v 63)) EmptyString).

(** [strings.Contains(s, sep)] for a one-byte [sep]. *)
Fixpoint strings_Contains (s : string) (sep : ascii) : bool :=
  match s with
  | EmptyString => false
  | String c rest => Ascii.eqb c sep || strings_Contains rest sep
  end.

(** [strings.Split(s, sep)] for a one-byte [sep], with the piece being read
    kept in reverse in [cur]. *)
Fixpoint split_from (s : string) (sep : ascii) (cur : list ascii) : list string :=
  match s with
  | EmptyString => [string_of_list_ascii (rev cur)]
  | String c rest =>
      if Ascii.eqb c sep
      then string_of_list_ascii (rev cur) :: split_from rest sep []
      else split_from rest sep (c :: cur)
  end.

Definition strings_Split (s : string) (sep : ascii) : list string :=
  split_from s sep [].

(** Go slices [s[:n]] and [s[n:]]. *)
Definition slice_to (s : string) (n : nat) : string := substring 0 n s.
Definition slice_from (s : string) (n : nat) : string :=
  substring n (String.length s - n) s.

(** Every byte of the string is a decimal digit. *)
Fixpoint all_digits (s : string) : bool :=
  match s with
  | EmptyString => true
  | String c rest => is_digit c && all_digits rest
  end.

(** No byte of the string is the separator. *)
Fixpoint no_byte (sep : ascii) (s : string) : bool :=
  match s with
  | EmptyString => true
  | String c rest => negb (Ascii.eqb c sep) && no_byte sep rest
  end.

(** ** Package strconv and the [%d] verb *)

Module strconv.

(** The digit loop of [formatBits] in base 10; 20 is the number of decimal
    digits of the largest 64-bit value. *)
Fixpoint formatBits (fuel : nat) (u : Z) (acc : string) : string :=
  match fuel with
  | O => acc
  | S fuel' =>
      if u <? 10 then String (digit_char u) acc
      else formatBits fuel' (u / 10) (String (digit_char (u mod 10)) acc)
  end.

Definition FormatUint (u : Z) : string := formatBits 20 u EmptyString.

(** [strconv.FormatInt(i, 10)], which is also what [%d] prints. *)
Definition FormatInt (i : Z) : string :=
  if i <? 0 then String "-"%char (FormatUint (- i)) else FormatUint i.

(** The loop of [ParseUint(s, 10, 64)] with its two overflow tests; the
    first component is the value Go returns beside the error. *)
Fixpoint parse_digits (s : string) (n : Z) : Z * option num_err :=
  match s with
  | EmptyString => (n, None)
  | String c rest =>
      if is_digit c then
        if n >=? Z.quot maxUint64 10 + 1 then (maxUint64, Some ErrRange)
        else
          let n1 := n * 10 + digit_val c in
          if n1 >? maxUint64 then (maxUint64, Some ErrRange)
          else parse_digits rest n1
      else (0, Some ErrSyntax)
  end.

Definition ParseUint (s : string) : Z * option num_err :=
  match s with
  | EmptyString => (0, Some ErrSyntax)
  | _ => parse_digits s 0
  end.

(** [ParseInt(s, 10, 64)]: the value returned and the failure, if any. *)
Definition parse_int (s : string) : Z * option num_err :=
  match s with
  | EmptyString => (0, Some ErrSyntax)
  | String c rest =>
      let neg := Ascii.eqb c "-"%char in
      let body := if Ascii.eqb c "+"%char || neg then rest else s in
      match ParseUint body with
      | (_, Some ErrSyntax) => (0, Some ErrSyntax)
      | (un, _) =>
          if negb neg && (un >=? 2 ^ 63) then (maxInt64, Some ErrRange)
          else if neg && (un >? 2 ^ 63) then (minInt64, Some ErrRange)
          else (if neg then - un else un, None)
      end
  end.

Definition ParseInt (s : string) : Z * option error :=
  match parse_int s with
  | (v, None) => (v, None)
  | (v, Some k) => (v, Some (NumError "ParseInt" s k))
  end.

(** [Atoi]: [ParseInt(s, 10, 0)] with the function name replaced; its fast
    path for short inputs computes the same value and the same failure. *)
Definition Atoi (s : string) : Z * option error :=
  match parse_int s with
  | (v, None) => (v, None)
  | (v, Some k) => (v, Some (NumError "Atoi" s k))
  end.

End strconv.

(** The verbs [%04d] and [%02d]: the digits are padded with zeros up to the
    width, which the minus sign of a negative number shortens by one. *)
Fixpoint zeros (n : nat) : string :=
  match n with
  | O => EmptyString
  | S n' => String "0"%char (zeros n')
  end.

Definition fmt_d_zero (width : nat) (i : Z) : string :=
  let negative := i <? 0 in
  let digits := strconv.FormatUint (Z.abs i) in
  let prec := if negative then (width - 1)%nat else width in
  (if negative then "-" else EmptyString)
    ++ zeros (prec - String.length digits) ++ digits.

(** A number of at most 63 bits, written with zeros before it. *)
Definition padded (k : nat) (n : Z) : string := zeros k ++ strconv.FormatUint n.

(** ** Package encoding/json, at the level of JSON values *)

(** The JSON text handed to a codec, read as the value it spells.  A number
    literal is either an integer literal (of any size) or one with a fraction
    or an exponent. *)
Inductive json : Type :=
| JNull
| JBool (b : bool)
| JInt (z : Z)
| JFrac
| JString (s : string)
| JArray
| JObject
| JMalformed.

Module Json.

(** [json.Unmarshal(data, &i)] for [var i int64] (initially zero): an
    integer literal must fit the target; [null] leaves the target as it
    is. *)
Definition Unmarshal_int64 (data : json) : result Z :=
  match data with
  | JInt z => if in_int64b z then Ok z else Err (JsonUnmarshalError "int64")
  | JNull => Ok 0
  | _ => Err (JsonUnmarshalError "int64")
  end.

(** [json.Unmarshal(data, &s)] for [var s string] (initially empty). *)
Definition Unmarshal_string (data : json) : result string :=
  match data with
  | JString s => Ok s
  | JNull => Ok EmptyString
  | _ => Err (JsonUnmarshalError "string")
  end.

(** [json.Marshal] of a Go string and of a Go integer never fail. *)
Definition Marshal_string (s : string) : result json := Ok (JString s).
Definition Marshal_int (z : Z) : result json := Ok (JInt z).

End Json.

(** A [switch] over string constants that returns true on a listed case. *)
Fixpoint switch_case (v : string) (cases : list string) : bool :=
  match cases with
  | [] => false
  | c :: rest => if String.eqb v c then true else switch_case v rest
  end.

(** ** game_type.go *)

Module GameType.

Definition t : Type := Z.

Definition GameTypePreseason : t := 1.
Definition GameTypeRegularSeason : t := 2.
Definition GameTypePlayoffs : t := 3.
Definition GameTypeAllStar : t := 4.
Definition GameTypeOlympics : t := 9.
Definition GameTypeYoungStars : t := 10.
Definition GameTypePWHLShowcase : t := 12.
Definition GameTypeWomensAllStar : t := 19.
Definition GameType4Nations : t := 20.

(** The constants of the [const] block. *)
Definition known : list t :=
  [GameTypePreseason; GameTypeRegularSeason; GameTypePlayoffs;
   GameTypeAllStar; GameTypeOlympics; GameTypeYoungStars;
   GameTypePWHLShowcase; GameTypeWomensAllStar; GameType4Nations].

Definition ToInt (g : t) : Z := g.

Definition IsValid (g : t) : bool :=
  if g =? GameTypePreseason then true
  else if g =? GameTypeRegularSeason then true
  else if g =? GameTypePlayoffs then true
  else if g =? GameTypeAllStar then true
  else if g =? GameTypeOlympics then true
  else if g =? GameTypeYoungStars then true
  else if g =? GameTypePWHLShowcase then true
  else if g =? GameTypeWomensAllStar then true
  else if g =? GameType4Nations then true
  else false.

Definition GameTypeFromInt (i : Z) : result t :=
  let g := i in
  if negb (IsValid g) then Err (Errorf "invalid game type: %d" [ArgInt i])
  else Ok g.

Definition MarshalJSON (g : t) : result json :=
  if negb (IsValid g)
  then Err (Errorf "cannot marshal invalid game type: %d" [ArgInt g])
  else Json.Marshal_int (ToInt g).

(** [fmt.Sprintf] of [Unknown(%d)] is written out. *)
Definition String_ (g : t) : string :=
  if g =? GameTypePreseason then "Preseason"
  else if g =? GameTypeRegularSeason then "Regular Season"
  else if g =? GameTypePlayoffs then "Playoffs"
  else if g =? GameTypeAllStar then "All-Star"
  else if g =? GameTypeOlympics then "Olympics"
  else if g =? GameTypeYoungStars then "YoungStars"
  else if g =? GameTypePWHLShowcase then "PWHL Showcase"
  else if g =? GameTypeWomensAllStar then "Women's All-Star"
  else if g =? GameType4Nations then "4 Nations Face-Off"
  else "Unknown(" ++ strconv.FormatInt g ++ ")".

Definition GameTypeFromString (s : string) : result t :=
  if switch_case s ["1"; "Preseason"] then Ok GameTypePreseason
  else if switch_case s ["2"; "Regular Season"; "RegularSeason"]
  then Ok GameTypeRegularSeason
  else if switch_case s ["3"; "Playoffs"] then Ok GameTypePlayoffs
  else if switch_case s ["4"; "All-Star"; "AllStar"] then Ok GameTypeAllStar
  else if switch_case s ["9"; "Olympics"] then Ok GameTypeOlympics
  else if switch_case s ["10"; "YoungStars"; "Young Stars"]
  then Ok GameTypeYoungStars
  else if switch_case s ["12"; "PWHL Showcase"; "PWHLShowcase"]
  then Ok GameTypePWHLShowcase
  else if switch_case s ["19"; "Women's All-Star"; "WomensAllStar"]
  then Ok GameTypeWomensAllStar
  else if switch_case s ["20"; "4 Nations Face-Off"; "4NationsFaceOff"]
  then Ok GameType4Nations
  else Err (Errorf "invalid game type: %q" [ArgString s]).

Definition UnmarshalJSON (data : json) : result t :=
  match Json.Unmarshal_int64 data with
  | Ok i => GameTypeFromInt i
  | Err _ =>
      match Json.Unmarshal_string data with
      | Err e => Err (Wrapf "game type must be an integer or string: %w" e)
      | Ok s => GameTypeFromString s
      end
  end.

End GameType.

(** ** Season (date types) *)

Module Season.

Record t : Type := mk { startYear : Z }.

Definition NewSeason (startYear : Z) : t := mk startYear.

Definition FromYears (startYear endYear : Z) : result t :=
  let expectedEnd := int_add startYear 1 in
  if negb (endYear =? expectedEnd)
  then Err (Errorf "invalid season years: %d-%d (expected %d-%d)"
              [ArgInt startYear; ArgInt endYear;
               ArgInt startYear; ArgInt expectedEnd])
  else Ok (NewSeason startYear).

Definition StartYear (s : t) : Z := startYear s.

Definition EndYear (s : t) : Z := int_add (startYear s) 1.

(** [fmt.Sprintf] with two [%d] verbs and nothing between them. *)
Definition ToAPIString (s : t) : string :=
  strconv.FormatInt (startYear s) ++ strconv.FormatInt (EndYear s).

Definition String_ (s : t) : string :=
  strconv.FormatInt (startYear s) ++ "-" ++ strconv.FormatInt (EndYear s).

Definition Parse (s : string) : result t :=
  if strings_Contains s "-"%char then
    match strings_Split s "-"%char with
    | [p0; p1] =>
        match strconv.Atoi p0 with
        | (_, Some _) => Err (Errorf "invalid start year: %s" [ArgString p0])
        | (startYear, None) =>
            match strconv.Atoi p1 with
            | (_, Some _) => Err (Errorf "invalid end year: %s" [ArgString p1])
            | (endYear, None) => FromYears startYear endYear
            end
        end
    | _ => Err (Errorf "invalid season format: %s" [ArgString s])
    end
  else if len s =? 8 then
    match strconv.Atoi (slice_to s 4) with
    | (_, Some _) =>
        Err (Errorf "invalid start year: %s" [ArgString (slice_to s 4)])
    | (startYear, None) =>
        match strconv.Atoi (slice_from s 4) with
        | (_, Some _) =>
            Err (Errorf "invalid end year: %s" [ArgString (slice_from s 4)])
        | (endYear, None) => FromYears startYear endYear
        end
    end
  else Err (Errorf "invalid season format: %s" [ArgString s]).

Definition SeasonFromInt (i : Z) : result t :=
  if (i <? 10000000) || (i >? 99999999)
  then Err (Errorf "invalid season integer: %d" [ArgInt i])
  else
    let startYear := int_div i 10000 in
    let endYear := int_mod i 10000 in
    FromYears startYear endYear.

Definition SeasonFromInt64 (i : Z) : result t :=
  if (i <? 10000000) || (i >? 99999999)
  then Err (Errorf "invalid season integer: %d" [ArgInt i])
  else SeasonFromInt i.

(** The error of [Atoi] is dropped; the value returned beside it is kept. *)
Definition ToInt (s : t) : Z := fst (strconv.Atoi (ToAPIString s)).

Definition ToInt64 (s : t) : Z := ToInt s.

Definition MarshalJSON (s : t) : result json :=
  Json.Marshal_string (ToAPIString s).

Definition UnmarshalJSON (data : json) : result t :=
  match Json.Unmarshal_int64 data with
  | Ok i => SeasonFromInt64 i
  | Err _ =>
      match Json.Unmarshal_string data with
      | Err e => Err (Wrapf "season must be an integer or string: %w" e)
      | Ok str => Parse str
      end
  end.

End Season.

(** ** GameDate (date types) *)

Module GameDate.

Section WithTime.

(** [time.Time] and the one operation on it that [AddDays] uses; the wall
    clock is read by handing the current instant to the function. *)
Variable Time : Type.
Variable zeroTime : Time.
Variable AddDate : Time -> Z -> Z -> Z -> Time.

Record t : Type := mk { isNow : bool; date : Time }.

Definition Now : t := mk true zeroTime.

Definition FromDate (d : Time) : t := mk false d.

Definition IsNow (gd : t) : bool := isNow gd.

(** [clock] is what [time.Now().UTC()] returns when the call is made. *)
Definition Date (clock : Time) (gd : t) : Time :=
  if isNow gd then clock else date gd.

Definition AddDays (clock : Time) (gd : t) (days : Z) : t :=
  let d := Date clock gd in
  let newDate := AddDate d 0 0 days in
  FromDate newDate.

End WithTime.

Arguments mk {Time}.
Arguments isNow {Time}.
Arguments date {Time}.
Arguments Now {Time}.
Arguments FromDate {Time}.
Arguments IsNow {Time}.
Arguments Date {Time}.
Arguments AddDays {Time}.

Section WithCalendar.

(** [time.Time] with the calendar operations the codec uses: [time_Date y m
    d] is [time.Date(y, time.Month(m), d, 0, 0, 0, 0, time.UTC)], and
    [Year], [Month] and [Day] are the methods of those names. *)
Variable Time : Type.
Variable zeroTime : Time.
Variable time_Date : Z -> Z -> Z -> Time.
Variable Year Month Day : Time -> Z.

Definition FromYMD (year month day : Z) : t Time :=
  mk false (time_Date year month day).

Definition ToAPIString (clock : Time) (gd : t Time) : string :=
  let d := Date clock gd in
  fmt_d_zero 4 (Year d) ++ "-" ++ fmt_d_zero 2 (Month d) ++ "-"
    ++ fmt_d_zero 2 (Day d).

Definition String_ (clock : Time) (gd : t Time) : string :=
  if isNow gd then "now" else ToAPIString clock gd.

Definition MarshalJSON (clock : Time) (gd : t Time) : result json :=
  if isNow gd then Json.Marshal_string "now"
  else Json.Marshal_string (ToAPIString clock gd).

Definition UnmarshalJSON (data : json) : result (t Time) :=
  match Json.Unmarshal_string data with
  | Err err => Err err
  | Ok s =>
      if String.eqb s "now" then Ok (Now zeroTime)
      else
        match strings_Split s "-"%char with
        | [p0; p1; p2] =>
            match strconv.Atoi p0 with
            | (_, Some _) => Err (Errorf "invalid year: %s" [ArgString p0])
            | (year, None) =>
                match strconv.Atoi p1 with
                | (_, Some _) =>
                    Err (Errorf "invalid month: %s" [ArgString p1])
                | (month, None) =>
                    match strconv.Atoi p2 with
                    | (_, Some _) =>
                        Err (Errorf "invalid day: %s" [ArgString p2])
                    | (day, None) => Ok (FromYMD year month day)
                    end
                end
            end
        | _ => Err (Errorf "invalid date format: %s" [ArgString s])
        end
  end.

End WithCalendar.

Arguments FromYMD {Time}.
Arguments ToAPIString {Time}.
Arguments String_ {Time}.
Arguments MarshalJSON {Time}.
Arguments UnmarshalJSON {Time}.

End GameDate.

(** ** game_id.go *)

Module GameID.

Definition t : Type := Z.

Definition NewGameID (id : Z) : t := id.

Definition AsInt64 (g : t) : Z := g.

Definition String_ (g : t) : string := strconv.FormatInt g.

Definition MarshalJSON (g : t) : result json := Json.Marshal_int g.

Definition UnmarshalJSON (data : json) : result t :=
  match Json.Unmarshal_int64 data with
  | Ok i => Ok i
  | Err _ =>
      match Json.Unmarshal_string data with
      | Err e => Err (Wrapf "game ID must be an integer or string: %w" e)
      | Ok s =>
          match strconv.ParseInt s with
          | (_, Some e) => Err (Wrapf "invalid game ID string: %w" e)
          | (i, None) => Ok i
          end
      end
  end.

Definition Season (g : t) : result Season.t :=
  let id := g in
  if (id <? 1000000000) || (id >? 9999999999)
  then Err (Errorf "invalid game ID: %d" [ArgInt id])
  else
    let startYear := int_div id 1000000 in
    Ok (Season.NewSeason startYear).

Definition GameType (g : t) : result Z :=
  let id := g in
  if (id <? 1000000000) || (id >? 9999999999)
  then Err (Errorf "invalid game ID: %d" [ArgInt id])
  else
    let gameType := int_mod (int_div id 10000) 100 in
    Ok gameType.

Definition GameNumber (g : t) : result Z :=
  let id := g in
  if (id <? 1000000000) || (id >? 9999999999)
  then Err (Errorf "invalid game ID: %d" [ArgInt id])
  else
    let gameNumber := int_mod id 10000 in
    Ok gameNumber.

(** [None] is the nil error. *)
Definition Validate (g : t) : option error :=
  let id := g in
  if (id <? 1000000000) || (id >? 9999999999)
  then Some (Errorf "game ID must be 10 digits, got: %d" [ArgInt id])
  else
    match GameType g with
    | Err err => Some err
    | Ok gameTypeInt =>
        if negb (GameType.IsValid gameTypeInt)
        then Some (Errorf "invalid game type: %02d" [ArgInt gameTypeInt])
        else None
    end.

Definition GameIDFromInt (i : Z) : t := i.

Definition GameIDFromString (s : string) : result t :=
  match strconv.ParseInt s with
  | (_, Some e) => Err (Wrapf "invalid game ID string: %w" e)
  | (i, None) => Ok i
  end.

End GameID.

(** ** Enumerated code types *)

Module Position.

Definition t : Type := string.

Definition PositionCenter : t := "C".
Definition PositionLeftWing : t := "LW".
Definition PositionRightWing : t := "RW".
Definition PositionDefense : t := "D".
Definition PositionGoalie : t := "G".

Definition known : list t :=
  [PositionCenter; PositionLeftWing; PositionRightWing; PositionDefense;
   PositionGoalie].

Definition Code (p : t) : string := p.

Definition IsValid (p : t) : bool :=
  switch_case p
    [PositionCenter; PositionLeftWing; PositionRightWing; PositionDefense;
     PositionGoalie].

Definition MarshalJSON (p : t) : result json :=
  if negb (IsValid p)
  then Err (Errorf "cannot marshal invalid position: %q" [ArgString p])
  else Json.Marshal_string (Code p).

Definition Name (p : t) : string :=
  if String.eqb p PositionCenter then "Center"
  else if String.eqb p PositionLeftWing then "Left Wing"
  else if String.eqb p PositionRightWing then "Right Wing"
  else if String.eqb p PositionDefense then "Defense"
  else if String.eqb p PositionGoalie then "Goalie"
  else "Unknown(" ++ p ++ ")".

Definition String_ (p : t) : string := Name p.

Definition IsForward (p : t) : bool :=
  String.eqb p PositionCenter || String.eqb p PositionLeftWing
  || String.eqb p PositionRightWing.

Definition IsSkater (p : t) : bool :=
  negb (String.eqb p PositionGoalie) && IsValid p.

Definition PositionFromString (s : string) : result t :=
  if switch_case s ["C"; "Center"] then Ok PositionCenter
  else if switch_case s ["L"; "LW"; "Left Wing"; "LeftWing"]
  then Ok PositionLeftWing
  else if switch_case s ["R"; "RW"; "Right Wing"; "RightWing"]
  then Ok PositionRightWing
  else if switch_case s ["D"; "Defense"; "Defenseman"] then Ok PositionDefense
  else if switch_case s ["G"; "Goalie"; "Goaltender"] then Ok PositionGoalie
  else Err (Errorf "invalid position: %q" [ArgString s]).

Definition UnmarshalJSON (data : json) : result t :=
  match Json.Unmarshal_string data with
  | Err err => Err err
  | Ok s => PositionFromString s
  end.

End Position.

Module Handedness.

Definition t : Type := string.

Definition HandednessLeft : t := "L".
Definition HandednessRight : t := "R".

Definition known : list t := [HandednessLeft; HandednessRight].

Definition Code (h : t) : string := h.

Definition IsValid (h : t) : bool :=
  String.eqb h HandednessLeft || String.eqb h HandednessRight.

Definition Name (h : t) : string :=
  if String.eqb h HandednessLeft then "Left"
  else if String.eqb h HandednessRight then "Right"
  else "Unknown(" ++ h ++ ")".

Definition String_ (h : t) : string := Name h.

Definition MarshalJSON (h : t) : result json := Json.Marshal_string h.

Definition HandednessFromString (s : string) : result t :=
  if switch_case s ["L"; "Left"] then Ok HandednessLeft
  else if switch_case s ["R"; "Right"] then Ok HandednessRight
  else Err (Errorf "invalid handedness: %q" [ArgString s]).

Definition UnmarshalJSON (data : json) : result t :=
  match Json.Unmarshal_string data with
  | Err err => Err err
  | Ok s =>
      if String.eqb s EmptyString then Ok EmptyString
      else HandednessFromString s
  end.

End Handedness.

Module GoalieDecision.

Definition t : Type := string.

Definition GoalieDecisionWin : t := "W".
Definition GoalieDecisionLoss : t := "L".
Definition GoalieDecisionTie : t := "T".
Definition GoalieDecisionOvertimeLoss : t := "OTL".

Definition known : list t :=
  [GoalieDecisionWin; GoalieDecisionLoss; GoalieDecisionTie;
   GoalieDecisionOvertimeLoss].

Definition IsValid (g : t) : bool :=
  switch_case g
    [GoalieDecisionWin; GoalieDecisionLoss; GoalieDecisionTie;
     GoalieDecisionOvertimeLoss].

Definition String_ (g : t) : string :=
  if String.eqb g GoalieDecisionWin then "Win"
  else if String.eqb g GoalieDecisionLoss then "Loss"
  else if String.eqb g GoalieDecisionTie then "Tie"
  else if String.eqb g GoalieDecisionOvertimeLoss then "Overtime Loss"
  else "Unknown(" ++ g ++ ")".

Definition MarshalJSON (g : t) : result json :=
  if negb (IsValid g)
  then Err (Errorf "cannot marshal invalid goalie decision: %q" [ArgString g])
  else Json.Marshal_string g.

Definition GoalieDecisionFromString (s : string) : result t :=
  if switch_case s ["W"; "Win"] then Ok GoalieDecisionWin
  else if switch_case s ["L"; "Loss"] then Ok GoalieDecisionLoss
  else if switch_case s ["T"; "Tie"] then Ok GoalieDecisionTie
  else if switch_case s ["O"; "OTL"; "Overtime Loss"; "OvertimeLoss"]
  then Ok GoalieDecisionOvertimeLoss
  else Err (Errorf "invalid goalie decision: %q" [ArgString s]).

Definition UnmarshalJSON (data : json) : result t :=
  match Json.Unmarshal_string data with
  | Err err => Err err
  | Ok s => GoalieDecisionFromString s
  end.

End GoalieDecision.

Module PeriodType.

Definition t : Type := string.

Definition PeriodTypeRegulation : t := "REG".
Definition PeriodTypeOvertime : t := "OT".
Definition PeriodTypeShootout : t := "SO".

Definition known : list t :=
  [PeriodTypeRegulation; PeriodTypeOvertime; PeriodTypeShootout].

Definition Code (p : t) : string := p.

Definition IsValid (p : t) : bool :=
  switch_case p [PeriodTypeRegulation; PeriodTypeOvertime; PeriodTypeShootout].

Definition MarshalJSON (p : t) : result json :=
  if negb (IsValid p)
  then Err (Errorf "cannot marshal invalid period type: %q" [ArgString p])
  else Json.Marshal_string (Code p).

Definition IsOvertime (p : t) : bool :=
  String.eqb p PeriodTypeOvertime || String.eqb p PeriodTypeShootout.

Definition Name (p : t) : string :=
  if String.eqb p PeriodTypeRegulation then "Regulation"
  else if String.eqb p PeriodTypeOvertime then "Overtime"
  else if String.eqb p PeriodTypeShootout then "Shootout"
  else "Unknown(" ++ p ++ ")".

Definition String_ (p : t) : string := Name p.

Definition PeriodTypeFromString (s : string) : result t :=
  if switch_case s ["REG"; "Regulation"] then Ok PeriodTypeRegulation
  else if switch_case s ["OT"; "Overtime"] then Ok PeriodTypeOvertime
  else if switch_case s ["SO"; "Shootout"] then Ok PeriodTypeShootout
  else Err (Errorf "invalid period type: %q" [ArgString s]).

Definition UnmarshalJSON (data : json) : result t :=
  match Json.Unmarshal_string data with
  | Err err => Err err
  | Ok s => PeriodTypeFromString s
  end.

End PeriodType.

Module HomeRoad.

Definition t : Type := string.

Definition HomeRoadHome : t := "H".
Definition HomeRoadRoad : t := "R".

Definition known : list t := [HomeRoadHome; HomeRoadRoad].

Definition Code (h : t) : string := h.

Definition IsValid (h : t) : bool :=
  String.eqb h HomeRoadHome || String.eqb h HomeRoadRoad.

Definition Name (h : t) : string :=
  if String.eqb h HomeRoadHome then "Home"
  else if String.eqb h HomeRoadRoad then "Road"
  else "Unknown(" ++ h ++ ")".

Definition String_ (h : t) : string := Name h.

Definition MarshalJSON (h : t) : result json :=
  if negb (IsValid h)
  then Err (Errorf "cannot marshal invalid home/road: %q" [ArgString h])
  else Json.Marshal_string (Code h).

Definition HomeRoadFromString (s : string) : result t :=
  if switch_case s ["H"; "Home"] then Ok HomeRoadHome
  else if switch_case s ["R"; "Road"; "Away"] then Ok HomeRoadRoad
  else Err (Errorf "invalid home/road: %q" [ArgString s]).

Definition UnmarshalJSON (data : json) : result t :=
  match Json.Unmarshal_string data with
  | Err err => Err err
  | Ok s => HomeRoadFromString s
  end.

End HomeRoad.

Module ZoneCode.

Definition t : Type := string.

Definition ZoneCodeOffensive : t := "O".
Definition ZoneCodeDefensive : t := "D".
Definition ZoneCodeNeutral : t := "N".

Definition known : list t :=
  [ZoneCodeOffensive; ZoneCodeDefensive; ZoneCodeNeutral].

Definition Code (z : t) : string := z.

Definition IsValid (z : t) : bool :=
  switch_case z [ZoneCodeOffensive; ZoneCodeDefensive; ZoneCodeNeutral].

Definition String_ (z : t) : string :=
  if String.eqb z ZoneCodeOffensive then "Offensive"
  else if String.eqb z ZoneCodeDefensive then "Defensive"
  else if String.eqb z ZoneCodeNeutral then "Neutral"
  else "Unknown(" ++ z ++ ")".

Definition MarshalJSON (z : t) : result json :=
  if negb (IsValid z)
  then Err (Errorf "cannot marshal invalid zone code: %q" [ArgString z])
  else Json.Marshal_string (Code z).

Definition ZoneCodeFromString (s : string) : result t :=
  if switch_case s ["O"; "Offensive"] then Ok ZoneCodeOffensive
  else if switch_case s ["D"; "Defensive"] then Ok ZoneCodeDefensive
  else if switch_case s ["N"; "Neutral"] then Ok ZoneCodeNeutral
  else Err (Errorf "invalid zone code: %q" [ArgString s]).

Definition UnmarshalJSON (data : json) : result t :=
  match Json.Unmarshal_string data with
  | Err err => Err err
  | Ok s => ZoneCodeFromString s
  end.

End ZoneCode.

Module DefendingSide.

Definition t : Type := string.

Definition DefendingSideLeft : t := "left".
Definition DefendingSideRight : t := "right".

Definition known : list t := [DefendingSideLeft; DefendingSideRight].

Definition IsValid (d : t) : bool :=
  String.eqb d DefendingSideLeft || String.eqb d DefendingSideRight.

Definition String_ (d : t) : string := d.

Definition MarshalJSON (d : t) : result json :=
  if String.eqb d EmptyString then Json.Marshal_string EmptyString
  else if negb (IsValid d)
  then Err (Errorf "cannot marshal invalid defending side: %q" [ArgString d])
  else Json.Marshal_string d.

Definition DefendingSideFromString (s : string) : result t :=
  if switch_case s ["left"] then Ok DefendingSideLeft
  else if switch_case s ["right"] then Ok DefendingSideRight
  else Err (Errorf "invalid defending side: %q" [ArgString s]).

Definition UnmarshalJSON (data : json) : result t :=
  match Json.Unmarshal_string data with
  | Err err => Err err
  | Ok s => DefendingSideFromString s
  end.

End DefendingSide.

Module GameScheduleState.

Definition t : Type := string.

Definition GameScheduleStateOK : t := "OK".
Definition GameScheduleStateDontPlay : t := "DONT_PLAY".
Definition GameScheduleStatePostponed : t := "PPD".
Definition GameScheduleStateSuspended : t := "SUSP".
Definition GameScheduleStateTBD : t := "TBD".
Definition GameScheduleStateCompleted : t := "COMPLETED".
Definition GameScheduleStateCancelled : t := "CNCL".

Definition known : list t :=
  [GameScheduleStateOK; GameScheduleStateDontPlay;
   GameScheduleStatePostponed; GameScheduleStateSuspended;
   GameScheduleStateTBD; GameScheduleStateCompleted;
   GameScheduleStateCancelled].

Definition IsValid (g : t) : bool :=
  switch_case g
    [GameScheduleStateOK; GameScheduleStateDontPlay;
     GameScheduleStatePostponed; GameScheduleStateSuspended;
     GameScheduleStateTBD; GameScheduleStateCompleted;
     GameScheduleStateCancelled].

Definition String_ (g : t) : string := g.

Definition MarshalJSON (g : t) : result json :=
  if negb (IsValid g)
  then Err (Errorf "cannot marshal invalid game schedule state: %q"
              [ArgString g])
  else Json.Marshal_string g.

Definition GameScheduleStateFromString (s : string) : result t :=
  let g := s in
  if negb (IsValid g)
  then Err (Errorf "invalid game schedule state: %q" [ArgString s])
  else Ok g.

Definition UnmarshalJSON (data : json) : result t :=
  match Json.Unmarshal_string data with
  | Err err => Err err
  | Ok s => GameScheduleStateFromString s
  end.

End GameScheduleState.

Module PlayEventType.

Definition t : Type := string.

Definition PlayEventTypeGameStart : t := "game-start".
Definition PlayEventTypePeriodStart : t := "period-start".
Definition PlayEventTypePeriodEnd : t := "period-end".
Definition PlayEventTypeGameEnd : t := "game-end".
Definition PlayEventTypeFaceoff : t := "faceoff".
Definition PlayEventTypeHit : t := "hit".
Definition PlayEventTypeGiveaway : t := "giveaway".
Definition PlayEventTypeTakeaway : t := "takeaway".
Definition PlayEventTypeShotOnGoal : t := "shot-on-goal".
Definition PlayEventTypeMissedShot : t := "missed-shot".
Definition PlayEventTypeBlockedShot : t := "blocked-shot".
Definition PlayEventTypeGoal : t := "goal".
Definition PlayEventTypePenalty : t := "penalty".
Definition PlayEventTypeStoppage : t := "stoppage".
Definition PlayEventTypeDelayedPenalty : t := "delayed-penalty".
Definition PlayEventTypeFailedShotAttempt : t := "failed-shot-attempt".
Definition PlayEventTypeShootoutComplete : t := "shootout-complete".
Definition PlayEventTypeUnknown : t := "unknown".

Definition known : list t :=
  [PlayEventTypeGameStart; PlayEventTypePeriodStart; PlayEventTypePeriodEnd;
   PlayEventTypeGameEnd; PlayEventTypeFaceoff; PlayEventTypeHit;
   PlayEventTypeGiveaway; PlayEventTypeTakeaway; PlayEventTypeShotOnGoal;
   PlayEventTypeMissedShot; PlayEventTypeBlockedShot; PlayEventTypeGoal;
   PlayEventTypePenalty; PlayEventTypeStoppage; PlayEventTypeDelayedPenalty;
   PlayEventTypeFailedShotAttempt; PlayEventTypeShootoutComplete;
   PlayEventTypeUnknown].

Definition IsValid (p : t) : bool :=
  switch_case p
    [PlayEventTypeGameStart; PlayEventTypePeriodStart; PlayEventTypePeriodEnd;
     PlayEventTypeGameEnd; PlayEventTypeFaceoff; PlayEventTypeHit;
     PlayEventTypeGiveaway; PlayEventTypeTakeaway; PlayEventTypeShotOnGoal;
     PlayEventTypeMissedShot; PlayEventTypeBlockedShot; PlayEventTypeGoal;
     PlayEventTypePenalty; PlayEventTypeStoppage; PlayEventTypeDelayedPenalty;
     PlayEventTypeFailedShotAttempt; PlayEventTypeShootoutComplete;
     PlayEventTypeUnknown].

Definition MarshalJSON (p : t) : result json :=
  if negb (IsValid p)
  then Err (Errorf "cannot marshal invalid play event type: %q"
              [ArgString p])
  else Json.Marshal_string p.

Definition IsScoringChance (p : t) : bool :=
  switch_case p
    [PlayEventTypeShotOnGoal; PlayEventTypeMissedShot;
     PlayEventTypeBlockedShot; PlayEventTypeGoal].

Definition IsGoal (p : t) : bool := String.eqb p PlayEventTypeGoal.

Definition String_ (p : t) : string := p.

Definition IsPeriodBoundary (p : t) : bool :=
  switch_case p
    [PlayEventTypeGameStart; PlayEventTypePeriodStart; PlayEventTypePeriodEnd;
     PlayEventTypeGameEnd].

Definition PlayEventTypeFromString (s : string) : result t :=
  let p := s in
  if negb (IsValid p)
  then Err (Errorf "invalid play event type: %q" [ArgString s])
  else Ok p.

Definition UnmarshalJSON (data : json) : result t :=
  match Json.Unmarshal_string data with
  | Err err => Err err
  | Ok s => PlayEventTypeFromString s
  end.

End PlayEventType.

(** ** GameState *)

Module GameState.

Definition t : Type := string.

Definition GameStateFuture : t := "FUT".
Definition GameStatePreGame : t := "PRE".
Definition GameStateLive : t := "LIVE".
Definition GameStateFinal : t := "FINAL".
Definition GameStateOff : t := "OFF".
Definition GameStatePostponed : t := "PPD".
Definition GameStateSuspended : t := "SUSP".
Definition GameStateCritical : t := "CRIT".

Definition known : list t :=
  [GameStateFuture; GameStatePreGame; GameStateLive; GameStateFinal;
   GameStateOff; GameStatePostponed; GameStateSuspended; GameStateCritical].

Definition HasStarted (g : t) : bool :=
  switch_case g
    [GameStateLive; GameStateFinal; GameStateOff; GameStateCritical].

Definition IsFinal (g : t) : bool :=
  String.eqb g GameStateFinal || String.eqb g GameStateOff.

Definition IsLive (g : t) : bool :=
  String.eqb g GameStateLive || String.eqb g GameStateCritical.

Definition IsScheduled (g : t) : bool :=
  String.eqb g GameStateFuture || String.eqb g GameStatePreGame.

Definition String_ (g : t) : string := g.

Definition IsValid (g : t) : bool :=
  switch_case g
    [GameStateFuture; GameStatePreGame; GameStateLive; GameStateFinal;
     GameStateOff; GameStatePostponed; GameStateSuspended; GameStateCritical].

Definition GameStateFromString (s : string) : result t :=
  let g := s in
  if negb (IsValid g) then Err (Errorf "invalid game state: %q" [ArgString s])
  else Ok g.

Definition UnmarshalJSON (data : json) : result t :=
  match Json.Unmarshal_string data with
  | Err err => Err err
  | Ok s => GameStateFromString s
  end.

Definition MarshalJSON (g : t) : result json :=
  if negb (IsValid g)
  then Err (Errorf "cannot marshal invalid game state: %q" [ArgString g])
  else Json.Marshal_string g.

End GameState.

(** ** game_center.go: the situation code *)

Module GameSituation.

Record t : Type := mk {
  AwaySkaters : Z;
  AwayGoalieIn : bool;
  HomeSkaters : Z;
  HomeGoalieIn : bool
}.

(** [None] is the nil pointer.  The four index expressions are in range
    once the length test has passed. *)
Definition GameSituationFromCode (code : string) : option t :=
  if negb (len code =? 4) then None
  else
    match String.get 0 code, String.get 1 code,
          String.get 2 code, String.get 3 code with
    | Some awayGoalieDigit, Some awaySkaterDigit,
      Some homeSkaterDigit, Some homeGoalieDigit =>
        match strconv.Atoi (string_of_byte awaySkaterDigit) with
        | (_, Some _) => None
        | (awaySkaters, None) =>
            match strconv.Atoi (string_of_byte homeSkaterDigit) with
            | (_, Some _) => None
            | (homeSkaters, None) =>
                Some (mk awaySkaters
                         (Ascii.eqb awayGoalieDigit "1"%char)
                         homeSkaters
                         (Ascii.eqb homeGoalieDigit "1"%char))
            end
        end
    | _, _, _, _ => None
    end.

Definition IsEvenStrength (g : t) : bool := AwaySkaters g =? HomeSkaters g.

Definition IsAwayPowerPlay (g : t) : bool := AwaySkaters g >? HomeSkaters g.

Definition IsHomePowerPlay (g : t) : bool := HomeSkaters g >? AwaySkaters g.

Definition IsEmptyNet (g : t) : bool :=
  negb (AwayGoalieIn g) || negb (HomeGoalieIn g).

Definition StrengthDescription (g : t) : string :=
  let base :=
    strconv.FormatInt (AwaySkaters g) ++ "v"
      ++ strconv.FormatInt (HomeSkaters g) in
  if negb (AwayGoalieIn g) || negb (HomeGoalieIn g) then base ++ " EN"
  else if negb (AwaySkaters g =? HomeSkaters g) then base ++ " PP"
  else base.

Definition String_ (g : t) : string := StrengthDescription g.

End GameSituation.

(** ** Conversions between integers and float64 *)

(** [float64(i)] for [i] of type [int]: the nearest binary64 value.  The
    primitive conversion takes a 63-bit magnitude, so the sign is handled
    apart, as is the least [int], whose magnitude is a power of two. *)
Definition float64_of_int (i : Z) : float :=
  if i <? 0 then
    if i =? minInt64 then (- 0x1p63)%float
    else (- PrimFloat.of_uint63 (Uint63.of_Z (- i)))%float
  else PrimFloat.of_uint63 (Uint63.of_Z i).

(** [int(f)] for [f] of type [float64]: the fraction is discarded.  When the
    value does not fit (or is not a number) Go leaves the result to the
    implementation; the model takes what amd64 produces, the least [int]. *)
Definition int_of_float64 (f : float) : Z :=
  match Prim2SF f with
  | S754_zero _ => 0
  | S754_finite s m e =>
      let mag :=
        if 0 <=? e then Z.shiftl (Zpos m) e else Z.shiftr (Zpos m) (- e) in
      let v := if s then - mag else mag in
      if in_int64b v then v else minInt64
  | S754_infinity _ => minInt64
  | S754_nan => minInt64
  end.

(** ** boxscore.go: the team statistics aggregator *)

(** The fields of [SkaterStats] that the aggregator reads. *)
Module SkaterStats.
Record t : Type := mk {
  Position : Position.t;
  PIM : Z;
  Hits : Z;
  PowerPlayGoals : Z;
  SOG : Z;
  FaceoffWinningPctg : float;
  BlockedShots : Z;
  Shifts : Z;
  Giveaways : Z;
  Takeaways : Z
}.
End SkaterStats.

(** The fields of [GoalieStats] that the aggregator reads; [None] is the nil
    pointer. *)
Module GoalieStats.
Record t : Type := mk {
  PowerPlayGoalsAgainst : Z;
  PIM : option Z
}.
End GoalieStats.

Module TeamPlayerStats.
Record t : Type := mk {
  Forwards : list SkaterStats.t;
  Defense : list SkaterStats.t;
  Goalies : list GoalieStats.t
}.
End TeamPlayerStats.

Module TeamGameStats.

Record t : Type := mk {
  ShotsOnGoal : Z;
  FaceoffWins : Z;
  FaceoffTotal : Z;
  PowerPlayGoals : Z;
  PowerPlayOpportunities : Z;
  PenaltyMinutes : Z;
  Hits : Z;
  BlockedShots : Z;
  Giveaways : Z;
  Takeaways : Z
}.

(** The zero value [TeamGameStats{}]. *)
Definition zero : t := mk 0 0 0 0 0 0 0 0 0 0.

(** Every field holds a Go [int]. *)
Definition well_formed (t : t) : Prop :=
  in_int64 (ShotsOnGoal t) /\ in_int64 (FaceoffWins t)
  /\ in_int64 (FaceoffTotal t) /\ in_int64 (PowerPlayGoals t)
  /\ in_int64 (PowerPlayOpportunities t) /\ in_int64 (PenaltyMinutes t)
  /\ in_int64 (Hits t) /\ in_int64 (BlockedShots t)
  /\ in_int64 (Giveaways t) /\ in_int64 (Takeaways t).

Definition FaceoffPercentage (t : t) : float :=
  if FaceoffTotal t >? 0 then
    (float64_of_int (FaceoffWins t) / float64_of_int (FaceoffTotal t)
     * 100)%float
  else 0%float.

Definition PowerPlayPercentage (t : t) : float :=
  if PowerPlayOpportunities t >? 0 then
    (float64_of_int (PowerPlayGoals t)
     / float64_of_int (PowerPlayOpportunities t) * 100)%float
  else 0%float.

End TeamGameStats.

Module Boxscore.

Import TeamGameStats.

(** The estimate of faceoffs won, as the source computes it. *)
Definition estimatedWins (shifts : Z) (pctg : float) : Z :=
  int_of_float64 (float64_of_int shifts * pctg + 0.5)%float.

(** The guard of [addFaceoffStats]. *)
Definition countsForFaceoffs (skater : SkaterStats.t) : bool :=
  String.eqb (SkaterStats.Position skater) Position.PositionCenter
  && (0 <? SkaterStats.FaceoffWinningPctg skater)%float.

Definition addFaceoffStats (teamStats : TeamGameStats.t)
  (skater : SkaterStats.t) : TeamGameStats.t :=
  if countsForFaceoffs skater then
    let estimatedFaceoffs := SkaterStats.Shifts skater in
    mk (ShotsOnGoal teamStats)
       (int_add (FaceoffWins teamStats)
          (estimatedWins estimatedFaceoffs
             (SkaterStats.FaceoffWinningPctg skater)))
       (int_add (FaceoffTotal teamStats) estimatedFaceoffs)
       (PowerPlayGoals teamStats)
       (PowerPlayOpportunities teamStats)
       (PenaltyMinutes teamStats)
       (Hits teamStats)
       (BlockedShots teamStats)
       (Giveaways teamStats)
       (Takeaways teamStats)
  else teamStats.

(** One turn of the loop over [allSkaters]. *)
Definition skaterStep (teamStats : TeamGameStats.t) (skater : SkaterStats.t)
  : TeamGameStats.t :=
  addFaceoffStats
    (mk (int_add (ShotsOnGoal teamStats) (SkaterStats.SOG skater))
        (FaceoffWins teamStats)
        (FaceoffTotal teamStats)
        (int_add (PowerPlayGoals teamStats)
           (SkaterStats.PowerPlayGoals skater))
        (PowerPlayOpportunities teamStats)
        (int_add (PenaltyMinutes teamStats) (SkaterStats.PIM skater))
        (int_add (Hits teamStats) (SkaterStats.Hits skater))
        (int_add (BlockedShots teamStats) (SkaterStats.BlockedShots skater))
        (int_add (Giveaways teamStats) (SkaterStats.Giveaways skater))
        (int_add (Takeaways teamStats) (SkaterStats.Takeaways skater)))
    skater.

(** The slice [allSkaters]: the forwards, then the defensemen. *)
Definition allSkaters (stats : TeamPlayerStats.t) : list SkaterStats.t :=
  (TeamPlayerStats.Forwards stats ++ TeamPlayerStats.Defense stats)%list.

Definition aggregateSkaterStats (teamStats : TeamGameStats.t)
  (stats : TeamPlayerStats.t) : TeamGameStats.t :=
  fold_left skaterStep (allSkaters stats) teamStats.

(** One turn of the loop over [stats.Goalies]. *)
Definition goalieStep (teamStats : TeamGameStats.t) (goalie : GoalieStats.t)
  : TeamGameStats.t :=
  mk (ShotsOnGoal teamStats)
     (FaceoffWins teamStats)
     (FaceoffTotal teamStats)
     (PowerPlayGoals teamStats)
     (int_add (PowerPlayOpportunities teamStats)
        (GoalieStats.PowerPlayGoalsAgainst goalie))
     (match GoalieStats.PIM goalie with
      | Some pim => int_add (PenaltyMinutes teamStats) pim
      | None => PenaltyMinutes teamStats
      end)
     (Hits teamStats)
     (BlockedShots teamStats)
     (Giveaways teamStats)
     (Takeaways teamStats).

Definition aggregateGoalieStats (teamStats : TeamGameStats.t)
  (stats : TeamPlayerStats.t) : TeamGameStats.t :=
  fold_left goalieStep (TeamPlayerStats.Goalies stats) teamStats.

Definition FromTeamPlayerStats (stats : TeamPlayerStats.t)
  : TeamGameStats.t :=
  let teamStats := TeamGameStats.zero in
  let teamStats := aggregateSkaterStats teamStats stats in
  let teamStats := aggregateGoalieStats teamStats stats in
  teamStats.

End Boxscore.

(** ** Numeric identifiers: the shared helpers, TeamID and PlayerID *)

(** [fmt.Errorf] with a [%s] verb before the [%w] verb: the type name is
    written into the message. *)
Definition unmarshalNumericID (data : json) (typeName : string) : result Z :=
  match Json.Unmarshal_int64 data with
  | Ok i => Ok i
  | Err _ =>
      match Json.Unmarshal_string data with
      | Err e => Err (Wrapf (typeName ++ " must be an integer or string: %w") e)
      | Ok s =>
          match strconv.ParseInt s with
          | (_, Some e) => Err (Wrapf ("invalid " ++ typeName ++ " string: %w") e)
          | (i, None) => Ok i
          end
      end
  end.

Definition parseNumericID (s : string) (typeName : string) : result Z :=
  match strconv.ParseInt s with
  | (_, Some e) => Err (Wrapf ("invalid " ++ typeName ++ " string: %w") e)
  | (i, None) => Ok i
  end.

Module TeamID.

Definition t : Type := Z.

Definition String_ (t : t) : string := strconv.FormatInt t.

Definition MarshalJSON (t : t) : result json := Json.Marshal_int t.

Definition UnmarshalJSON (data : json) : result t :=
  match unmarshalNumericID data "team ID" with
  | Err err => Err err
  | Ok i => Ok i
  end.

Definition TeamIDFromString (s : string) : result t :=
  match parseNumericID s "team ID" with
  | Err err => Err err
  | Ok i => Ok i
  end.

End TeamID.

Module PlayerID.

Definition t : Type := Z.

Definition String_ (p : t) : string := strconv.FormatInt p.

Definition MarshalJSON (p : t) : result json := Json.Marshal_int p.

Definition UnmarshalJSON (data : json) : result t :=
  match unmarshalNumericID data "player ID" with
  | Err err => Err err
  | Ok i => Ok i
  end.

Definition PlayerIDFromString (s : string) : result t :=
  match parseNumericID s "player ID" with
  | Err err => Err err
  | Ok i => Ok i
  end.

End PlayerID.

(** ** game_center.go: the play-by-play helpers *)

(** The indices, counted from [start], of the elements of a slice that pass
    a test: what a loop over the slice that appends the address of each
    passing element collects.  A pointer into a slice is modelled by the
    index it points at. *)
Fixpoint indices_where {A : Type} (keep : A -> bool) (start : nat)
  (l : list A) : list nat :=
  match l with
  | [] => []
  | x :: rest =>
      if keep x then start :: indices_where keep (S start) rest
      else indices_where keep (S start) rest
  end.

(** The index of the first element that passes a test: what a loop that
    returns at the first match finds; [None] is the nil pointer. *)
Fixpoint first_index {A : Type} (keep : A -> bool) (start : nat)
  (l : list A) : option nat :=
  match l with
  | [] => None
  | x :: rest =>
      if keep x then Some start else first_index keep (S start) rest
  end.

Module PlayByPlay.

(** The fields of [PlayEvent] and [RosterSpot] that the helpers read. *)
Record PlayEvent : Type := mkPlayEvent {
  PeriodNumber : Z;
  SituationCode : string;
  TypeDescKey : PlayEventType.t
}.

Record RosterSpot : Type := mkRosterSpot {
  TeamID : Z;
  PlayerID : Z
}.

Record t : Type := mk {
  Plays : list PlayEvent;
  RosterSpots : list RosterSpot
}.

(** [None] is the nil slice.  The loop fills [recent[i]] with the address
    of [Plays[playCount-1-i]] for [i] from 0 up to [count]. *)
Definition RecentPlays (p : t) (count : Z) : option (list nat) :=
  if count <=? 0 then None
  else
    let playCount := len_list (Plays p) in
    if playCount =? 0 then None
    else
      let count := if count >? playCount then playCount else count in
      Some (map (fun i => Z.to_nat (playCount - 1 - Z.of_nat i))
              (seq 0 (Z.to_nat count))).

Definition Goals (p : t) : list nat :=
  indices_where
    (fun e => String.eqb (TypeDescKey e) PlayEventType.PlayEventTypeGoal)
    0 (Plays p).

Definition Penalties (p : t) : list nat :=
  indices_where
    (fun e => String.eqb (TypeDescKey e) PlayEventType.PlayEventTypePenalty)
    0 (Plays p).

Definition Shots (p : t) : list nat :=
  indices_where (fun e => PlayEventType.IsScoringChance (TypeDescKey e))
    0 (Plays p).

Definition PlaysInPeriod (p : t) (period : Z) : list nat :=
  indices_where (fun e => PeriodNumber e =? period) 0 (Plays p).

Definition GetPlayer (p : t) (playerID : Z) : option nat :=
  first_index (fun r => PlayerID r =? playerID) 0 (RosterSpots p).

Definition TeamRoster (p : t) (teamID : Z) : list nat :=
  indices_where (fun r => TeamID r =? teamID) 0 (RosterSpots p).

Definition Situation (e : PlayEvent) : option GameSituation.t :=
  GameSituation.GameSituationFromCode (SituationCode e).

Definition CurrentSituation (p : t) : option GameSituation.t :=
  if len_list (Plays p) =? 0 then None
  else
    match nth_error (Plays p) (Z.to_nat (len_list (Plays p) - 1)) with
    | Some e => Situation e
    | None => None
    end.

End PlayByPlay.

(** ** common.go: the roster *)

Module Roster.

(** The fields of [RosterPlayer] that its methods read without the clock;
    [None] is the nil pointer to a localized string, [Some] holds its
    default text. *)
Record RosterPlayer : Type := mkRosterPlayer {
  FirstName : string;
  LastName : string;
  HeightInInches : Z;
  BirthCity : option string;
  BirthStateProvince : option string;
  BirthCountry : string
}.

Record t : Type := mk {
  Forwards : list RosterPlayer;
  Defensemen : list RosterPlayer;
  Goalies : list RosterPlayer
}.

Definition AllPlayers (r : t) : list RosterPlayer :=
  ((Forwards r ++ Defensemen r) ++ Goalies r)%list.

Definition PlayerCount (r : t) : Z :=
  int_add (int_add (len_list (Forwards r)) (len_list (Defensemen r)))
    (len_list (Goalies r)).

Definition FullName (p : RosterPlayer) : string :=
  FirstName p ++ " " ++ LastName p.

(** [fmt.Sprintf] with the two [%d] verbs, the quote after the first and the
    double quote (byte 34) after the second. *)
Definition HeightFeetInches (p : RosterPlayer) : string :=
  let feet := int_div (HeightInInches p) 12 in
  let inches := int_mod (HeightInInches p) 12 in
  strconv.FormatInt feet ++ "'" ++ strconv.FormatInt inches
    ++ String (ascii_of_nat 34) EmptyString.

(** The loop that joins the parts: [i] counts the parts already written. *)
Fixpoint joinParts (i : nat) (parts : list string) (result : string) : string :=
  match parts with
  | [] => result
  | part :: rest =>
      joinParts (S i) rest
        ((if (0 <? i)%nat then result ++ ", " else result) ++ part)
  end.

Definition BirthPlace (p : RosterPlayer) : string :=
  let parts := [] in
  let parts :=
    match BirthCity p with
    | Some city =>
        if negb (String.eqb city EmptyString) then (parts ++ [city])%list
        else parts
    | None => parts
    end in
  let parts :=
    match BirthStateProvince p with
    | Some state =>
        if negb (String.eqb state EmptyString) then (parts ++ [state])%list
        else parts
    | None => parts
    end in
  let parts :=
    if negb (String.eqb (BirthCountry p) EmptyString)
    then (parts ++ [BirthCountry p])%list
    else parts in
  joinParts 0 parts EmptyString.

End Roster.

(** ** errors.go: errors by status code *)

Module Errors.

Record Error : Type := mkError {
  Message : string;
  StatusCode : Z
}.

(** The dynamic type of the error returned, around the [Error] it holds. *)
Inductive apiError : Type :=
| ResourceNotFoundError (e : Error)
| RateLimitExceededError (e : Error)
| ServerError (e : Error)
| BadRequestError (e : Error)
| UnauthorizedError (e : Error)
| APIError (e : Error).

Definition inner (e : apiError) : Error :=
  match e with
  | ResourceNotFoundError e | RateLimitExceededError e | ServerError e
  | BadRequestError e | UnauthorizedError e | APIError e => e
  end.

(** The methods [Message] and [StatusCode] of the six types. *)
Definition Message_ (e : apiError) : string := Message (inner e).
Definition StatusCode_ (e : apiError) : Z := StatusCode (inner e).

Definition NewResourceNotFoundError (message : string) : apiError :=
  ResourceNotFoundError (mkError message 404).
Definition NewRateLimitExceededError (message : string) : apiError :=
  RateLimitExceededError (mkError message 429).
Definition NewServerError (statusCode : Z) (message : string) : apiError :=
  ServerError (mkError message statusCode).
Definition NewBadRequestError (message : string) : apiError :=
  BadRequestError (mkError message 400).
Definition NewUnauthorizedError (message : string) : apiError :=
  UnauthorizedError (mkError message 401).
Definition NewAPIError (statusCode : Z) (message : string) : apiError :=
  APIError (mkError message statusCode).

(** [StatusText] is [http.StatusText]. *)
Definition ErrorFromStatusCode (StatusText : Z -> string) (statusCode : Z)
  (message : string) : apiError :=
  let message :=
    if String.eqb message EmptyString then StatusText statusCode
    else message in
  if statusCode =? 400 then NewBadRequestError message
  else if statusCode =? 401 then NewUnauthorizedError message
  else if statusCode =? 404 then NewResourceNotFoundError message
  else if statusCode =? 429 then NewRateLimitExceededError message
  else if statusCode >=? 500 then NewServerError statusCode message
  else NewAPIError statusCode message.

End Errors.

(** ** The client: URLs and the daily schedule *)

Definition strings_HasPrefix (s : string) (c : ascii) : bool :=
  match s with
  | EmptyString => false
  | String c0 _ => Ascii.eqb c0 c
  end.

Fixpoint strings_HasSuffix (s : string) (c : ascii) : bool :=
  match s with
  | EmptyString => false
  | String c0 EmptyString => Ascii.eqb c0 c
  | String _ rest => strings_HasSuffix rest c
  end.

Module Client.

Definition buildURL (base resource : string) : string :=
  if String.eqb base EmptyString || String.eqb resource EmptyString
  then base ++ resource
  else
    let baseEndsWithSlash := strings_HasSuffix base "/"%char in
    let resourceStartsWithSlash := strings_HasPrefix resource "/"%char in
    if baseEndsWithSlash && resourceStartsWithSlash
    then base ++ slice_from resource 1
    else if negb baseEndsWithSlash && negb resourceStartsWithSlash
    then base ++ "/" ++ resource
    else base ++ resource.

Section Schedule.

(** [ScheduleGame], of which the function reads nothing. *)
Variable ScheduleGame : Type.

(** [None] is the nil slice. *)
Record GameDay : Type := mkGameDay {
  GameDay_Date : string;
  GameDay_Games : option (list ScheduleGame)
}.

Record WeeklyScheduleResponse : Type := mkWeeklyScheduleResponse {
  Weekly_NextStartDate : string;
  Weekly_PreviousStartDate : string;
  GameWeek : list GameDay
}.

(** The two date pointers point at the fields of the weekly schedule and are
    modelled by the strings they point at. *)
Record DailySchedule : Type := mkDailySchedule {
  NextStartDate : option string;
  PreviousStartDate : option string;
  Date : string;
  Games : list ScheduleGame;
  NumberOfGames : Z
}.

(** The loop over [GameWeek], left at the first day of the date asked. *)
Fixpoint gamesOn (days : list GameDay) (dateString : string)
  : option (list ScheduleGame) :=
  match days with
  | [] => None
  | day :: rest =>
      if String.eqb (GameDay_Date day) dateString then GameDay_Games day
      else gamesOn rest dateString
  end.

Definition extractDailySchedule (weeklySchedule : WeeklyScheduleResponse)
  (dateString : string) : DailySchedule :=
  let games := gamesOn (GameWeek weeklySchedule) dateString in
  let games :=
    match games with
    | None => []
    | Some games => games
    end in
  mkDailySchedule
    (Some (Weekly_NextStartDate weeklySchedule))
    (Some (Weekly_PreviousStartDate weeklySchedule))
    dateString games (len_list games).

End Schedule.

Arguments mkGameDay {ScheduleGame}.
Arguments GameDay_Date {ScheduleGame}.
Arguments GameDay_Games {ScheduleGame}.
Arguments mkWeeklyScheduleResponse {ScheduleGame}.
Arguments GameWeek {ScheduleGame}.
Arguments Weekly_NextStartDate {ScheduleGame}.
Arguments Weekly_PreviousStartDate {ScheduleGame}.
Arguments NextStartDate {ScheduleGame}.
Arguments PreviousStartDate {ScheduleGame}.
Arguments Date {ScheduleGame}.
Arguments Games {ScheduleGame}.
Arguments NumberOfGames {ScheduleGame}.
Arguments gamesOn {ScheduleGame}.
Arguments extractDailySchedule {ScheduleGame}.

End Client.

(** ** Season game types (club statistics) *)

Module SeasonGameTypes.

Record t : Type := mk {
  Season : Season.t;
  GameTypes : list GameType.t
}.

(** The anonymous struct that [encoding/json] fills and writes. *)
Record raw : Type := mkRaw {
  raw_Season : Z;
  raw_GameTypes : list Z
}.

(** The loop of [UnmarshalJSON] over the raw game types. *)
Fixpoint gameTypesFromInts (gts : list Z) (acc : list GameType.t)
  : result (list GameType.t) :=
  match gts with
  | [] => Ok acc
  | gt :: rest =>
      match GameType.GameTypeFromInt gt with
      | Err err => Err (Wrapf "unmarshaling game types: %w" err)
      | Ok gameType => gameTypesFromInts rest (acc ++ [gameType])%list
      end
  end.

(** [UnmarshalJSON] once [json.Unmarshal] has filled the raw struct. *)
Definition fromRaw (r : raw) : result t :=
  match Season.SeasonFromInt (raw_Season r) with
  | Err err => Err (Wrapf "unmarshaling season: %w" err)
  | Ok season =>
      match gameTypesFromInts (raw_GameTypes r) [] with
      | Err err => Err err
      | Ok gameTypes => Ok (mk season gameTypes)
      end
  end.

(** The loop of [MarshalJSON]: [i] is the index of the head of [gts]. *)
Fixpoint gameTypeInts (i : Z) (gts : list GameType.t) (acc : list Z)
  : result (list Z) :=
  match gts with
  | [] => Ok acc
  | gt :: rest =>
      if negb (GameType.IsValid gt)
      then Err (Errorf "invalid game type at index %d: %d"
                  [ArgInt i; ArgInt gt])
      else gameTypeInts (i + 1) rest (acc ++ [GameType.ToInt gt])%list
  end.

(** [MarshalJSON] up to the call of [json.Marshal] on the raw struct. *)
Definition toRaw (s : t) : result raw :=
  match gameTypeInts 0 (GameTypes s) [] with
  | Err err => Err err
  | Ok ints => Ok (mkRaw (Season.ToInt (Season s)) ints)
  end.

End SeasonGameTypes.

(** ** The label of a season (standings) *)

Module SeasonInfo.

(** The field of [SeasonInfo] that [Label] reads. *)
Record t : Type := mk { ID : Season.t }.

Definition Label (s : t) : string :=
  let startYear := Season.StartYear (ID s) in
  strconv.FormatInt startYear ++ "-" ++ fmt_d_zero 2 (int_add startYear 1).

End SeasonInfo.

(** ** Quantities the statements below speak of *)

(** A decimal digit, the string of four of them and the number they
    write. *)
Definition is_dec (d : Z) : Prop := 0 <= d <= 9.

Definition str4 (d3 d2 d1 d0 : Z) : string :=
  String (digit_char d3) (String (digit_char d2)
    (String (digit_char d1) (String (digit_char d0) EmptyString))).

Definition val4 (d3 d2 d1 d0 : Z) : Z := d3 * 1000 + d2 * 100 + d1 * 10 + d0.

(** The skaters that count for faceoffs: the centers with a faceoff winning
    percentage above zero, in the order of [allSkaters]. *)
Definition faceoffCenters (stats : TeamPlayerStats.t) : list SkaterStats.t :=
  filter Boxscore.countsForFaceoffs (Boxscore.allSkaters stats).


(** The float64 nearest to the decimal constant 0.55. *)
Definition pctg_055 : float := 0x1.199999999999ap-1%float.

(** A skater of whom only the position, the shifts and the faceoff winning
    percentage are set. *)
Definition skaterWith (position : Position.t) (shifts : Z) (pctg : float)
  : SkaterStats.t :=
  SkaterStats.mk position 0 0 0 0 pctg 0 shifts 0 0.

(** Each part after the first, with the separator before it. *)
Fixpoint prefix_all (sep : string) (parts : list string) : string :=
  match parts with
  | [] => EmptyString
  | p :: rest => sep ++ p ++ prefix_all sep rest
  end.

(** The parts of a birth place that are there: the pointer is not nil and
    the text is not empty. *)
Definition present (s : option string) : list string :=
  match s with
  | Some text => if String.eqb text EmptyString then [] else [text]
  | None => []
  end.

(** Every game type of the list is a valid one. *)
Definition all_valid (gts : list GameType.t) : Prop :=
  Forall (fun g => GameType.IsValid g = true) gts.

(** * Properties *)

(** ** Machine integers *)

Lemma wrap64_id (z : Z) : in_int64 z -> wrap64 z = z.
Proof.
  unfold in_int64, minInt64, maxInt64, wrap64. intros H.
  rewrite Z.mod_small; lia.
Qed.

Lemma wrap64_range (z : Z) : in_int64 (wrap64 z).
Proof.
  unfold in_int64, minInt64, maxInt64, wrap64.
  pose proof (Z.mod_pos_bound (z + 2 ^ 63) (2 ^ 64) ltac:(lia)). lia.
Qed.

Lemma wrap64_add_l (a b : Z) : wrap64 (wrap64 a + b) = wrap64 (a + b).
Proof.
  unfold wrap64.
  replace ((a + 2 ^ 63) mod 2 ^ 64 - 2 ^ 63 + b + 2 ^ 63)
    with ((a + 2 ^ 63) mod 2 ^ 64 + b) by lia.
  rewrite Zplus_mod_idemp_l. f_equal. f_equal. lia.
Qed.

Lemma in_int64b_spec (z : Z) : in_int64b z = true <-> in_int64 z.
Proof. unfold in_int64b, in_int64. lia. Qed.

(** Truncated and floored division agree on the values a valid game
    identifier takes. *)
Lemma int_div_nonneg (a b : Z) : 0 <= a -> 0 < b -> int_div a b = a / b.
Proof. intros. unfold int_div. apply Z.quot_div_nonneg; lia. Qed.

Lemma int_mod_nonneg (a b : Z) : 0 <= a -> 0 < b -> int_mod a b = a mod b.
Proof. intros. unfold int_mod. apply Z.rem_mod_nonneg; lia. Qed.

(** ** Game types and game identifiers *)

Lemma GameType_IsValid_known (g : Z) :
  GameType.IsValid g = true <-> In g GameType.known.
Proof.
  unfold GameType.IsValid, GameType.known. split.
  - intros H.
    repeat match type of H with
           | (if ?a =? ?b then _ else _) = _ =>
               destruct (Z.eqb_spec a b) as [E | _];
                 [rewrite E; simpl; auto 20 | ]
           end.
    discriminate.
  - intros H. simpl in H.
    repeat (destruct H as [<- | H]; [reflexivity | ]). contradiction.
Qed.

Lemma GameID_bound_test (g : Z) :
  1000000000 <= g <= 9999999999 ->
  (g <? 1000000000) || (g >? 9999999999) = false.
Proof. lia. Qed.

Lemma GameID_bound_test_out (g : Z) :
  ~ 1000000000 <= g <= 9999999999 ->
  (g <? 1000000000) || (g >? 9999999999) = true.
Proof. lia. Qed.

(** C3.  The two ten-digit boundary identifiers validate; a nine-digit and
    an eleven-digit value are refused by the digit-count test; 2023050001 is
    refused by the game-type test although its game-type segment is
    extracted, as 5, without error. *)
Theorem GameID_Validate_boundary_values :
  GameID.Validate 1000010000 = None
  /\ GameID.Validate 9999049999 = None
  /\ GameID.Validate 999999999
     = Some (Errorf "game ID must be 10 digits, got: %d" [ArgInt 999999999])
  /\ GameID.Validate 10000000000
     = Some (Errorf "game ID must be 10 digits, got: %d" [ArgInt 10000000000])
  /\ GameID.Validate 2023050001
     = Some (Errorf "invalid game type: %02d" [ArgInt 5])
  /\ GameID.GameType 2023050001 = Ok 5
  /\ ~ In 5 GameType.known.
Proof.
  repeat split; try reflexivity.
  rewrite <- GameType_IsValid_known. discriminate.
Qed.

(** C7.  A game identifier of ten digits decomposes without error; the three
    parts are the quotients and remainders of the stored integer and
    recombine to it; and when the game type extracted is a known one the
    identifier validates. *)
Theorem GameID_decompose_recombine (g : Z) :
  1000000000 <= g <= 9999999999 ->
  GameID.Season g = Ok (Season.NewSeason (g / 1000000))
  /\ GameID.GameType g = Ok ((g / 10000) mod 100)
  /\ GameID.GameNumber g = Ok (g mod 10000)
  /\ Season.StartYear (Season.NewSeason (g / 1000000)) * 1000000
     + (g / 10000) mod 100 * 10000 + g mod 10000 = g
  /\ (In ((g / 10000) mod 100) GameType.known -> GameID.Validate g = None).
Proof.
  intros Hg.
  assert (HT : GameID.GameType g = Ok ((g / 10000) mod 100)).
  { unfold GameID.GameType. rewrite GameID_bound_test by assumption.
    rewrite int_div_nonneg by lia.
    rewrite int_mod_nonneg by (try apply Z.div_pos; lia). reflexivity. }
  repeat split.
  - unfold GameID.Season. rewrite GameID_bound_test by assumption.
    rewrite int_div_nonneg by lia. reflexivity.
  - exact HT.
  - unfold GameID.GameNumber. rewrite GameID_bound_test by assumption.
    rewrite int_mod_nonneg by lia. reflexivity.
  - unfold Season.StartYear, Season.NewSeason. simpl.
    replace 1000000 with (10000 * 100) by reflexivity.
    rewrite <- Z.div_div by lia.
    pose proof (Z.div_mod (g / 10000) 100 ltac:(lia)).
    pose proof (Z.div_mod g 10000 ltac:(lia)). lia.
  - intros Hk. apply GameType_IsValid_known in Hk.
    unfold GameID.Validate. rewrite GameID_bound_test by assumption.
    rewrite HT, Hk. reflexivity.
Qed.

(** The decomposition at the identifier 2023020001. *)
Lemma GameID_decompose_recombine_witness :
  GameID.Season 2023020001 = Ok (Season.NewSeason (2023020001 / 1000000))
  /\ GameID.GameType 2023020001 = Ok ((2023020001 / 10000) mod 100)
  /\ GameID.GameNumber 2023020001 = Ok (2023020001 mod 10000)
  /\ Season.StartYear (Season.NewSeason (2023020001 / 1000000)) * 1000000
     + (2023020001 / 10000) mod 100 * 10000 + 2023020001 mod 10000
     = 2023020001
  /\ (In ((2023020001 / 10000) mod 100) GameType.known ->
      GameID.Validate 2023020001 = None).
Proof. apply (GameID_decompose_recombine 2023020001). lia. Defined.

(** Outside the ten-digit range every accessor and [Validate] fail. *)
Lemma GameID_out_of_range_detected (g : Z) :
  ~ 1000000000 <= g <= 9999999999 ->
  GameID.Validate g
  = Some (Errorf "game ID must be 10 digits, got: %d" [ArgInt g])
  /\ GameID.Season g = Err (Errorf "invalid game ID: %d" [ArgInt g])
  /\ GameID.GameType g = Err (Errorf "invalid game ID: %d" [ArgInt g])
  /\ GameID.GameNumber g = Err (Errorf "invalid game ID: %d" [ArgInt g]).
Proof.
  intros Hg. unfold GameID.Validate, GameID.Season, GameID.GameType,
    GameID.GameNumber.
  rewrite GameID_bound_test_out by assumption. repeat split.
Qed.

(** C10, as the code has it.  [GameIDFromString] and [UnmarshalJSON] accept
    whatever parses as an int64: a string that [ParseInt] reads gives the
    identifier it reads, and so does a JSON integer that fits an int64 or a
    JSON string that [ParseInt] reads.  Neither counts digits or looks at
    the game type, so 123, a negative number and an eleven-digit number are
    all accepted; such values are refused only by [Validate] and by the
    accessors. *)
Theorem GameID_parsing_does_not_validate :
  (forall s i,
      strconv.ParseInt s = (i, None) -> GameID.GameIDFromString s = Ok i)
  /\ (forall z, in_int64 z -> GameID.UnmarshalJSON (JInt z) = Ok z)
  /\ (forall s i,
         strconv.ParseInt s = (i, None) ->
         GameID.UnmarshalJSON (JString s) = Ok i)
  /\ GameID.GameIDFromString "123" = Ok 123
  /\ GameID.GameIDFromString "-2023020001" = Ok (- 2023020001)
  /\ GameID.GameIDFromString "20230200011" = Ok 20230200011
  /\ GameID.GameIDFromString "2023050001" = Ok 2023050001
  /\ GameID.UnmarshalJSON (JInt 123) = Ok 123
  /\ GameID.UnmarshalJSON (JString "123") = Ok 123
  /\ (forall g,
         ~ 1000000000 <= g <= 9999999999 ->
         is_ok (GameID.Season g) = false
         /\ is_ok (GameID.GameType g) = false
         /\ is_ok (GameID.GameNumber g) = false
         /\ GameID.Validate g <> None)
  /\ GameID.Validate 2023050001 <> None.
Proof.
  repeat split; try reflexivity; try discriminate.
  - intros s i H. unfold GameID.GameIDFromString. rewrite H. reflexivity.
  - intros z Hz. unfold GameID.UnmarshalJSON. simpl.
    apply in_int64b_spec in Hz. rewrite Hz. reflexivity.
  - intros s i H. unfold GameID.UnmarshalJSON. simpl. rewrite H. reflexivity.
  - destruct (GameID_out_of_range_detected g H) as (_ & E & _). now rewrite E.
  - destruct (GameID_out_of_range_detected g H) as (_ & _ & E & _).
    now rewrite E.
  - destruct (GameID_out_of_range_detected g H) as (_ & _ & _ & E).
    now rewrite E.
  - destruct (GameID_out_of_range_detected g H) as (E & _). now rewrite E.
Qed.

(** Three inputs that are not game identifiers and are accepted all the same. *)
Lemma GameID_parsing_does_not_validate_witness :
  GameID.GameIDFromString "-42" = Ok (- 42)
  /\ GameID.UnmarshalJSON (JInt 7) = Ok 7
  /\ GameID.UnmarshalJSON (JString "99") = Ok 99
  /\ GameID.Validate 7 <> None.
Proof.
  destruct GameID_parsing_does_not_validate
    as (Hs & Hj & Hjs & _ & _ & _ & _ & _ & _ & Hout & _).
  split; [apply Hs; reflexivity | ].
  split; [apply Hj; unfold in_int64, minInt64, maxInt64; lia | ].
  split; [apply Hjs; reflexivity | ].
  apply (Hout 7). lia.
Defined.

(** C10, counterexample.  The least integer above the int64 range is a JSON
    integer; the decoder cannot store it in the int64 target, the text is
    not a JSON string either, and [UnmarshalJSON] returns an error. *)
Lemma GameID_UnmarshalJSON_rejects_wide_integer :
  Json.Unmarshal_int64 (JInt 9223372036854775808)
  = Err (JsonUnmarshalError "int64")
  /\ GameID.UnmarshalJSON (JInt 9223372036854775808)
     = Err (Wrapf "game ID must be an integer or string: %w"
              (JsonUnmarshalError "string"))
  /\ is_ok (GameID.UnmarshalJSON (JInt 9223372036854775808)) = false.
Proof. repeat split. Qed.

(** ** Game dates *)

(** C9.  Whatever the date (symbolic or concrete), the number of days and
    the instant read from the clock, [AddDays] returns a concrete date: the
    date resolved against the clock, moved by the days given. *)
Theorem GameDate_AddDays_is_concrete
  (Time : Type) (AddDate : Time -> Z -> Z -> Z -> Time) (clock : Time)
  (gd : GameDate.t Time) (days : Z) :
  GameDate.IsNow (GameDate.AddDays AddDate clock gd days) = false
  /\ GameDate.AddDays AddDate clock gd days
     = GameDate.FromDate
         (AddDate (if GameDate.IsNow gd then clock else GameDate.date gd)
            0 0 days).
Proof. split; reflexivity. Qed.

(** ** Situation codes *)

(** [Atoi] on the one-character string made from a byte succeeds exactly on
    a decimal digit, and then gives its value. *)
Lemma Atoi_string_of_byte (c : ascii) :
  strconv.Atoi (string_of_byte c)
  = if is_digit c then (digit_val c, None)
    else (0, Some (NumError "Atoi" (string_of_byte c) ErrSyntax)).
Proof.
  destruct c as [[] [] [] [] [] [] [] []]; reflexivity.
Qed.

(** The parser, as a function of the four bytes of the code. *)
Lemma GameSituationFromCode_eq (code : string) :
  GameSituation.GameSituationFromCode code
  = match code with
    | String c0 (String c1 (String c2 (String c3 EmptyString))) =>
        if is_digit c1 && is_digit c2
        then Some (GameSituation.mk (digit_val c1) (Ascii.eqb c0 "1"%char)
                     (digit_val c2) (Ascii.eqb c3 "1"%char))
        else None
    | _ => None
    end.
Proof.
  unfold GameSituation.GameSituationFromCode.
  destruct code as [| c0 [| c1 [| c2 [| c3 [| c4 rest]]]]]; try reflexivity.
  - cbn [len String.length String.get negb]. simpl Z.eqb.
    cbv iota beta. simpl String.get.
    rewrite !Atoi_string_of_byte.
    destruct (is_digit c1), (is_digit c2); reflexivity.
  - unfold len. cbn [String.length].
    destruct (Z.eqb_spec (Z.of_nat (S (S (S (S (S (String.length rest))))))) 4)
      as [E | E]; [lia | reflexivity].
Qed.

(** C5.  The parser returns a situation exactly for the codes of four bytes
    whose bytes 1 and 2 are decimal digits; the skater counts are then the
    values of those digits, and each goalie flag tells whether the byte at
    its end of the code is the character 1, any other byte giving false. *)
Theorem GameSituationFromCode_spec (code : string) :
  (GameSituation.GameSituationFromCode code <> None
   <-> exists c0 c1 c2 c3,
         code = String c0 (String c1 (String c2 (String c3 EmptyString)))
         /\ is_digit c1 = true /\ is_digit c2 = true)
  /\ (forall c0 c1 c2 c3,
         code = String c0 (String c1 (String c2 (String c3 EmptyString))) ->
         is_digit c1 = true -> is_digit c2 = true ->
         GameSituation.GameSituationFromCode code
         = Some (GameSituation.mk (digit_val c1) (Ascii.eqb c0 "1"%char)
                   (digit_val c2) (Ascii.eqb c3 "1"%char)))
  /\ (String.length code = 4%nat
      <-> exists c0 c1 c2 c3,
            code = String c0 (String c1 (String c2 (String c3 EmptyString)))).
Proof.
  rewrite GameSituationFromCode_eq. repeat split.
  - intros H.
    destruct code as [| c0 [| c1 [| c2 [| c3 [| c4 rest]]]]];
      try (exfalso; apply H; reflexivity).
    exists c0, c1, c2, c3.
    destruct (is_digit c1), (is_digit c2);
      try (exfalso; apply H; reflexivity). repeat split.
  - intros (c0 & c1 & c2 & c3 & -> & H1 & H2). rewrite H1, H2. discriminate.
  - intros c0 c1 c2 c3 -> H1 H2. rewrite H1, H2. reflexivity.
  - intros H.
    destruct code as [| c0 [| c1 [| c2 [| c3 [| c4 rest]]]]];
      try discriminate.
    exists c0, c1, c2, c3. reflexivity.
  - intros (c0 & c1 & c2 & c3 & ->). reflexivity.
Qed.

(** Two codes of four bytes with digits in the middle. *)
Lemma GameSituationFromCode_spec_witness :
  GameSituation.GameSituationFromCode "0651"
  = Some (GameSituation.mk 6 false 5 true)
  /\ GameSituation.GameSituationFromCode "x55y"
     = Some (GameSituation.mk 5 false 5 false).
Proof.
  split.
  - apply (proj1 (proj2 (GameSituationFromCode_spec "0651"))
             "0"%char "6"%char "5"%char "1"%char); reflexivity.
  - apply (proj1 (proj2 (GameSituationFromCode_spec "x55y"))
             "x"%char "5"%char "5"%char "y"%char); reflexivity.
Defined.

Lemma append_empty_r (s : string) : s ++ EmptyString = s.
Proof. induction s as [| c s IH]; simpl; [ | rewrite IH]; reflexivity. Qed.

(** C6.  The strength label is the two skater counts in decimal around the
    letter v, followed by EN when a goalie is absent, else by PP when the
    counts differ, else by nothing; on the three codes named in the claim it
    is 5v5, 6v5 EN and 6v4 EN. *)
Theorem StrengthDescription_spec (g : GameSituation.t) :
  GameSituation.StrengthDescription g
  = (strconv.FormatInt (GameSituation.AwaySkaters g) ++ "v"
     ++ strconv.FormatInt (GameSituation.HomeSkaters g))
    ++ (if negb (GameSituation.AwayGoalieIn g && GameSituation.HomeGoalieIn g)
        then " EN"
        else if GameSituation.AwaySkaters g =? GameSituation.HomeSkaters g
             then EmptyString
             else " PP")
  /\ option_map GameSituation.StrengthDescription
       (GameSituation.GameSituationFromCode "1551") = Some "5v5"
  /\ option_map GameSituation.StrengthDescription
       (GameSituation.GameSituationFromCode "0651") = Some "6v5 EN"
  /\ option_map GameSituation.StrengthDescription
       (GameSituation.GameSituationFromCode "0641") = Some "6v4 EN".
Proof.
  split; [ | repeat split; reflexivity].
  unfold GameSituation.StrengthDescription.
  destruct (GameSituation.AwayGoalieIn g), (GameSituation.HomeGoalieIn g);
    simpl negb; cbv iota; try reflexivity.
  destruct (GameSituation.AwaySkaters g =? GameSituation.HomeSkaters g);
    simpl negb; cbv iota; [rewrite append_empty_r | ]; reflexivity.
Qed.

(** ** Enumerated code types *)

Lemma switch_case_In (v : string) (cases : list string) :
  switch_case v cases = true <-> In v cases.
Proof.
  induction cases as [| c rest IH]; simpl.
  - split; [discriminate | contradiction].
  - destruct (String.eqb_spec v c) as [-> | Hne].
    + split; auto.
    + rewrite IH. split; [auto | intros [E | H]; [congruence | exact H]].
Qed.

Lemma eqb_pair_In (v a b : string) :
  String.eqb v a || String.eqb v b = true <-> In v [a; b].
Proof.
  simpl. rewrite orb_true_iff, !String.eqb_eq.
  split; [intros [-> | ->]; auto | intros [<- | [<- | []]]; auto].
Qed.


(** For each type, [IsValid] holds exactly on the constants of its [const]
    block. *)
Lemma Position_IsValid_known v :
  Position.IsValid v = true <-> In v Position.known.
Proof. apply switch_case_In. Qed.

Lemma Handedness_IsValid_known v :
  Handedness.IsValid v = true <-> In v Handedness.known.
Proof. apply eqb_pair_In. Qed.

Lemma GoalieDecision_IsValid_known v :
  GoalieDecision.IsValid v = true <-> In v GoalieDecision.known.
Proof. apply switch_case_In. Qed.

Lemma PeriodType_IsValid_known v :
  PeriodType.IsValid v = true <-> In v PeriodType.known.
Proof. apply switch_case_In. Qed.

Lemma HomeRoad_IsValid_known v :
  HomeRoad.IsValid v = true <-> In v HomeRoad.known.
Proof. apply eqb_pair_In. Qed.

Lemma ZoneCode_IsValid_known v :
  ZoneCode.IsValid v = true <-> In v ZoneCode.known.
Proof. apply switch_case_In. Qed.

Lemma DefendingSide_IsValid_known v :
  DefendingSide.IsValid v = true <-> In v DefendingSide.known.
Proof. apply eqb_pair_In. Qed.

Lemma GameScheduleState_IsValid_known v :
  GameScheduleState.IsValid v = true <-> In v GameScheduleState.known.
Proof. apply switch_case_In. Qed.

Lemma PlayEventType_IsValid_known v :
  PlayEventType.IsValid v = true <-> In v PlayEventType.known.
Proof. apply switch_case_In. Qed.





(** ** Decimal digits *)

(** Linear arithmetic with quotients and remainders by constants. *)
Ltac dlia := Z.to_euclidean_division_equations; lia.

Lemma is_dec_cases (d : Z) :
  is_dec d ->
  d = 0 \/ d = 1 \/ d = 2 \/ d = 3 \/ d = 4 \/ d = 5 \/ d = 6 \/ d = 7
  \/ d = 8 \/ d = 9.
Proof. unfold is_dec. lia. Qed.

Ltac by_digit d H :=
  destruct (is_dec_cases d H) as [-> | [-> | [-> | [-> | [-> | [-> |
    [-> | [-> | [-> | ->]]]]]]]]]; reflexivity.

Lemma is_digit_digit_char d : is_dec d -> is_digit (digit_char d) = true.
Proof. intros H. by_digit d H. Qed.

Lemma digit_val_digit_char d : is_dec d -> digit_val (digit_char d) = d.
Proof. intros H. by_digit d H. Qed.

Lemma digit_char_not_minus d :
  is_dec d -> Ascii.eqb (digit_char d) "-"%char = false.
Proof. intros H. by_digit d H. Qed.

Lemma digit_char_not_plus d :
  is_dec d -> Ascii.eqb (digit_char d) "+"%char = false.
Proof. intros H. by_digit d H. Qed.

(** A number of four digits is printed as its four digits. *)
Lemma FormatInt_four_digits (y : Z) :
  1000 <= y <= 9999 ->
  exists d3 d2 d1 d0,
    is_dec d3 /\ is_dec d2 /\ is_dec d1 /\ is_dec d0
    /\ y = val4 d3 d2 d1 d0
    /\ strconv.FormatInt y = str4 d3 d2 d1 d0.
Proof.
  intros Hy.
  exists (y / 10 / 10 / 10), ((y / 10 / 10) mod 10), ((y / 10) mod 10),
    (y mod 10).
  unfold is_dec, val4.
  repeat split; try dlia.
  unfold strconv.FormatInt, strconv.FormatUint.
  replace (y <? 0) with false by lia.
  cbn [strconv.formatBits].
  assert (E0 : (y <? 10) = false) by (apply Z.ltb_ge; lia).
  assert (E1 : (y / 10 <? 10) = false) by (apply Z.ltb_ge; dlia).
  assert (E2 : (y / 10 / 10 <? 10) = false) by (apply Z.ltb_ge; dlia).
  assert (E3 : (y / 10 / 10 / 10 <? 10) = true) by (apply Z.ltb_lt; dlia).
  rewrite E0, E1, E2, E3. reflexivity.
Qed.

(** One turn of the digit loop, far from the overflow tests. *)
Lemma parse_digits_step (d n : Z) (rest : string) :
  is_dec d -> 0 <= n < 10 ^ 18 ->
  strconv.parse_digits (String (digit_char d) rest) n
  = strconv.parse_digits rest (n * 10 + d).
Proof.
  intros Hd Hn. cbn [strconv.parse_digits].
  rewrite is_digit_digit_char, digit_val_digit_char by assumption.
  unfold is_dec in Hd.
  change (Z.quot maxUint64 10 + 1) with 1844674407370955162.
  change maxUint64 with 18446744073709551615.
  change (10 ^ 18) with 1000000000000000000 in Hn.
  assert (E1 : (n >=? 1844674407370955162) = false)
    by (rewrite Z.geb_leb; apply Z.leb_gt; lia).
  assert (E2 : (n * 10 + d >? 18446744073709551615) = false)
    by (rewrite Z.gtb_ltb; apply Z.ltb_ge; lia).
  rewrite E1. cbv zeta. rewrite E2. reflexivity.
Qed.

(** [parse_int] on a string that starts with a digit reads it unsigned. *)
Lemma parse_int_unsigned (d : Z) (rest : string) (v : Z) :
  is_dec d -> 0 <= v < 2 ^ 63 ->
  strconv.parse_digits (String (digit_char d) rest) 0 = (v, None) ->
  strconv.parse_int (String (digit_char d) rest) = (v, None).
Proof.
  intros Hd Hv H. unfold strconv.parse_int, strconv.ParseUint.
  rewrite digit_char_not_minus, digit_char_not_plus by assumption.
  cbn [orb negb andb]. rewrite H.
  assert (E : (v >=? 2 ^ 63) = false)
    by (rewrite Z.geb_leb; apply Z.leb_gt; lia).
  rewrite E. reflexivity.
Qed.

Lemma Atoi_str4 (d3 d2 d1 d0 : Z) :
  is_dec d3 -> is_dec d2 -> is_dec d1 -> is_dec d0 ->
  strconv.Atoi (str4 d3 d2 d1 d0) = (val4 d3 d2 d1 d0, None).
Proof.
  intros H3 H2 H1 H0. unfold strconv.Atoi, str4.
  rewrite (parse_int_unsigned d3 _ (val4 d3 d2 d1 d0)); try assumption.
  - reflexivity.
  - unfold is_dec, val4 in *. lia.
  - unfold is_dec in *.
    rewrite !parse_digits_step by (unfold is_dec; lia).
    cbn [strconv.parse_digits]. f_equal. unfold val4. lia.
Qed.

Lemma Atoi_str4_str4 (a3 a2 a1 a0 b3 b2 b1 b0 : Z) :
  is_dec a3 -> is_dec a2 -> is_dec a1 -> is_dec a0 ->
  is_dec b3 -> is_dec b2 -> is_dec b1 -> is_dec b0 ->
  strconv.Atoi (str4 a3 a2 a1 a0 ++ str4 b3 b2 b1 b0)
  = (val4 a3 a2 a1 a0 * 10000 + val4 b3 b2 b1 b0, None).
Proof.
  intros A3 A2 A1 A0 B3 B2 B1 B0. unfold strconv.Atoi, str4.
  cbn [append].
  rewrite (parse_int_unsigned a3 _
             (val4 a3 a2 a1 a0 * 10000 + val4 b3 b2 b1 b0));
    try assumption.
  - reflexivity.
  - unfold is_dec, val4 in *. lia.
  - unfold is_dec in *.
    rewrite !parse_digits_step by (unfold is_dec; lia).
    cbn [strconv.parse_digits]. f_equal. unfold val4. lia.
Qed.

(** ** Seasons *)

Lemma str4_no_dash (a3 a2 a1 a0 b3 b2 b1 b0 : Z) :
  is_dec a3 -> is_dec a2 -> is_dec a1 -> is_dec a0 ->
  is_dec b3 -> is_dec b2 -> is_dec b1 -> is_dec b0 ->
  strings_Contains (str4 a3 a2 a1 a0 ++ str4 b3 b2 b1 b0) "-"%char = false.
Proof.
  intros. unfold str4. cbn [append strings_Contains].
  rewrite !digit_char_not_minus by assumption. reflexivity.
Qed.

Lemma str4_str4_slices (a3 a2 a1 a0 b3 b2 b1 b0 : Z) :
  len (str4 a3 a2 a1 a0 ++ str4 b3 b2 b1 b0) = 8
  /\ slice_to (str4 a3 a2 a1 a0 ++ str4 b3 b2 b1 b0) 4 = str4 a3 a2 a1 a0
  /\ slice_from (str4 a3 a2 a1 a0 ++ str4 b3 b2 b1 b0) 4 = str4 b3 b2 b1 b0.
Proof. repeat split. Qed.

Lemma FromYears_adjacent (y : Z) :
  in_int64 (y + 1) -> Season.FromYears y (y + 1) = Ok (Season.NewSeason y).
Proof.
  intros H. unfold Season.FromYears, int_add.
  rewrite wrap64_id by assumption. rewrite Z.eqb_refl. reflexivity.
Qed.

(** C2, as the code has it.  For a season whose start year and end year
    both have four digits, the integer form and the wire string both decode
    to the season they encode, and the wire string has eight bytes. *)
Theorem Season_round_trip (y : Z) :
  1000 <= y <= 9998 ->
  Season.SeasonFromInt (Season.ToInt (Season.NewSeason y))
  = Ok (Season.NewSeason y)
  /\ Season.Parse (Season.ToAPIString (Season.NewSeason y))
     = Ok (Season.NewSeason y)
  /\ Season.ToInt (Season.NewSeason y) = y * 10000 + (y + 1)
  /\ String.length (Season.ToAPIString (Season.NewSeason y)) = 8%nat.
Proof.
  intros Hy.
  assert (Hend : in_int64 (y + 1))
    by (unfold in_int64, minInt64, maxInt64; lia).
  destruct (FormatInt_four_digits y ltac:(lia))
    as (a3 & a2 & a1 & a0 & A3 & A2 & A1 & A0 & Ey & Fy).
  destruct (FormatInt_four_digits (y + 1) ltac:(lia))
    as (b3 & b2 & b1 & b0 & B3 & B2 & B1 & B0 & Ez & Fz).
  assert (Hs : Season.ToAPIString (Season.NewSeason y)
               = str4 a3 a2 a1 a0 ++ str4 b3 b2 b1 b0).
  { unfold Season.ToAPIString, Season.EndYear, Season.NewSeason, int_add.
    cbn [Season.startYear]. rewrite wrap64_id by assumption.
    rewrite Fy, Fz. reflexivity. }
  assert (Hi : Season.ToInt (Season.NewSeason y) = y * 10000 + (y + 1)).
  { unfold Season.ToInt. rewrite Hs, Atoi_str4_str4 by assumption.
    cbn [fst]. rewrite <- Ey, <- Ez. reflexivity. }
  repeat split.
  - rewrite Hi. unfold Season.SeasonFromInt.
    assert (E : (y * 10000 + (y + 1) <? 10000000)
                || (y * 10000 + (y + 1) >? 99999999) = false) by lia.
    rewrite E. cbv zeta.
    rewrite int_div_nonneg, int_mod_nonneg by lia.
    replace ((y * 10000 + (y + 1)) / 10000) with y by dlia.
    replace ((y * 10000 + (y + 1)) mod 10000) with (y + 1) by dlia.
    apply FromYears_adjacent, Hend.
  - rewrite Hs. unfold Season.Parse.
    rewrite str4_no_dash by assumption.
    destruct (str4_str4_slices a3 a2 a1 a0 b3 b2 b1 b0) as (El & Et & Ef).
    rewrite El, Et, Ef. simpl Z.eqb. cbv iota.
    rewrite !Atoi_str4 by assumption.
    rewrite <- Ey, <- Ez. apply FromYears_adjacent, Hend.
  - exact Hi.
  - rewrite Hs. reflexivity.
Qed.

(** The round trip of the season 2023-2024. *)
Lemma Season_round_trip_witness :
  Season.SeasonFromInt (Season.ToInt (Season.NewSeason 2023))
  = Ok (Season.NewSeason 2023)
  /\ Season.Parse (Season.ToAPIString (Season.NewSeason 2023))
     = Ok (Season.NewSeason 2023)
  /\ Season.ToInt (Season.NewSeason 2023) = 2023 * 10000 + (2023 + 1)
  /\ String.length (Season.ToAPIString (Season.NewSeason 2023)) = 8%nat.
Proof. apply (Season_round_trip 2023). lia. Defined.

(** C2, counterexample.  [NewSeason] takes the start years 999 and 9999,
    whose wire strings have seven and nine bytes; neither decoding gives the
    season back. *)
Lemma Season_round_trip_fails_outside_four_digits :
  Season.ToAPIString (Season.NewSeason 9999) = "999910000"
  /\ Season.ToInt (Season.NewSeason 9999) = 999910000
  /\ Season.SeasonFromInt (Season.ToInt (Season.NewSeason 9999))
     = Err (Errorf "invalid season integer: %d" [ArgInt 999910000])
  /\ Season.Parse (Season.ToAPIString (Season.NewSeason 9999))
     = Err (Errorf "invalid season format: %s" [ArgString "999910000"])
  /\ Season.ToAPIString (Season.NewSeason 999) = "9991000"
  /\ Season.SeasonFromInt (Season.ToInt (Season.NewSeason 999))
     = Err (Errorf "invalid season integer: %d" [ArgInt 9991000])
  /\ Season.Parse (Season.ToAPIString (Season.NewSeason 999))
     = Err (Errorf "invalid season format: %s" [ArgString "9991000"]).
Proof. repeat split; reflexivity. Qed.

(** ** Binary64 arithmetic

    The facts about rounding that the rate methods rest on, derived from the
    specification of the primitive floats: rounding a nonnegative mantissa
    never gives NaN, and converting a positive [int] gives a finite nonzero
    number. *)

Lemma shr_m_of_loc (m : Z) (l : location) : shr_m (shr_record_of_loc m l) = m.
Proof. destruct l as [| []]; reflexivity. Qed.

Lemma shr_1_m (mrs : shr_record) :
  0 <= shr_m mrs -> shr_m (shr_1 mrs) = shr_m mrs / 2.
Proof.
  destruct mrs as [m r s]. cbn [shr_m]. intros Hm.
  destruct m as [| [p | p |] | p]; cbn [shr_1 shr_m]; try lia;
    try reflexivity.
  - rewrite Pos2Z.inj_xI. dlia.
  - rewrite Pos2Z.inj_xO. dlia.
Qed.

Lemma iter_shr_1_m (p : positive) :
  forall mrs : shr_record,
    0 <= shr_m mrs ->
    shr_m (iter_pos shr_1 p mrs) = shr_m mrs / 2 ^ Zpos p.
Proof.
  induction p as [p IH | p IH |]; intros mrs Hm; cbn [iter_pos].
  - assert (H1 : 0 <= shr_m (shr_1 mrs)) by (rewrite shr_1_m by lia; dlia).
    assert (H2 : 0 <= shr_m (iter_pos shr_1 p (shr_1 mrs))).
    { rewrite IH by lia. apply Z.div_pos; lia. }
    rewrite IH, IH, shr_1_m by assumption.
    pose proof (Z.pow_pos_nonneg 2 (Zpos p) ltac:(lia) ltac:(lia)).
    rewrite !Z.div_div by lia. f_equal.
    replace (Zpos p~1) with (1 + Zpos p + Zpos p) by lia.
    rewrite !Z.pow_add_r by lia. change (2 ^ 1) with 2. ring.
  - assert (H2 : 0 <= shr_m (iter_pos shr_1 p mrs)).
    { rewrite IH by lia. apply Z.div_pos; lia. }
    rewrite IH, IH by assumption.
    pose proof (Z.pow_pos_nonneg 2 (Zpos p) ltac:(lia) ltac:(lia)).
    rewrite !Z.div_div by lia. f_equal.
    replace (Zpos p~0) with (Zpos p + Zpos p) by lia.
    rewrite Z.pow_add_r by lia. reflexivity.
  - rewrite shr_1_m by assumption. reflexivity.
Qed.

Lemma shr_spec (mrs : shr_record) (e n : Z) :
  0 <= shr_m mrs ->
  shr_m (fst (shr mrs e n)) = shr_m mrs / 2 ^ Z.max 0 n
  /\ snd (shr mrs e n) = e + Z.max 0 n.
Proof.
  intros Hm. destruct n as [| p | p]; cbn [shr fst snd].
  - change (Z.max 0 0) with 0. rewrite Z.div_1_r. lia.
  - replace (Z.max 0 (Zpos p)) with (Zpos p) by lia.
    split; [apply iter_shr_1_m, Hm | reflexivity].
  - replace (Z.max 0 (Zneg p)) with 0 by lia. rewrite Z.div_1_r. lia.
Qed.

Lemma digits2_pos_bounds (p : positive) :
  2 ^ (Zpos (digits2_pos p) - 1) <= Zpos p < 2 ^ Zpos (digits2_pos p).
Proof.
  induction p as [p IH | p IH |]; cbn [digits2_pos].
  - rewrite Pos2Z.inj_succ.
    assert (E : Zpos p~1 = 2 * Zpos p + 1) by lia. rewrite E.
    replace (Z.succ (Zpos (digits2_pos p)) - 1)
      with (Zpos (digits2_pos p)) by lia.
    rewrite Z.pow_succ_r by lia.
    replace (2 ^ Zpos (digits2_pos p))
      with (2 * 2 ^ (Zpos (digits2_pos p) - 1)) in *
      by (rewrite <- Z.pow_succ_r by lia; f_equal; lia).
    lia.
  - rewrite Pos2Z.inj_succ.
    assert (E : Zpos p~0 = 2 * Zpos p) by lia. rewrite E.
    replace (Z.succ (Zpos (digits2_pos p)) - 1)
      with (Zpos (digits2_pos p)) by lia.
    rewrite Z.pow_succ_r by lia.
    replace (2 ^ Zpos (digits2_pos p))
      with (2 * 2 ^ (Zpos (digits2_pos p) - 1)) in *
      by (rewrite <- Z.pow_succ_r by lia; f_equal; lia).
    lia.
  - cbn. lia.
Qed.

Lemma Zdigits2_bounds (m : Z) :
  0 < m -> 1 <= Zdigits2 m /\ 2 ^ (Zdigits2 m - 1) <= m < 2 ^ Zdigits2 m.
Proof.
  destruct m as [| p | p]; try lia. intros _. cbn [Zdigits2].
  split; [lia | apply digits2_pos_bounds].
Qed.

Lemma Zdigits2_le (m k : Z) : 0 < m -> m < 2 ^ k -> 0 <= k -> Zdigits2 m <= k.
Proof.
  intros Hm Hk H0. destruct (Zdigits2_bounds m Hm) as (H1 & H2 & _).
  assert (2 ^ (Zdigits2 m - 1) < 2 ^ k) by lia.
  apply Z.pow_lt_mono_r_iff in H; lia.
Qed.

(** The first shift of a rounding, for a mantissa and an exponent in the range
    the integer conversions produce: the mantissa stays positive and the
    exponent moves by at most twelve. *)
Lemma shr_fexp_spec (m e : Z) (l : location) :
  0 < m < 2 ^ 65 -> -52 <= e <= 30 ->
  let r := shr_fexp prec emax m e l in
  1 <= shr_m (fst r) <= m /\ e <= snd r <= e + 12
  /\ (Zdigits2 m <= 53 -> shr_m (fst r) = m /\ snd r = e).
Proof.
  intros Hm He r. subst r. unfold shr_fexp.
  destruct (Zdigits2_bounds m ltac:(lia)) as (D1 & D2 & D3).
  pose proof (Zdigits2_le m 65 ltac:(lia) ltac:(lia) ltac:(lia)) as D4.
  assert (Hf : fexp prec emax (Zdigits2 m + e) - e = Zdigits2 m - 53).
  { unfold fexp, emin, prec, emax. lia. }
  rewrite Hf.
  destruct (shr_spec (shr_record_of_loc m l) e (Zdigits2 m - 53)) as (E1 & E2).
  { rewrite shr_m_of_loc. lia. }
  rewrite shr_m_of_loc in E1. rewrite E1, E2.
  assert (P : 0 < 2 ^ Z.max 0 (Zdigits2 m - 53)) by (apply Z.pow_pos_nonneg; lia).
  assert (Q : 2 ^ Z.max 0 (Zdigits2 m - 53) <= m).
  { apply Z.le_trans with (2 ^ (Zdigits2 m - 1)); [ | lia].
    apply Z.pow_le_mono_r; lia. }
  assert (L : 1 <= m / 2 ^ Z.max 0 (Zdigits2 m - 53))
    by (apply Z.div_le_lower_bound; lia).
  assert (U : m / 2 ^ Z.max 0 (Zdigits2 m - 53) <= m)
    by (apply Z.div_le_upper_bound; nia).
  repeat split; try lia.
  replace (Z.max 0 (Zdigits2 m - 53)) with 0 by lia.
  apply Z.div_1_r.
Qed.

Lemma round_nearest_even_bounds (m : Z) (l : location) :
  m <= round_nearest_even m l <= m + 1.
Proof.
  destruct l as [| []]; cbn [round_nearest_even]; try lia.
  destruct (Z.even m); lia.
Qed.

Lemma binary_round_aux_finite (s : bool) (m e : Z) (l : location) :
  0 < m < 2 ^ 64 -> -52 <= e <= 0 ->
  exists m' e', binary_round_aux prec emax s m e l = S754_finite s m' e'.
Proof.
  intros Hm He. unfold binary_round_aux.
  pose proof (shr_fexp_spec m e l ltac:(lia) ltac:(lia)) as H1.
  cbv zeta in H1. destruct (shr_fexp prec emax m e l) as [mrs1 e1].
  cbn [fst snd] in H1. destruct H1 as (M1 & E1 & _).
  pose proof (round_nearest_even_bounds (shr_m mrs1) (loc_of_shr_record mrs1))
    as R.
  set (m2 := round_nearest_even (shr_m mrs1) (loc_of_shr_record mrs1)) in *.
  pose proof (shr_fexp_spec m2 e1 loc_Exact ltac:(lia) ltac:(lia)) as H2.
  cbv zeta in H2. destruct (shr_fexp prec emax m2 e1 loc_Exact) as [mrs2 e2].
  cbn [fst snd] in H2. destruct H2 as (M2 & E2 & _).
  destruct (shr_m mrs2) as [| q | q]; try lia.
  assert (E : (e2 <=? emax - prec) = true)
    by (apply Z.leb_le; unfold emax, prec; lia).
  rewrite E. eauto.
Qed.

(** No rounding of a nonnegative mantissa is NaN. *)
Lemma shr_fexp_nonneg (m e : Z) (l : location) :
  0 <= m -> 0 <= shr_m (fst (shr_fexp prec emax m e l)).
Proof.
  intros Hm. unfold shr_fexp.
  destruct (shr_spec (shr_record_of_loc m l) e
              (fexp prec emax (Zdigits2 m + e) - e)) as (E & _).
  { rewrite shr_m_of_loc. exact Hm. }
  rewrite E, shr_m_of_loc. apply Z.div_pos; [exact Hm | ].
  apply Z.pow_pos_nonneg; lia.
Qed.

Lemma binary_round_aux_not_nan (s : bool) (m e : Z) (l : location) :
  0 <= m -> binary_round_aux prec emax s m e l <> S754_nan.
Proof.
  intros Hm. unfold binary_round_aux.
  pose proof (shr_fexp_nonneg m e l Hm) as H1.
  destruct (shr_fexp prec emax m e l) as [mrs1 e1]. cbn [fst] in H1.
  pose proof (round_nearest_even_bounds (shr_m mrs1) (loc_of_shr_record mrs1))
    as R.
  set (m2 := round_nearest_even (shr_m mrs1) (loc_of_shr_record mrs1)) in *.
  pose proof (shr_fexp_nonneg m2 e1 loc_Exact ltac:(lia)) as H2.
  destruct (shr_fexp prec emax m2 e1 loc_Exact) as [mrs2 e2]. cbn [fst] in H2.
  destruct (shr_m mrs2) as [| q | q]; try lia; try discriminate.
  destruct (e2 <=? emax - prec); discriminate.
Qed.

Lemma iter_xO_mul (p k : positive) :
  Zpos (Pos.iter xO p k) = Zpos p * 2 ^ Zpos k.
Proof.
  rewrite (Pos.iter_swap_gen _ _ Zpos xO (Z.mul 2)) by reflexivity.
  change (Pos.iter (Z.mul 2) (Zpos p) k) with (Z.shiftl (Zpos p) (Zpos k)).
  apply Z.shiftl_mul_pow2. lia.
Qed.

Lemma binary_normalize_not_nan (z : Z) :
  binary_normalize prec emax z 0 false <> S754_nan.
Proof.
  destruct z as [| p | p]; cbn [binary_normalize]; try discriminate;
    unfold binary_round;
    destruct (shl_align p 0 (fexp prec emax (Zpos (digits2_pos p) + 0)))
      as [mz ez];
    apply binary_round_aux_not_nan; lia.
Qed.

Lemma binary_normalize_pos_finite (z : Z) :
  0 < z < 2 ^ 63 ->
  exists m e, binary_normalize prec emax z 0 false = S754_finite false m e.
Proof.
  intros Hz. destruct z as [| p | p]; try lia.
  cbn [binary_normalize]. unfold binary_round.
  pose proof (digits2_pos_bounds p) as D.
  assert (D63 : Zpos (digits2_pos p) <= 63)
    by (apply (Zdigits2_le (Zpos p) 63); lia).
  assert (Hf : fexp prec emax (Zpos (digits2_pos p) + 0)
               = Zpos (digits2_pos p) - 53)
    by (unfold fexp, emin, prec, emax; lia).
  rewrite Hf. unfold shl_align.
  destruct (Zpos (digits2_pos p) - 53 - 0) as [| k | k] eqn:Ek.
  - apply binary_round_aux_finite; lia.
  - apply binary_round_aux_finite; lia.
  - apply binary_round_aux_finite; [ | lia].
    rewrite iter_xO_mul. split; [lia | ].
    assert (Ed : Zpos (digits2_pos p) = 53 - Zpos k) by lia.
    rewrite Ed in D.
    apply Z.lt_trans with (2 ^ (53 - Zpos k) * 2 ^ Zpos k).
    + apply Z.mul_lt_mono_pos_r; [apply Z.pow_pos_nonneg; lia | lia].
    + rewrite <- Z.pow_add_r by lia.
      replace (53 - Zpos k + Zpos k) with 53 by lia. reflexivity.
Qed.

Lemma SFopp_not_nan (x : spec_float) : x <> S754_nan -> SFopp x <> S754_nan.
Proof. destruct x; intros H; try discriminate. contradiction. Qed.

Lemma float64_of_int_not_nan (i : Z) :
  Prim2SF (float64_of_int i) <> S754_nan.
Proof.
  unfold float64_of_int.
  destruct (i <? 0); [destruct (i =? minInt64) | ].
  - vm_compute. discriminate.
  - rewrite FloatAxioms.opp_spec, FloatAxioms.of_uint63_spec.
    apply SFopp_not_nan, binary_normalize_not_nan.
  - rewrite FloatAxioms.of_uint63_spec. apply binary_normalize_not_nan.
Qed.

Lemma float64_of_int_pos_finite (i : Z) :
  0 < i <= maxInt64 ->
  exists m e, Prim2SF (float64_of_int i) = S754_finite false m e.
Proof.
  unfold maxInt64. intros Hi. unfold float64_of_int.
  assert (E : (i <? 0) = false) by lia. rewrite E.
  rewrite FloatAxioms.of_uint63_spec, Uint63.of_Z_spec.
  change wB with (2 ^ 63). rewrite Z.mod_small by lia.
  apply binary_normalize_pos_finite. lia.
Qed.

Lemma SF64div_not_nan (x : spec_float) (m : positive) (e : Z) :
  x <> S754_nan -> SF64div x (S754_finite false m e) <> S754_nan.
Proof.
  intros Hx. destruct x as [sx | sx | | sx mx ex]; try discriminate;
    [contradiction | ].
  unfold SF64div, SFdiv, SFdiv_core_binary.
  set (s := ex - e - Z.min (fexp prec emax
                (Zdigits2 (Zpos mx) + ex - (Zdigits2 (Zpos m) + e))) (ex - e)).
  set (m' := match s with
             | Zpos _ => Z.shiftl (Zpos mx) s
             | Z0 => Zpos mx
             | Zneg _ => Z0
             end).
  assert (Hm' : 0 <= m').
  { subst m'. destruct s; try lia. apply Z.shiftl_nonneg. lia. }
  pose proof (Z.div_pos m' (Zpos m) Hm' ltac:(lia)) as Hq.
  unfold Z.div in Hq. destruct (Z.div_eucl m' (Zpos m)) as [q r].
  apply binary_round_aux_not_nan, Hq.
Qed.

Lemma SF64mul_not_nan (x : spec_float) (m : positive) (e : Z) :
  x <> S754_nan -> SF64mul x (S754_finite false m e) <> S754_nan.
Proof.
  intros Hx. destruct x as [sx | sx | | sx mx ex]; try discriminate;
    [contradiction | ].
  unfold SF64mul, SFmul. apply binary_round_aux_not_nan. lia.
Qed.

Lemma SFcompare_refl (x : spec_float) :
  x <> S754_nan -> SFcompare x x = Some Eq.
Proof.
  destruct x as [s | s | | s m e]; intros H; try contradiction;
    cbn [SFcompare]; try (destruct s; reflexivity).
  rewrite Z.compare_refl, Pos.compare_cont_refl. destruct s; reflexivity.
Qed.

Lemma is_nan_false (f : float) :
  Prim2SF f <> S754_nan -> PrimFloat.is_nan f = false.
Proof.
  intros H. unfold PrimFloat.is_nan. rewrite FloatAxioms.eqb_spec. unfold SFeqb.
  rewrite SFcompare_refl by assumption. reflexivity.
Qed.

Lemma ratio_times_100_not_nan (num den : Z) :
  0 < den <= maxInt64 ->
  PrimFloat.is_nan
    (float64_of_int num / float64_of_int den * 100)%float = false.
Proof.
  intros Hden. apply is_nan_false.
  destruct (float64_of_int_pos_finite den Hden) as (m & e & Ed).
  rewrite FloatAxioms.mul_spec, FloatAxioms.div_spec, Ed.
  change (Prim2SF 100) with (S754_finite false 7036874417766400 (-46)).
  apply SF64mul_not_nan, SF64div_not_nan, float64_of_int_not_nan.
Qed.

(** The conversion of a positive [int] is not a zero. *)
Lemma float64_of_int_pos_nonzero (i : Z) :
  0 < i <= maxInt64 -> (float64_of_int i =? 0)%float = false.
Proof.
  intros Hi. destruct (float64_of_int_pos_finite i Hi) as (m & e & E).
  rewrite FloatAxioms.eqb_spec, E. reflexivity.
Qed.

(** ** Rate methods *)

(** C8.  On team statistics whose fields are Go ints: each rate method
    returns exactly 0.0 when its denominator is zero (and whenever it is not
    positive, so that no quotient is formed then); when the denominator is
    positive the divisor handed to the float division is not a zero; and the
    value returned is never NaN. *)
Theorem rate_methods_zero_denominator (t : TeamGameStats.t) :
  TeamGameStats.well_formed t ->
  (TeamGameStats.FaceoffTotal t = 0 ->
   TeamGameStats.FaceoffPercentage t = 0%float)
  /\ (TeamGameStats.PowerPlayOpportunities t = 0 ->
      TeamGameStats.PowerPlayPercentage t = 0%float)
  /\ (TeamGameStats.FaceoffTotal t <= 0 ->
      TeamGameStats.FaceoffPercentage t = 0%float)
  /\ (TeamGameStats.PowerPlayOpportunities t <= 0 ->
      TeamGameStats.PowerPlayPercentage t = 0%float)
  /\ (0 < TeamGameStats.FaceoffTotal t ->
      (float64_of_int (TeamGameStats.FaceoffTotal t) =? 0)%float = false)
  /\ (0 < TeamGameStats.PowerPlayOpportunities t ->
      (float64_of_int (TeamGameStats.PowerPlayOpportunities t) =? 0)%float
      = false)
  /\ PrimFloat.is_nan (TeamGameStats.FaceoffPercentage t) = false
  /\ PrimFloat.is_nan (TeamGameStats.PowerPlayPercentage t) = false.
Proof.
  intros (_ & _ & Hft & _ & Hpp & _).
  unfold in_int64 in Hft, Hpp.
  unfold TeamGameStats.FaceoffPercentage, TeamGameStats.PowerPlayPercentage.
  repeat split.
  - intros ->. reflexivity.
  - intros ->. reflexivity.
  - intros H. destruct (Z.gtb_spec (TeamGameStats.FaceoffTotal t) 0);
      [lia | reflexivity].
  - intros H. destruct (Z.gtb_spec (TeamGameStats.PowerPlayOpportunities t) 0);
      [lia | reflexivity].
  - intros H. apply float64_of_int_pos_nonzero. lia.
  - intros H. apply float64_of_int_pos_nonzero. lia.
  - destruct (Z.gtb_spec (TeamGameStats.FaceoffTotal t) 0);
      [apply ratio_times_100_not_nan; lia | reflexivity].
  - destruct (Z.gtb_spec (TeamGameStats.PowerPlayOpportunities t) 0);
      [apply ratio_times_100_not_nan; lia | reflexivity].
Qed.

(** Team statistics without faceoffs or power plays, and with some. *)
Lemma rate_methods_zero_denominator_witness :
  TeamGameStats.FaceoffPercentage (TeamGameStats.mk 30 0 0 1 0 4 11 9 5 6)
  = 0%float
  /\ TeamGameStats.PowerPlayPercentage (TeamGameStats.mk 30 0 0 1 0 4 11 9 5 6)
     = 0%float
  /\ PrimFloat.is_nan
       (TeamGameStats.FaceoffPercentage
          (TeamGameStats.mk 30 15 27 1 4 4 11 9 5 6)) = false.
Proof.
  split; [ | split].
  - apply (rate_methods_zero_denominator
             (TeamGameStats.mk 30 0 0 1 0 4 11 9 5 6)).
    + unfold TeamGameStats.well_formed, in_int64, minInt64, maxInt64.
      cbn. lia.
    + reflexivity.
  - apply (rate_methods_zero_denominator
             (TeamGameStats.mk 30 0 0 1 0 4 11 9 5 6)).
    + unfold TeamGameStats.well_formed, in_int64, minInt64, maxInt64.
      cbn. lia.
    + reflexivity.
  - apply (rate_methods_zero_denominator
             (TeamGameStats.mk 30 15 27 1 4 4 11 9 5 6)).
    unfold TeamGameStats.well_formed, in_int64, minInt64, maxInt64.
    cbn. lia.
Defined.

(** ** The aggregator *)

Lemma wrap64_idem (z : Z) : wrap64 (wrap64 z) = wrap64 z.
Proof. apply wrap64_id, wrap64_range. Qed.

Lemma sumZ_cons (x : Z) (l : list Z) : sumZ (x :: l) = x + sumZ l.
Proof. reflexivity. Qed.

Lemma sumZ_filter {A : Type} (keep : A -> bool) (val : A -> Z) (l : list A) :
  sumZ (map val (filter keep l))
  = sumZ (map (fun x => if keep x then val x else 0) l).
Proof.
  induction l as [| x l IH]; [reflexivity | ].
  cbn [filter map]. destruct (keep x); cbn [map];
    rewrite !sumZ_cons, IH; reflexivity.
Qed.

(** A loop that adds, in Go arithmetic, a value read from each item to one
    field of its state leaves in that field the sum of the values, reduced
    to 64 bits. *)
Section FoldField.

Context {S I : Type}.
Variable step : S -> I -> S.
Variable get : S -> Z.

Section Adds.
Variable val : I -> Z.
Hypothesis step_adds :
  forall s x, wrap64 (get s) = get s ->
              get (step s x) = wrap64 (get s + val x).

Lemma fold_left_adds (l : list I) :
  forall s, wrap64 (get s) = get s ->
            get (fold_left step l s) = wrap64 (get s + sumZ (map val l)).
Proof.
  induction l as [| x l IH]; intros s Hs; cbn [fold_left map].
  - cbn. rewrite Z.add_0_r. symmetry. exact Hs.
  - rewrite IH.
    + rewrite step_adds by exact Hs. rewrite wrap64_add_l.
      f_equal. rewrite sumZ_cons. lia.
    + rewrite step_adds by exact Hs. apply wrap64_idem.
Qed.
End Adds.

Section Keeps.
Hypothesis step_keeps : forall s x, get (step s x) = get s.

Lemma fold_left_keeps (l : list I) :
  forall s, get (fold_left step l s) = get s.
Proof.
  induction l as [| x l IH]; intros s; cbn [fold_left];
    [reflexivity | rewrite IH; apply step_keeps].
Qed.
End Keeps.

End FoldField.

(** What one turn of the skater loop does to each field. *)
Ltac skater_field :=
  intros s x Hs; unfold Boxscore.skaterStep, Boxscore.addFaceoffStats;
  destruct (Boxscore.countsForFaceoffs x); cbn; unfold int_add;
  try reflexivity; rewrite Z.add_0_r; symmetry; exact Hs.

Lemma skaterStep_PowerPlayOpportunities s x :
  TeamGameStats.PowerPlayOpportunities (Boxscore.skaterStep s x)
  = TeamGameStats.PowerPlayOpportunities s.
Proof.
  unfold Boxscore.skaterStep, Boxscore.addFaceoffStats.
  destruct (Boxscore.countsForFaceoffs x); reflexivity.
Qed.

Lemma skaterStep_FaceoffTotal s x :
  wrap64 (TeamGameStats.FaceoffTotal s) = TeamGameStats.FaceoffTotal s ->
  TeamGameStats.FaceoffTotal (Boxscore.skaterStep s x)
  = wrap64 (TeamGameStats.FaceoffTotal s
            + (if Boxscore.countsForFaceoffs x
               then SkaterStats.Shifts x else 0)).
Proof. revert s x. skater_field. Qed.



(** The value of a field after both loops, for a field the goalie loop
    leaves alone and the skater loop adds to. *)
Lemma skater_only_field (get : TeamGameStats.t -> Z)
  (val : SkaterStats.t -> Z) (stats : TeamPlayerStats.t) :
  get TeamGameStats.zero = 0 ->
  (forall s g, get (Boxscore.goalieStep s g) = get s) ->
  (forall s x, wrap64 (get s) = get s ->
               get (Boxscore.skaterStep s x) = wrap64 (get s + val x)) ->
  get (Boxscore.FromTeamPlayerStats stats)
  = wrap64 (sumZ (map val (Boxscore.allSkaters stats))).
Proof.
  intros H0 Hg Hs.
  unfold Boxscore.FromTeamPlayerStats, Boxscore.aggregateGoalieStats,
    Boxscore.aggregateSkaterStats.
  rewrite (fold_left_keeps Boxscore.goalieStep get Hg).
  rewrite (fold_left_adds Boxscore.skaterStep get val Hs)
    by (rewrite H0; reflexivity).
  rewrite H0. reflexivity.
Qed.



(** ** Decimal printing and parsing, in general *)

Lemma digit_char_mod (u : Z) : is_dec (u mod 10).
Proof. unfold is_dec. pose proof (Z.mod_pos_bound u 10 ltac:(lia)). lia. Qed.

(** One turn of the digit loop, up to the overflow tests. *)
Lemma parse_digits_turn (d n : Z) (rest : string) :
  is_dec d -> 0 <= n -> n * 10 + d <= maxUint64 ->
  strconv.parse_digits (String (digit_char d) rest) n
  = strconv.parse_digits rest (n * 10 + d).
Proof.
  intros Hd Hn Hmax. cbn [strconv.parse_digits].
  rewrite is_digit_digit_char, digit_val_digit_char by assumption.
  unfold is_dec in Hd. revert Hmax.
  change (Z.quot maxUint64 10 + 1) with 1844674407370955162.
  change maxUint64 with 18446744073709551615. intros Hmax.
  assert (E1 : (n >=? 1844674407370955162) = false)
    by (rewrite Z.geb_leb; apply Z.leb_gt; lia).
  assert (E2 : (n * 10 + d >? 18446744073709551615) = false)
    by (rewrite Z.gtb_ltb; apply Z.ltb_ge; lia).
  rewrite E1. cbv zeta. rewrite E2. reflexivity.
Qed.

(** Reading what [formatBits] wrote gives the number back, whatever
    follows. *)
Lemma parse_formatBits (fuel : nat) :
  forall u acc,
    0 <= u <= maxUint64 -> u < 10 ^ Z.of_nat fuel ->
    strconv.parse_digits (strconv.formatBits fuel u acc) 0
    = strconv.parse_digits acc u.
Proof.
  induction fuel as [| fuel IH]; intros u acc Hu Hf.
  - change (10 ^ Z.of_nat 0) with 1 in Hf.
    assert (u = 0) by lia. subst u. reflexivity.
  - cbn [strconv.formatBits].
    destruct (Z.ltb_spec u 10) as [Hlt | Hge].
    + rewrite parse_digits_turn; unfold is_dec, maxUint64 in *; try lia.
      reflexivity.
    + rewrite Nat2Z.inj_succ, Z.pow_succ_r in Hf by lia.
      rewrite IH.
      * rewrite parse_digits_turn.
        -- f_equal. dlia.
        -- apply digit_char_mod.
        -- dlia.
        -- unfold maxUint64 in *. dlia.
      * unfold maxUint64 in *. dlia.
      * dlia.
Qed.

(** What [formatBits] writes starts with a digit. *)
Lemma formatBits_head (fuel : nat) :
  forall u acc,
    0 <= u -> (0 < fuel)%nat ->
    exists d rest,
      is_dec d /\ strconv.formatBits fuel u acc = String (digit_char d) rest.
Proof.
  induction fuel as [| fuel IH]; intros u acc Hu Hf; [lia | ].
  cbn [strconv.formatBits].
  destruct (Z.ltb_spec u 10) as [Hlt | Hge].
  - exists u, acc. split; [unfold is_dec; lia | reflexivity].
  - destruct fuel as [| fuel'].
    + exists (u mod 10), acc. split; [apply digit_char_mod | reflexivity].
    + apply IH; [dlia | lia].
Qed.

(** Every byte that [formatBits] writes is a decimal digit. *)
Lemma formatBits_all_digits (fuel : nat) :
  forall u acc,
    0 <= u -> all_digits acc = true ->
    all_digits (strconv.formatBits fuel u acc) = true.
Proof.
  induction fuel as [| fuel IH]; intros u acc Hu Ha; [exact Ha | ].
  cbn [strconv.formatBits].
  destruct (Z.ltb_spec u 10) as [Hlt | Hge].
  - cbn [all_digits]. rewrite is_digit_digit_char by (unfold is_dec; lia).
    exact Ha.
  - apply IH; [dlia | ].
    cbn [all_digits]. rewrite is_digit_digit_char by apply digit_char_mod.
    exact Ha.
Qed.

Lemma FormatUint_parse (u : Z) :
  0 <= u <= maxUint64 -> strconv.parse_digits (strconv.FormatUint u) 0 = (u, None).
Proof.
  intros Hu. unfold strconv.FormatUint. rewrite parse_formatBits;
    [reflexivity | exact Hu | unfold maxUint64 in Hu; simpl; lia].
Qed.

(** [ParseInt] reads back what [FormatInt] wrote, for every int64. *)
Lemma parse_int_FormatInt (i : Z) :
  in_int64 i -> strconv.parse_int (strconv.FormatInt i) = (i, None).
Proof.
  unfold in_int64, minInt64, maxInt64. intros Hi.
  unfold strconv.FormatInt.
  destruct (Z.ltb_spec i 0) as [Hneg | Hpos].
  - unfold strconv.parse_int.
    change (Ascii.eqb "-" "-") with true.
    change (Ascii.eqb "-" "+") with false. cbn [orb negb andb].
    destruct (formatBits_head 20 (- i) EmptyString ltac:(lia) ltac:(lia))
      as (d & rest & Hd & E).
    unfold strconv.ParseUint. fold (strconv.FormatUint (- i)) in E.
    rewrite E. rewrite <- E.
    rewrite FormatUint_parse by (unfold maxUint64; lia).
    assert (G : (- i >? 2 ^ 63) = false)
      by (rewrite Z.gtb_ltb; apply Z.ltb_ge; lia).
    rewrite G. f_equal. lia.
  - destruct (formatBits_head 20 i EmptyString ltac:(lia) ltac:(lia))
      as (d & rest & Hd & E).
    fold (strconv.FormatUint i) in E.
    pose proof (FormatUint_parse i ltac:(unfold maxUint64; lia)) as P.
    rewrite E in *.
    apply parse_int_unsigned; [exact Hd | lia | exact P].
Qed.

Lemma FormatInt_nonneg_all_digits (i : Z) :
  0 <= i -> all_digits (strconv.FormatInt i) = true.
Proof.
  intros Hi. unfold strconv.FormatInt.
  assert (E : (i <? 0) = false) by lia. rewrite E.
  apply formatBits_all_digits; [exact Hi | reflexivity].
Qed.

Lemma ParseInt_FormatInt (i : Z) :
  in_int64 i -> strconv.ParseInt (strconv.FormatInt i) = (i, None).
Proof.
  intros Hi. unfold strconv.ParseInt. rewrite parse_int_FormatInt by exact Hi.
  reflexivity.
Qed.

Lemma Atoi_FormatInt (i : Z) :
  in_int64 i -> strconv.Atoi (strconv.FormatInt i) = (i, None).
Proof.
  intros Hi. unfold strconv.Atoi. rewrite parse_int_FormatInt by exact Hi.
  reflexivity.
Qed.

(** ** Identifiers *)

(** X1.  Numeric identifiers print and read back.  For every int64 [g],
    the decimal text that [String] gives is read back to [g] by
    [GameIDFromString], [TeamIDFromString] and [PlayerIDFromString], and by
    the three [UnmarshalJSON] when it comes as a JSON string; [MarshalJSON]
    writes the JSON integer [g], which [UnmarshalJSON] reads back to [g]. *)
Theorem GameID_text_round_trip (g : Z) :
  in_int64 g ->
  GameID.GameIDFromString (GameID.String_ g) = Ok g
  /\ GameID.UnmarshalJSON (JString (GameID.String_ g)) = Ok g
  /\ GameID.MarshalJSON g = Ok (JInt g)
  /\ GameID.UnmarshalJSON (JInt g) = Ok g
  /\ TeamID.TeamIDFromString (TeamID.String_ g) = Ok g
  /\ TeamID.UnmarshalJSON (JString (TeamID.String_ g)) = Ok g
  /\ TeamID.UnmarshalJSON (JInt g) = Ok g
  /\ PlayerID.PlayerIDFromString (PlayerID.String_ g) = Ok g
  /\ PlayerID.UnmarshalJSON (JString (PlayerID.String_ g)) = Ok g
  /\ PlayerID.UnmarshalJSON (JInt g) = Ok g.
Proof.
  intros Hg. unfold GameID.GameIDFromString, GameID.UnmarshalJSON,
    GameID.String_, GameID.MarshalJSON, TeamID.TeamIDFromString,
    TeamID.UnmarshalJSON, TeamID.String_, PlayerID.PlayerIDFromString,
    PlayerID.UnmarshalJSON, PlayerID.String_, parseNumericID,
    unmarshalNumericID.
  cbn [Json.Unmarshal_int64 Json.Unmarshal_string Json.Marshal_int].
  rewrite ParseInt_FormatInt by exact Hg.
  apply in_int64b_spec in Hg. rewrite Hg. repeat split.
Qed.

Lemma GameID_text_round_trip_witness :
  GameID.GameIDFromString (GameID.String_ (- 2023020001))
  = Ok (- 2023020001)
  /\ GameID.UnmarshalJSON (JInt (- 2023020001)) = Ok (- 2023020001)
  /\ TeamID.TeamIDFromString (TeamID.String_ (- 2023020001))
     = Ok (- 2023020001).
Proof.
  assert (R : in_int64 (- 2023020001))
    by (unfold in_int64, minInt64, maxInt64; lia).
  destruct (GameID_text_round_trip (- 2023020001) R)
    as (H1 & _ & _ & H4 & H5 & _).
  repeat split; assumption.
Defined.

(** What the shared decoder accepts. *)
Lemma unmarshalNumericID_accepts (data : json) (typeName : string) (i : Z) :
  unmarshalNumericID data typeName = Ok i
  <-> (data = JInt i /\ in_int64 i)
      \/ (data = JNull /\ i = 0)
      \/ (exists s, data = JString s /\ strconv.ParseInt s = (i, None)).
Proof.
  unfold unmarshalNumericID. destruct data as [| b | z | | s | | |];
    cbn [Json.Unmarshal_int64 Json.Unmarshal_string].
  - split.
    + intros [= <-]. right. left. split; reflexivity.
    + intros [[H _] | [[_ ->] | (s & H & _)]]; try discriminate.
      reflexivity.
  - split; [discriminate | ].
    intros [[H _] | [[H _] | (s & H & _)]]; discriminate.
  - destruct (in_int64b z) eqn:E.
    + split.
      * intros [= <-]. left. split; [reflexivity | apply in_int64b_spec, E].
      * intros [[[= ->] _] | [[H _] | (s & H & _)]]; try discriminate.
        reflexivity.
    + split; [discriminate | ].
      intros [[[= ->] H] | [[H _] | (s & H & _)]]; try discriminate.
      apply in_int64b_spec in H. congruence.
  - split; [discriminate | ].
    intros [[H _] | [[H _] | (s & H & _)]]; discriminate.
  - destruct (strconv.ParseInt s) as [v [e |]] eqn:E.
    + split; [discriminate | ].
      intros [[H _] | [[H _] | (s' & [= <-] & H)]]; try discriminate.
      congruence.
    + split.
      * intros [= <-]. right. right. exists s. auto.
      * intros [[H _] | [[H _] | (s' & [= <-] & H)]]; try discriminate.
        congruence.
  - split; [discriminate | ].
    intros [[H _] | [[H _] | (s & H & _)]]; discriminate.
  - split; [discriminate | ].
    intros [[H _] | [[H _] | (s & H & _)]]; discriminate.
  - split; [discriminate | ].
    intros [[H _] | [[H _] | (s & H & _)]]; discriminate.
Qed.

(** X2.  What the identifier decoders accept.  [TeamID.UnmarshalJSON]
    returns [i] exactly on: the JSON integer [i], when it fits an int64;
    JSON null, with [i = 0]; and a JSON string that [ParseInt] reads as [i].
    [PlayerID.UnmarshalJSON] and [GameID.UnmarshalJSON] return [i] on the
    same inputs. *)
Theorem NumericID_UnmarshalJSON_accepts (data : json) (i : Z) :
  (TeamID.UnmarshalJSON data = Ok i
   <-> (data = JInt i /\ in_int64 i)
       \/ (data = JNull /\ i = 0)
       \/ (exists s, data = JString s /\ strconv.ParseInt s = (i, None)))
  /\ (PlayerID.UnmarshalJSON data = Ok i <-> TeamID.UnmarshalJSON data = Ok i)
  /\ (GameID.UnmarshalJSON data = Ok i <-> TeamID.UnmarshalJSON data = Ok i).
Proof.
  assert (HT : forall name,
             match unmarshalNumericID data name with
             | Err err => Err err
             | Ok i => Ok i
             end = unmarshalNumericID data name)
    by (intros name; destruct (unmarshalNumericID data name); reflexivity).
  unfold TeamID.UnmarshalJSON, PlayerID.UnmarshalJSON. rewrite !HT.
  split; [apply unmarshalNumericID_accepts | ].
  split.
  - rewrite !unmarshalNumericID_accepts. reflexivity.
  - rewrite unmarshalNumericID_accepts.
    unfold GameID.UnmarshalJSON. destruct data as [| b | z | | s | | |];
      cbn [Json.Unmarshal_int64 Json.Unmarshal_string].
    + rewrite <- (unmarshalNumericID_accepts JNull "x"). reflexivity.
    + rewrite <- (unmarshalNumericID_accepts (JBool b) "x"). split; discriminate.
    + rewrite <- (unmarshalNumericID_accepts (JInt z) "x").
      unfold unmarshalNumericID. cbn [Json.Unmarshal_int64].
      destruct (in_int64b z); [reflexivity | split; discriminate].
    + rewrite <- (unmarshalNumericID_accepts JFrac "x"). split; discriminate.
    + rewrite <- (unmarshalNumericID_accepts (JString s) "x").
      unfold unmarshalNumericID.
      cbn [Json.Unmarshal_int64 Json.Unmarshal_string].
      destruct (strconv.ParseInt s) as [v [e |]];
        [split; discriminate | reflexivity].
    + rewrite <- (unmarshalNumericID_accepts JArray "x"). split; discriminate.
    + rewrite <- (unmarshalNumericID_accepts JObject "x"). split; discriminate.
    + rewrite <- (unmarshalNumericID_accepts JMalformed "x").
      split; discriminate.
Qed.

(** ** Splitting at a separator *)

Lemma all_digits_no_dash (s : string) :
  all_digits s = true -> no_byte "-"%char s = true.
Proof.
  induction s as [| c s IH]; [reflexivity | ].
  cbn [all_digits no_byte]. rewrite andb_true_iff. intros [Hc Hs].
  rewrite IH by exact Hs. rewrite andb_true_r.
  destruct (Ascii.eqb_spec c "-"%char) as [-> | _];
    [discriminate | reflexivity].
Qed.

Lemma string_of_snoc (l : list ascii) (c : ascii) (s : string) :
  string_of_list_ascii (l ++ [c]) ++ s
  = string_of_list_ascii l ++ String c s.
Proof.
  induction l as [| c0 l IH]; cbn; [ | rewrite IH]; reflexivity.
Qed.

(** A piece without the separator is taken whole, up to the separator that
    follows it or to the end. *)
Lemma split_from_piece (sep : ascii) (s : string) :
  forall (t : string) (cur : list ascii),
    no_byte sep s = true ->
    split_from (s ++ String sep t) sep cur
    = (string_of_list_ascii (rev cur) ++ s) :: split_from t sep [].
Proof.
  induction s as [| c s IH]; intros t cur Hs; cbn [append split_from].
  - rewrite Ascii.eqb_refl, append_empty_r. reflexivity.
  - cbn [no_byte] in Hs. apply andb_true_iff in Hs. destruct Hs as [Hc Hs].
    apply negb_true_iff in Hc. rewrite Hc, IH by exact Hs.
    cbn [rev]. rewrite string_of_snoc. reflexivity.
Qed.

Lemma split_from_last (sep : ascii) (s : string) :
  forall cur : list ascii,
    no_byte sep s = true ->
    split_from s sep cur = [string_of_list_ascii (rev cur) ++ s].
Proof.
  induction s as [| c s IH]; intros cur Hs; cbn [split_from].
  - rewrite append_empty_r. reflexivity.
  - cbn [no_byte] in Hs. apply andb_true_iff in Hs. destruct Hs as [Hc Hs].
    apply negb_true_iff in Hc. rewrite Hc, IH by exact Hs.
    cbn [rev]. rewrite string_of_snoc. reflexivity.
Qed.

Lemma split_from_nonempty (sep : ascii) (s : string) :
  forall cur : list ascii, split_from s sep cur <> [].
Proof.
  induction s as [| c s IH]; intros cur; cbn [split_from];
    [discriminate | ].
  destruct (Ascii.eqb c sep); [discriminate | apply IH].
Qed.

Lemma Contains_app_sep (s t : string) (sep : ascii) :
  strings_Contains (s ++ String sep t) sep = true.
Proof.
  induction s as [| c s IH]; cbn [append strings_Contains].
  - rewrite Ascii.eqb_refl. reflexivity.
  - rewrite IH. apply orb_true_r.
Qed.

(** ** Seasons, in the form with a dash *)

Lemma Season_String_eq (y : Z) :
  in_int64 (y + 1) ->
  Season.String_ (Season.NewSeason y)
  = strconv.FormatInt y ++ String "-"%char (strconv.FormatInt (y + 1)).
Proof.
  intros H. unfold Season.String_, Season.EndYear, Season.NewSeason, int_add.
  cbn [Season.startYear]. rewrite wrap64_id by exact H. reflexivity.
Qed.

(** X3.  The dashed form of a season.  For a start year [y] whose end
    year is still a Go int: when [y] is not negative, [Parse] reads the
    text of [String] back to the season; when [y] is negative the text
    starts with a dash, splits into more than two pieces, and [Parse]
    refuses it as an invalid season format. *)
Theorem Season_Parse_String (y : Z) :
  minInt64 <= y < maxInt64 ->
  (0 <= y ->
   Season.Parse (Season.String_ (Season.NewSeason y))
   = Ok (Season.NewSeason y))
  /\ (y < 0 ->
      Season.Parse (Season.String_ (Season.NewSeason y))
      = Err (Errorf "invalid season format: %s"
               [ArgString (Season.String_ (Season.NewSeason y))])).
Proof.
  unfold minInt64, maxInt64. intros Hy.
  assert (Hend : in_int64 (y + 1))
    by (unfold in_int64, minInt64, maxInt64; lia).
  rewrite Season_String_eq by exact Hend. split; intros Hs.
  - unfold Season.Parse. rewrite Contains_app_sep.
    unfold strings_Split.
    rewrite split_from_piece
      by (apply all_digits_no_dash, FormatInt_nonneg_all_digits; lia).
    rewrite split_from_last
      by (apply all_digits_no_dash, FormatInt_nonneg_all_digits; lia).
    cbn [rev string_of_list_ascii append].
    rewrite !Atoi_FormatInt
      by (unfold in_int64, minInt64, maxInt64 in *; lia).
    apply FromYears_adjacent, Hend.
  - unfold Season.Parse. rewrite Contains_app_sep.
    unfold strings_Split, strconv.FormatInt at 1 3.
    assert (E : (y <? 0) = true) by lia. rewrite E.
    cbn [append split_from]. change (Ascii.eqb "-" "-") with true. cbv iota.
    rewrite split_from_piece
      by (apply all_digits_no_dash, formatBits_all_digits;
          [lia | reflexivity]).
    cbn [rev string_of_list_ascii append].
    pose proof (split_from_nonempty "-"%char (strconv.FormatInt (y + 1)) [])
      as Hne.
    destruct (split_from (strconv.FormatInt (y + 1)) "-" []) as [| p l];
      [contradiction | reflexivity].
Qed.

Lemma Season_Parse_String_witness :
  Season.Parse (Season.String_ (Season.NewSeason 2023))
  = Ok (Season.NewSeason 2023)
  /\ Season.Parse (Season.String_ (Season.NewSeason (- 5)))
     = Err (Errorf "invalid season format: %s"
              [ArgString (Season.String_ (Season.NewSeason (- 5)))]).
Proof.
  split.
  - apply (Season_Parse_String 2023); unfold minInt64, maxInt64; lia.
  - apply (Season_Parse_String (- 5)); unfold minInt64, maxInt64; lia.
Defined.

(** ** Seasons, in the eight-digit forms *)

(** The two eight-digit encodings of a season with four-digit years. *)
Lemma Season_four_digit_wire (y : Z) :
  1000 <= y <= 9998 ->
  Season.ToInt (Season.NewSeason y) = y * 10000 + (y + 1)
  /\ Season.Parse (Season.ToAPIString (Season.NewSeason y))
     = Ok (Season.NewSeason y).
Proof.
  intros Hy.
  assert (Hend : in_int64 (y + 1))
    by (unfold in_int64, minInt64, maxInt64; lia).
  destruct (FormatInt_four_digits y ltac:(lia))
    as (a3 & a2 & a1 & a0 & A3 & A2 & A1 & A0 & Ey & Fy).
  destruct (FormatInt_four_digits (y + 1) ltac:(lia))
    as (b3 & b2 & b1 & b0 & B3 & B2 & B1 & B0 & Ez & Fz).
  assert (Hs : Season.ToAPIString (Season.NewSeason y)
               = str4 a3 a2 a1 a0 ++ str4 b3 b2 b1 b0).
  { unfold Season.ToAPIString, Season.EndYear, Season.NewSeason, int_add.
    cbn [Season.startYear]. rewrite wrap64_id by assumption.
    rewrite Fy, Fz. reflexivity. }
  split.
  - unfold Season.ToInt. rewrite Hs, Atoi_str4_str4 by assumption.
    cbn [fst]. rewrite <- Ey, <- Ez. reflexivity.
  - rewrite Hs. unfold Season.Parse.
    rewrite str4_no_dash by assumption.
    destruct (str4_str4_slices a3 a2 a1 a0 b3 b2 b1 b0) as (El & Et & Ef).
    rewrite El, Et, Ef. simpl Z.eqb. cbv iota.
    rewrite !Atoi_str4 by assumption.
    rewrite <- Ey, <- Ez. apply FromYears_adjacent, Hend.
Qed.

(** What [SeasonFromInt] accepts, and what it returns. *)
Lemma SeasonFromInt_accepts (i : Z) (s : Season.t) :
  Season.SeasonFromInt i = Ok s
  <-> 10000000 <= i <= 99999999
      /\ i mod 10000 = i / 10000 + 1
      /\ s = Season.NewSeason (i / 10000).
Proof.
  unfold Season.SeasonFromInt.
  destruct (Z.ltb_spec i 10000000) as [Hlo | Hlo]; cbn [orb].
  - split; [discriminate | lia].
  - destruct (Z.gtb_spec i 99999999) as [Hhi | Hhi].
    + split; [discriminate | lia].
    + cbv zeta. rewrite int_div_nonneg, int_mod_nonneg by lia.
      unfold Season.FromYears, int_add.
      rewrite wrap64_id
        by (unfold in_int64, minInt64, maxInt64; dlia).
      destruct (Z.eqb_spec (i mod 10000) (i / 10000 + 1)) as [E | E];
        cbn [negb].
      * split; [intros [= <-]; repeat split; lia
               | intros (_ & _ & ->); reflexivity].
      * split; [discriminate | intros (_ & E' & _); contradiction].
Qed.

(** X4.  [SeasonFromInt] accepts exactly the integers of eight digits whose
    last four digits are the first four plus one, and returns the season of
    the first four.  For every integer [i] it accepts and season [s] it
    returns: [ToInt s] is [i], the start year has four digits and is at
    most 9998, [EndYear] is [StartYear] plus one, and [SeasonFromInt64]
    returns the same season. *)
Theorem SeasonFromInt_decodes_what_ToInt_encodes (i : Z) (s : Season.t) :
  (Season.SeasonFromInt i = Ok s
   <-> 10000000 <= i <= 99999999
       /\ i mod 10000 = i / 10000 + 1
       /\ s = Season.NewSeason (i / 10000))
  /\ (Season.SeasonFromInt i = Ok s ->
      Season.ToInt s = i
      /\ 1000 <= Season.StartYear s <= 9998
      /\ Season.EndYear s = Season.StartYear s + 1
      /\ Season.SeasonFromInt64 i = Ok s).
Proof.
  split; [apply SeasonFromInt_accepts | ].
  intros H. pose proof H as H'.
  apply SeasonFromInt_accepts in H'. destruct H' as (Hr & Hm & ->).
  assert (Hy : 1000 <= i / 10000 <= 9998) by dlia.
  destruct (Season_four_digit_wire (i / 10000) Hy) as (Hi & _).
  repeat split.
  - rewrite Hi. dlia.
  - cbn. lia.
  - cbn. lia.
  - unfold Season.EndYear, Season.StartYear, int_add. cbn [Season.startYear
      Season.NewSeason]. apply wrap64_id.
    unfold in_int64, minInt64, maxInt64. lia.
  - unfold Season.SeasonFromInt64.
    assert (E : (i <? 10000000) || (i >? 99999999) = false) by lia.
    rewrite E. exact H.
Qed.

Lemma SeasonFromInt_decodes_what_ToInt_encodes_witness :
  Season.ToInt (Season.NewSeason 2023) = 20232024
  /\ Season.SeasonFromInt64 20232024 = Ok (Season.NewSeason 2023).
Proof.
  destruct (SeasonFromInt_decodes_what_ToInt_encodes 20232024
              (Season.NewSeason 2023)) as (_ & H).
  destruct (H eq_refl) as (H1 & _ & _ & H4). split; assumption.
Defined.

(** X5.  The three JSON forms of a season.  For a start year between 1000
    and 9998, [UnmarshalJSON] reads the season from the eight-digit JSON
    integer, from the eight-digit JSON string and from the dashed JSON
    string; and what [MarshalJSON] writes is read back to the season. *)
Theorem Season_UnmarshalJSON_forms (y : Z) :
  1000 <= y <= 9998 ->
  Season.UnmarshalJSON (JInt (y * 10000 + (y + 1))) = Ok (Season.NewSeason y)
  /\ Season.UnmarshalJSON (JString (Season.ToAPIString (Season.NewSeason y)))
     = Ok (Season.NewSeason y)
  /\ Season.UnmarshalJSON (JString (Season.String_ (Season.NewSeason y)))
     = Ok (Season.NewSeason y)
  /\ (exists j,
         Season.MarshalJSON (Season.NewSeason y) = Ok j
         /\ Season.UnmarshalJSON j = Ok (Season.NewSeason y)).
Proof.
  intros Hy.
  destruct (Season_four_digit_wire y Hy) as (Hi & Hp).
  assert (Hd : Season.Parse (Season.String_ (Season.NewSeason y))
               = Ok (Season.NewSeason y)).
  { unfold Season.Parse.
    assert (Hend : in_int64 (y + 1))
      by (unfold in_int64, minInt64, maxInt64; lia).
    rewrite Season_String_eq by exact Hend.
    rewrite Contains_app_sep. unfold strings_Split.
    rewrite split_from_piece
      by (apply all_digits_no_dash, FormatInt_nonneg_all_digits; lia).
    rewrite split_from_last
      by (apply all_digits_no_dash, FormatInt_nonneg_all_digits; lia).
    cbn [rev string_of_list_ascii append].
    rewrite !Atoi_FormatInt
      by (unfold in_int64, minInt64, maxInt64 in *; lia).
    apply FromYears_adjacent, Hend. }
  assert (Hj : Season.UnmarshalJSON
                 (JString (Season.ToAPIString (Season.NewSeason y)))
               = Ok (Season.NewSeason y)).
  { unfold Season.UnmarshalJSON.
    cbn [Json.Unmarshal_int64 Json.Unmarshal_string]. exact Hp. }
  repeat split.
  - unfold Season.UnmarshalJSON. cbn [Json.Unmarshal_int64].
    assert (R : in_int64b (y * 10000 + (y + 1)) = true)
      by (apply in_int64b_spec; unfold in_int64, minInt64, maxInt64; lia).
    rewrite R. unfold Season.SeasonFromInt64.
    assert (E : (y * 10000 + (y + 1) <? 10000000)
                || (y * 10000 + (y + 1) >? 99999999) = false) by lia.
    rewrite E. apply SeasonFromInt_accepts.
    repeat split; try lia; try dlia.
    f_equal. dlia.
  - exact Hj.
  - unfold Season.UnmarshalJSON.
    cbn [Json.Unmarshal_int64 Json.Unmarshal_string]. exact Hd.
  - exists (JString (Season.ToAPIString (Season.NewSeason y))).
    split; [reflexivity | exact Hj].
Qed.

Lemma Season_UnmarshalJSON_forms_witness :
  Season.UnmarshalJSON (JInt (2023 * 10000 + (2023 + 1)))
  = Ok (Season.NewSeason 2023)
  /\ Season.UnmarshalJSON
       (JString (Season.String_ (Season.NewSeason 2023)))
     = Ok (Season.NewSeason 2023).
Proof.
  destruct (Season_UnmarshalJSON_forms 2023 ltac:(lia)) as (H1 & _ & H3 & _).
  split; assumption.
Defined.

(** ** Enumerated codes: parsing and the JSON round trip *)

Lemma GameState_IsValid_known v :
  GameState.IsValid v = true <-> In v GameState.known.
Proof. apply switch_case_In. Qed.

(** Going through the cases of a parser written as a [switch]. *)
Ltac parser_cases :=
  repeat match goal with
         | |- context [if switch_case ?s ?l then _ else _] =>
             destruct (switch_case s l)
         end.

(** Going through the constants of a type. *)
Ltac known_cases H :=
  cbn in H;
  repeat (destruct H as [<- | H]; [ | ]);
  try contradiction.

Lemma Unmarshal_string_cases (data : json) (s : string) :
  Json.Unmarshal_string data = Ok s ->
  data = JString s \/ (data = JNull /\ s = EmptyString).
Proof.
  destruct data; cbn; try discriminate; intros [= <-]; auto.
Qed.

(** What each parser of a code returns is a constant of the type. *)
Lemma FromString_known :
  (forall s v, Position.PositionFromString s = Ok v -> In v Position.known)
  /\ (forall s v, Handedness.HandednessFromString s = Ok v ->
                  In v Handedness.known)
  /\ (forall s v, GoalieDecision.GoalieDecisionFromString s = Ok v ->
                  In v GoalieDecision.known)
  /\ (forall s v, PeriodType.PeriodTypeFromString s = Ok v ->
                  In v PeriodType.known)
  /\ (forall s v, HomeRoad.HomeRoadFromString s = Ok v -> In v HomeRoad.known)
  /\ (forall s v, ZoneCode.ZoneCodeFromString s = Ok v -> In v ZoneCode.known)
  /\ (forall s v, DefendingSide.DefendingSideFromString s = Ok v ->
                  In v DefendingSide.known)
  /\ (forall s v, GameType.GameTypeFromString s = Ok v -> In v GameType.known).
Proof.
  repeat split; intros s v;
    unfold Position.PositionFromString, Handedness.HandednessFromString,
      GoalieDecision.GoalieDecisionFromString,
      PeriodType.PeriodTypeFromString, HomeRoad.HomeRoadFromString,
      ZoneCode.ZoneCodeFromString, DefendingSide.DefendingSideFromString,
      GameType.GameTypeFromString;
    parser_cases; intros [= <-]; cbn; auto 20.
Qed.

(** The parsers that convert and test: the result is the input, and
    valid. *)
Lemma FromString_checked :
  (forall s v, GameScheduleState.GameScheduleStateFromString s = Ok v ->
               v = s /\ In v GameScheduleState.known)
  /\ (forall s v, PlayEventType.PlayEventTypeFromString s = Ok v ->
                  v = s /\ In v PlayEventType.known)
  /\ (forall s v, GameState.GameStateFromString s = Ok v ->
                  v = s /\ In v GameState.known)
  /\ (forall i v, GameType.GameTypeFromInt i = Ok v ->
                  v = i /\ In v GameType.known).
Proof.
  repeat split;
    unfold GameScheduleState.GameScheduleStateFromString,
      PlayEventType.PlayEventTypeFromString,
      GameState.GameStateFromString, GameType.GameTypeFromInt in H;
    cbv zeta in H;
    match type of H with
    | (if negb ?b then _ else _) = _ =>
        destruct b eqn:E; cbn [negb] in H; [ | discriminate];
        injection H as <-
    end; try reflexivity.
  - apply switch_case_In in E. exact E.
  - apply switch_case_In in E. exact E.
  - apply switch_case_In in E. exact E.
  - apply GameType_IsValid_known, E.
Qed.

(** X7.  Decoders return valid codes only.  Whatever a [FromString] parser
    or an [UnmarshalJSON] of an enumerated type returns without error passes
    [IsValid] of its type; the one exception is [Handedness.UnmarshalJSON],
    which also returns the empty handedness.  The parsers of
    [GameScheduleState], [PlayEventType] and [GameState], and
    [GameTypeFromInt], return their input unchanged. *)
Theorem decoded_codes_are_valid :
  (forall s v, Position.PositionFromString s = Ok v ->
               Position.IsValid v = true)
  /\ (forall d v, Position.UnmarshalJSON d = Ok v ->
                  Position.IsValid v = true)
  /\ (forall s v, Handedness.HandednessFromString s = Ok v ->
                  Handedness.IsValid v = true)
  /\ (forall d v, Handedness.UnmarshalJSON d = Ok v ->
                  v = EmptyString \/ Handedness.IsValid v = true)
  /\ (forall s v, GoalieDecision.GoalieDecisionFromString s = Ok v ->
                  GoalieDecision.IsValid v = true)
  /\ (forall d v, GoalieDecision.UnmarshalJSON d = Ok v ->
                  GoalieDecision.IsValid v = true)
  /\ (forall s v, PeriodType.PeriodTypeFromString s = Ok v ->
                  PeriodType.IsValid v = true)
  /\ (forall d v, PeriodType.UnmarshalJSON d = Ok v ->
                  PeriodType.IsValid v = true)
  /\ (forall s v, HomeRoad.HomeRoadFromString s = Ok v ->
                  HomeRoad.IsValid v = true)
  /\ (forall d v, HomeRoad.UnmarshalJSON d = Ok v ->
                  HomeRoad.IsValid v = true)
  /\ (forall s v, ZoneCode.ZoneCodeFromString s = Ok v ->
                  ZoneCode.IsValid v = true)
  /\ (forall d v, ZoneCode.UnmarshalJSON d = Ok v ->
                  ZoneCode.IsValid v = true)
  /\ (forall s v, DefendingSide.DefendingSideFromString s = Ok v ->
                  DefendingSide.IsValid v = true)
  /\ (forall d v, DefendingSide.UnmarshalJSON d = Ok v ->
                  DefendingSide.IsValid v = true)
  /\ (forall s v, GameScheduleState.GameScheduleStateFromString s = Ok v ->
                  v = s /\ GameScheduleState.IsValid v = true)
  /\ (forall d v, GameScheduleState.UnmarshalJSON d = Ok v ->
                  GameScheduleState.IsValid v = true)
  /\ (forall s v, PlayEventType.PlayEventTypeFromString s = Ok v ->
                  v = s /\ PlayEventType.IsValid v = true)
  /\ (forall d v, PlayEventType.UnmarshalJSON d = Ok v ->
                  PlayEventType.IsValid v = true)
  /\ (forall s v, GameState.GameStateFromString s = Ok v ->
                  v = s /\ GameState.IsValid v = true)
  /\ (forall d v, GameState.UnmarshalJSON d = Ok v ->
                  GameState.IsValid v = true)
  /\ (forall s v, GameType.GameTypeFromString s = Ok v ->
                  GameType.IsValid v = true)
  /\ (forall i v, GameType.GameTypeFromInt i = Ok v ->
                  v = i /\ GameType.IsValid v = true)
  /\ (forall d v, GameType.UnmarshalJSON d = Ok v ->
                  GameType.IsValid v = true).
Proof.
  destruct FromString_known as (P & H & G & PT & HR & Z & D & GT).
  destruct FromString_checked as (GS & PE & ST & GI).
  assert (P' : forall s v, Position.PositionFromString s = Ok v ->
                           Position.IsValid v = true)
    by (intros s v E; apply Position_IsValid_known, (P s), E).
  assert (H' : forall s v, Handedness.HandednessFromString s = Ok v ->
                           Handedness.IsValid v = true)
    by (intros s v E; apply Handedness_IsValid_known, (H s), E).
  assert (G' : forall s v, GoalieDecision.GoalieDecisionFromString s = Ok v ->
                           GoalieDecision.IsValid v = true)
    by (intros s v E; apply GoalieDecision_IsValid_known, (G s), E).
  assert (PT' : forall s v, PeriodType.PeriodTypeFromString s = Ok v ->
                            PeriodType.IsValid v = true)
    by (intros s v E; apply PeriodType_IsValid_known, (PT s), E).
  assert (HR' : forall s v, HomeRoad.HomeRoadFromString s = Ok v ->
                            HomeRoad.IsValid v = true)
    by (intros s v E; apply HomeRoad_IsValid_known, (HR s), E).
  assert (Z' : forall s v, ZoneCode.ZoneCodeFromString s = Ok v ->
                           ZoneCode.IsValid v = true)
    by (intros s v E; apply ZoneCode_IsValid_known, (Z s), E).
  assert (D' : forall s v, DefendingSide.DefendingSideFromString s = Ok v ->
                           DefendingSide.IsValid v = true)
    by (intros s v E; apply DefendingSide_IsValid_known, (D s), E).
  assert (GS' : forall s v,
             GameScheduleState.GameScheduleStateFromString s = Ok v ->
             v = s /\ GameScheduleState.IsValid v = true)
    by (intros s v E; destruct (GS s v E) as [E1 E2]; split;
        [exact E1 | apply GameScheduleState_IsValid_known, E2]).
  assert (PE' : forall s v, PlayEventType.PlayEventTypeFromString s = Ok v ->
                            v = s /\ PlayEventType.IsValid v = true)
    by (intros s v E; destruct (PE s v E) as [E1 E2]; split;
        [exact E1 | apply PlayEventType_IsValid_known, E2]).
  assert (ST' : forall s v, GameState.GameStateFromString s = Ok v ->
                            v = s /\ GameState.IsValid v = true)
    by (intros s v E; destruct (ST s v E) as [E1 E2]; split;
        [exact E1 | apply GameState_IsValid_known, E2]).
  assert (GT' : forall s v, GameType.GameTypeFromString s = Ok v ->
                            GameType.IsValid v = true)
    by (intros s v E; apply GameType_IsValid_known, (GT s), E).
  assert (GI' : forall i v, GameType.GameTypeFromInt i = Ok v ->
                            v = i /\ GameType.IsValid v = true)
    by (intros s v E; destruct (GI s v E) as [E1 E2]; split;
        [exact E1 | apply GameType_IsValid_known, E2]).
  repeat match goal with |- _ /\ _ => split end;
    try assumption;
    intros d v;
    unfold Position.UnmarshalJSON, Handedness.UnmarshalJSON,
      GoalieDecision.UnmarshalJSON, PeriodType.UnmarshalJSON,
      HomeRoad.UnmarshalJSON, ZoneCode.UnmarshalJSON,
      DefendingSide.UnmarshalJSON, GameScheduleState.UnmarshalJSON,
      PlayEventType.UnmarshalJSON, GameState.UnmarshalJSON,
      GameType.UnmarshalJSON.
  - destruct (Json.Unmarshal_string d); [apply P' | discriminate].
  - destruct (Json.Unmarshal_string d) as [s | ]; [ | discriminate].
    destruct (String.eqb s EmptyString).
    + intros [= <-]. left. reflexivity.
    + intros E. right. exact (H' s v E).
  - destruct (Json.Unmarshal_string d); [apply G' | discriminate].
  - destruct (Json.Unmarshal_string d); [apply PT' | discriminate].
  - destruct (Json.Unmarshal_string d); [apply HR' | discriminate].
  - destruct (Json.Unmarshal_string d); [apply Z' | discriminate].
  - destruct (Json.Unmarshal_string d); [apply D' | discriminate].
  - destruct (Json.Unmarshal_string d) as [s | ]; [ | discriminate].
    intros E. apply (GS' s v E).
  - destruct (Json.Unmarshal_string d) as [s | ]; [ | discriminate].
    intros E. apply (PE' s v E).
  - destruct (Json.Unmarshal_string d) as [s | ]; [ | discriminate].
    intros E. apply (ST' s v E).
  - destruct (Json.Unmarshal_int64 d) as [i | ].
    + intros E. apply (GI' i v E).
    + destruct (Json.Unmarshal_string d) as [s | ]; [apply GT' | discriminate].
Qed.

(** The codecs that test [IsValid] before writing. *)
Ltac unfold_marshal :=
  cbv beta delta [Position.MarshalJSON GoalieDecision.MarshalJSON
    PeriodType.MarshalJSON HomeRoad.MarshalJSON ZoneCode.MarshalJSON
    GameScheduleState.MarshalJSON PlayEventType.MarshalJSON
    GameState.MarshalJSON GameType.MarshalJSON Position.Code PeriodType.Code
    HomeRoad.Code ZoneCode.Code GameType.ToInt].

Ltac strict_round_trip lemma :=
  let v := fresh "v" in
  let j := fresh "j" in
  let M := fresh "M" in
  let E := fresh "E" in
  let K := fresh "K" in
  intros v; split;
  [ intros (j & M & _); revert M; unfold_marshal;
    match goal with
    | |- context [negb ?b] => destruct b; [reflexivity | discriminate]
    end
  | intros E; pose proof (proj1 (lemma v) E) as K;
    eexists; split;
    [ unfold_marshal; rewrite E; reflexivity
    | clear E; known_cases K; reflexivity ] ].

(** X8.  The JSON round trip of the strict types.  For [Position],
    [GoalieDecision], [PeriodType], [HomeRoad], [ZoneCode],
    [GameScheduleState], [PlayEventType], [GameState] and [GameType]:
    [MarshalJSON] succeeds on a value and [UnmarshalJSON] reads its output
    back to that value if and only if the value is valid. *)
Theorem JSON_round_trip_exactly_on_valid_codes :
  (forall v, (exists j, Position.MarshalJSON v = Ok j
                        /\ Position.UnmarshalJSON j = Ok v)
             <-> Position.IsValid v = true)
  /\ (forall v, (exists j, GoalieDecision.MarshalJSON v = Ok j
                           /\ GoalieDecision.UnmarshalJSON j = Ok v)
                <-> GoalieDecision.IsValid v = true)
  /\ (forall v, (exists j, PeriodType.MarshalJSON v = Ok j
                           /\ PeriodType.UnmarshalJSON j = Ok v)
                <-> PeriodType.IsValid v = true)
  /\ (forall v, (exists j, HomeRoad.MarshalJSON v = Ok j
                           /\ HomeRoad.UnmarshalJSON j = Ok v)
                <-> HomeRoad.IsValid v = true)
  /\ (forall v, (exists j, ZoneCode.MarshalJSON v = Ok j
                           /\ ZoneCode.UnmarshalJSON j = Ok v)
                <-> ZoneCode.IsValid v = true)
  /\ (forall v, (exists j, GameScheduleState.MarshalJSON v = Ok j
                           /\ GameScheduleState.UnmarshalJSON j = Ok v)
                <-> GameScheduleState.IsValid v = true)
  /\ (forall v, (exists j, PlayEventType.MarshalJSON v = Ok j
                           /\ PlayEventType.UnmarshalJSON j = Ok v)
                <-> PlayEventType.IsValid v = true)
  /\ (forall v, (exists j, GameState.MarshalJSON v = Ok j
                           /\ GameState.UnmarshalJSON j = Ok v)
                <-> GameState.IsValid v = true)
  /\ (forall v, (exists j, GameType.MarshalJSON v = Ok j
                           /\ GameType.UnmarshalJSON j = Ok v)
                <-> GameType.IsValid v = true).
Proof.
  repeat match goal with |- _ /\ _ => split end.
  - strict_round_trip Position_IsValid_known.
  - strict_round_trip GoalieDecision_IsValid_known.
  - strict_round_trip PeriodType_IsValid_known.
  - strict_round_trip HomeRoad_IsValid_known.
  - strict_round_trip ZoneCode_IsValid_known.
  - strict_round_trip GameScheduleState_IsValid_known.
  - strict_round_trip PlayEventType_IsValid_known.
  - strict_round_trip GameState_IsValid_known.
  - strict_round_trip GameType_IsValid_known.
Qed.

(** X9.  The two lenient codecs.  A [Handedness] is written and read back
    to itself exactly when it is empty or valid.  A [DefendingSide] is
    written and read back to itself exactly when it is valid: the empty
    side, which is not valid, is written as the empty JSON string, and
    [UnmarshalJSON] refuses that string as an invalid defending side. *)
Theorem lenient_codecs_and_the_empty_code :
  (forall h, (exists j, Handedness.MarshalJSON h = Ok j
                        /\ Handedness.UnmarshalJSON j = Ok h)
             <-> h = EmptyString \/ Handedness.IsValid h = true)
  /\ (forall d, (exists j, DefendingSide.MarshalJSON d = Ok j
                           /\ DefendingSide.UnmarshalJSON j = Ok d)
                <-> DefendingSide.IsValid d = true)
  /\ (exists j, DefendingSide.MarshalJSON EmptyString = Ok j
                /\ DefendingSide.UnmarshalJSON j
                   = Err (Errorf "invalid defending side: %q"
                            [ArgString EmptyString]))
  /\ DefendingSide.IsValid EmptyString = false.
Proof.
  destruct FromString_known as (_ & H & _).
  split; [ | split; [ | split]].
  - intros h. split.
    + intros (j & M & U). injection M as <-.
      unfold Handedness.UnmarshalJSON in U. cbn [Json.Unmarshal_string] in U.
      destruct (String.eqb h EmptyString) eqn:Eh.
      * left. apply String.eqb_eq, Eh.
      * right. apply Handedness_IsValid_known. exact (H h h U).
    + intros [-> | E].
      * eexists. split; reflexivity.
      * apply Handedness_IsValid_known in E. eexists. split; [reflexivity | ].
        known_cases E; reflexivity.
  - intros d. split.
    + intros (j & M & U). unfold DefendingSide.MarshalJSON in M.
      destruct (String.eqb d EmptyString) eqn:Ed.
      * apply String.eqb_eq in Ed. subst d. injection M as <-.
        discriminate U.
      * destruct (DefendingSide.IsValid d); [reflexivity | discriminate M].
    + intros E. apply DefendingSide_IsValid_known in E.
      known_cases E; eexists; split; reflexivity.
  - eexists. split; reflexivity.
  - reflexivity.
Qed.

(** X6.  Game types read back from their names and their numbers.  For a
    game type [g], each of these returns [g] if and only if [g] is valid:
    [GameTypeFromString] of the name that [String] gives,
    [GameTypeFromString] of the decimal number, [GameTypeFromInt] of
    [ToInt], [UnmarshalJSON] of the name as a JSON string, and
    [UnmarshalJSON] of the number as a JSON integer. *)
Theorem GameType_names_and_numbers_read_back (g : GameType.t) :
  (GameType.GameTypeFromString (GameType.String_ g) = Ok g
   <-> GameType.IsValid g = true)
  /\ (GameType.GameTypeFromString (strconv.FormatInt (GameType.ToInt g)) = Ok g
      <-> GameType.IsValid g = true)
  /\ (GameType.GameTypeFromInt (GameType.ToInt g) = Ok g
      <-> GameType.IsValid g = true)
  /\ (GameType.UnmarshalJSON (JString (GameType.String_ g)) = Ok g
      <-> GameType.IsValid g = true)
  /\ (GameType.UnmarshalJSON (JInt (GameType.ToInt g)) = Ok g
      <-> GameType.IsValid g = true).
Proof.
  destruct FromString_known as (_ & _ & _ & _ & _ & _ & _ & GT).
  destruct FromString_checked as (_ & _ & _ & GI).
  assert (K : GameType.IsValid g = true ->
              GameType.GameTypeFromString (GameType.String_ g) = Ok g
              /\ GameType.GameTypeFromString
                   (strconv.FormatInt (GameType.ToInt g)) = Ok g
              /\ GameType.GameTypeFromInt (GameType.ToInt g) = Ok g
              /\ GameType.UnmarshalJSON (JString (GameType.String_ g)) = Ok g
              /\ GameType.UnmarshalJSON (JInt (GameType.ToInt g)) = Ok g).
  { intros E. apply GameType_IsValid_known in E.
    known_cases E; repeat split; reflexivity. }
  split; [ | split; [ | split; [ | split]]];
    (split; [ | intros E; apply K, E]).
  - intros E. apply GameType_IsValid_known. exact (GT _ _ E).
  - intros E. apply GameType_IsValid_known. exact (GT _ _ E).
  - intros E. apply GameType_IsValid_known. exact (proj2 (GI _ _ E)).
  - intros E. apply GameType_IsValid_known. exact (GT _ _ E).
  - unfold GameType.UnmarshalJSON. cbn [Json.Unmarshal_int64 Json.Unmarshal_string].
    intros E. apply GameType_IsValid_known.
    destruct (in_int64b (GameType.ToInt g)).
    + exact (proj2 (GI _ _ E)).
    + discriminate E.
Qed.

(** ** Enumerated codes: the classifying predicates *)

(** A test by [switch] or by a chain of [==] as membership in a list. *)
Ltac as_membership :=
  rewrite ?andb_true_iff, ?orb_true_iff, ?negb_true_iff, ?switch_case_In,
    ?String.eqb_eq, ?String.eqb_neq;
  cbn [In].

Ltac by_membership :=
  as_membership; intuition (subst; try discriminate; try congruence; auto 20).

(** X11.  Classes of positions.  [IsForward] holds exactly on the center
    and the two wings; a skater is a forward or the defense position; a
    valid position is a skater or the goalie; and a skater is never the
    goalie. *)
Theorem Position_classes (p : Position.t) :
  (Position.IsForward p = true
   <-> In p [Position.PositionCenter; Position.PositionLeftWing;
             Position.PositionRightWing])
  /\ (Position.IsSkater p = true
      <-> Position.IsForward p = true \/ p = Position.PositionDefense)
  /\ (Position.IsValid p = true
      <-> Position.IsSkater p = true \/ p = Position.PositionGoalie)
  /\ (Position.IsSkater p = true -> p <> Position.PositionGoalie).
Proof.
  unfold Position.IsSkater, Position.IsForward, Position.IsValid,
    Position.PositionCenter, Position.PositionLeftWing,
    Position.PositionRightWing, Position.PositionDefense,
    Position.PositionGoalie.
  repeat match goal with |- _ /\ _ => split end; by_membership.
Qed.

(** X10.  Display names parse back.  For each enumerated string type, the
    [FromString] parser reads the text that [String] gives for a value back
    to that value if and only if the value is valid. *)
Theorem String_output_parses_back_exactly_on_valid_codes :
  (forall v, Position.PositionFromString (Position.String_ v) = Ok v
             <-> Position.IsValid v = true)
  /\ (forall v, Handedness.HandednessFromString (Handedness.String_ v) = Ok v
                <-> Handedness.IsValid v = true)
  /\ (forall v, GoalieDecision.GoalieDecisionFromString
                  (GoalieDecision.String_ v) = Ok v
                <-> GoalieDecision.IsValid v = true)
  /\ (forall v, PeriodType.PeriodTypeFromString (PeriodType.String_ v) = Ok v
                <-> PeriodType.IsValid v = true)
  /\ (forall v, HomeRoad.HomeRoadFromString (HomeRoad.String_ v) = Ok v
                <-> HomeRoad.IsValid v = true)
  /\ (forall v, ZoneCode.ZoneCodeFromString (ZoneCode.String_ v) = Ok v
                <-> ZoneCode.IsValid v = true)
  /\ (forall v, DefendingSide.DefendingSideFromString
                  (DefendingSide.String_ v) = Ok v
                <-> DefendingSide.IsValid v = true)
  /\ (forall v, GameScheduleState.GameScheduleStateFromString
                  (GameScheduleState.String_ v) = Ok v
                <-> GameScheduleState.IsValid v = true)
  /\ (forall v, PlayEventType.PlayEventTypeFromString
                  (PlayEventType.String_ v) = Ok v
                <-> PlayEventType.IsValid v = true)
  /\ (forall v, GameState.GameStateFromString (GameState.String_ v) = Ok v
                <-> GameState.IsValid v = true).
Proof.
  destruct FromString_known as (P & H & G & PT & HR & Z & D & _).
  destruct FromString_checked as (GS & PE & ST & _).
  repeat match goal with |- _ /\ _ => split end; intros v; split.
  - intros E. apply Position_IsValid_known. exact (P _ _ E).
  - intros E. apply Position_IsValid_known in E. known_cases E; reflexivity.
  - intros E. apply Handedness_IsValid_known. exact (H _ _ E).
  - intros E. apply Handedness_IsValid_known in E. known_cases E; reflexivity.
  - intros E. apply GoalieDecision_IsValid_known. exact (G _ _ E).
  - intros E. apply GoalieDecision_IsValid_known in E.
    known_cases E; reflexivity.
  - intros E. apply PeriodType_IsValid_known. exact (PT _ _ E).
  - intros E. apply PeriodType_IsValid_known in E. known_cases E; reflexivity.
  - intros E. apply HomeRoad_IsValid_known. exact (HR _ _ E).
  - intros E. apply HomeRoad_IsValid_known in E. known_cases E; reflexivity.
  - intros E. apply ZoneCode_IsValid_known. exact (Z _ _ E).
  - intros E. apply ZoneCode_IsValid_known in E. known_cases E; reflexivity.
  - intros E. apply DefendingSide_IsValid_known. exact (D _ _ E).
  - intros E. apply DefendingSide_IsValid_known in E.
    known_cases E; reflexivity.
  - intros E. apply GameScheduleState_IsValid_known. exact (proj2 (GS _ _ E)).
  - intros E. apply GameScheduleState_IsValid_known in E.
    known_cases E; reflexivity.
  - intros E. apply PlayEventType_IsValid_known. exact (proj2 (PE _ _ E)).
  - intros E. apply PlayEventType_IsValid_known in E.
    known_cases E; reflexivity.
  - intros E. apply GameState_IsValid_known. exact (proj2 (ST _ _ E)).
  - intros E. apply GameState_IsValid_known in E. known_cases E; reflexivity.
Qed.

(** X12.  Phases of a game state.  [HasStarted] holds exactly when
    [IsLive] or [IsFinal] does; a valid state is scheduled, live, final,
    postponed or suspended; a scheduled state has not started; a live state
    is not final; postponed and suspended are neither scheduled nor
    started. *)
Theorem GameState_phases (g : GameState.t) :
  (GameState.HasStarted g = true
   <-> GameState.IsLive g = true \/ GameState.IsFinal g = true)
  /\ (GameState.IsValid g = true
      <-> GameState.IsScheduled g = true \/ GameState.IsLive g = true
          \/ GameState.IsFinal g = true \/ g = GameState.GameStatePostponed
          \/ g = GameState.GameStateSuspended)
  /\ (GameState.IsScheduled g = true -> GameState.HasStarted g = false)
  /\ (GameState.IsLive g = true -> GameState.IsFinal g = false)
  /\ (g = GameState.GameStatePostponed \/ g = GameState.GameStateSuspended ->
      GameState.IsScheduled g = false /\ GameState.HasStarted g = false).
Proof.
  unfold GameState.HasStarted, GameState.IsLive, GameState.IsFinal,
    GameState.IsScheduled, GameState.IsValid, GameState.GameStateFuture,
    GameState.GameStatePreGame, GameState.GameStateLive,
    GameState.GameStateFinal, GameState.GameStateOff,
    GameState.GameStatePostponed, GameState.GameStateSuspended,
    GameState.GameStateCritical.
  split; [by_membership | ].
  split; [by_membership | ].
  split; [ | split].
  - as_membership. intros [-> | ->]; reflexivity.
  - as_membership. intros [-> | ->]; reflexivity.
  - intros [-> | ->]; split; reflexivity.
Qed.

(** X13.  Classes of play events.  A goal is a scoring chance; scoring
    chances and period boundaries are valid event types; and no scoring
    chance is a period boundary. *)
Theorem PlayEventType_classes (p : PlayEventType.t) :
  (PlayEventType.IsGoal p = true -> PlayEventType.IsScoringChance p = true)
  /\ (PlayEventType.IsScoringChance p = true -> PlayEventType.IsValid p = true)
  /\ (PlayEventType.IsPeriodBoundary p = true ->
      PlayEventType.IsValid p = true)
  /\ (PlayEventType.IsScoringChance p = true ->
      PlayEventType.IsPeriodBoundary p = false).
Proof.
  split; [ | split; [ | split]].
  - unfold PlayEventType.IsGoal. rewrite String.eqb_eq. intros ->. reflexivity.
  - unfold PlayEventType.IsScoringChance, PlayEventType.IsValid.
    rewrite !switch_case_In. cbn [In]. intuition auto 30.
  - unfold PlayEventType.IsPeriodBoundary, PlayEventType.IsValid.
    rewrite !switch_case_In. cbn [In]. intuition auto 30.
  - unfold PlayEventType.IsScoringChance. rewrite switch_case_In. cbn [In].
    intros [<- | [<- | [<- | [<- | []]]]]; reflexivity.
Qed.

(** ** The play-by-play helpers *)

Lemma indices_where_deref {A : Type} (keep : A -> bool) (l pre : list A) :
  map (nth_error (pre ++ l)%list) (indices_where keep (List.length pre) l)
  = map Some (filter keep l).
Proof.
  revert pre. induction l as [| x rest IH]; intros pre; [reflexivity | ].
  assert (E : (pre ++ x :: rest = (pre ++ [x]) ++ rest)%list)
    by (rewrite <- app_assoc; reflexivity).
  assert (L : S (List.length pre) = List.length (pre ++ [x])%list)
    by (rewrite List.length_app; simpl; lia).
  cbn [indices_where filter]. destruct (keep x).
  - cbn [map]. f_equal.
    + rewrite nth_error_app2 by lia. rewrite Nat.sub_diag. reflexivity.
    + rewrite E, L. apply IH.
  - rewrite E, L. apply IH.
Qed.

Lemma indices_where_bounds {A : Type} (keep : A -> bool) (l : list A)
  (start i : nat) :
  In i (indices_where keep start l) ->
  (start <= i < start + List.length l)%nat.
Proof.
  revert start. induction l as [| x rest IH]; intros start; cbn.
  - contradiction.
  - destruct (keep x); cbn [In].
    + intros [<- | H]; [lia | apply IH in H; lia].
    + intros H. apply IH in H. lia.
Qed.

Lemma indices_where_sorted {A : Type} (keep : A -> bool) (l : list A)
  (start : nat) :
  StronglySorted lt (indices_where keep start l).
Proof.
  revert start. induction l as [| x rest IH]; intros start; cbn.
  - constructor.
  - destruct (keep x); [ | apply IH].
    constructor; [apply IH | ].
    apply Forall_forall. intros i H. apply indices_where_bounds in H. lia.
Qed.

(** A stronger test keeps a sublist of the indices. *)
Lemma indices_where_incl {A : Type} (keep keep' : A -> bool) (l : list A)
  (start : nat) :
  (forall x, keep x = true -> keep' x = true) ->
  incl (indices_where keep start l) (indices_where keep' start l).
Proof.
  intros K. revert start. induction l as [| x rest IH]; intros start; cbn.
  - apply incl_refl.
  - destruct (keep x) eqn:E.
    + rewrite (K x E). intros i [<- | H]; [left; reflexivity | ].
      right. apply (IH (S start)), H.
    + destruct (keep' x).
      * apply incl_tl, IH.
      * apply IH.
Qed.

Lemma first_index_head {A : Type} (keep : A -> bool) (l : list A)
  (start : nat) :
  first_index keep start l = hd_error (indices_where keep start l).
Proof.
  revert start. induction l as [| x rest IH]; intros start; cbn.
  - reflexivity.
  - destruct (keep x); [reflexivity | apply IH].
Qed.

Lemma first_index_found {A : Type} (keep : A -> bool) (l pre : list A)
  (i : nat) :
  first_index keep (List.length pre) l = Some i ->
  (List.length pre <= i)%nat
  /\ (exists x, nth_error (pre ++ l)%list i = Some x /\ keep x = true)
  /\ (forall j y, (List.length pre <= j < i)%nat ->
                  nth_error (pre ++ l)%list j = Some y -> keep y = false).
Proof.
  revert pre. induction l as [| x rest IH]; intros pre; cbn; [discriminate | ].
  assert (E : (pre ++ x :: rest = (pre ++ [x]) ++ rest)%list)
    by (rewrite <- app_assoc; reflexivity).
  assert (L : S (List.length pre) = List.length (pre ++ [x])%list)
    by (rewrite List.length_app; simpl; lia).
  destruct (keep x) eqn:K.
  - intros [= <-]. split; [lia | split].
    + exists x. rewrite nth_error_app2 by lia. rewrite Nat.sub_diag.
      split; [reflexivity | exact K].
    + intros j y Hj. lia.
  - rewrite L, E. intros H. destruct (IH _ H) as (B & F & M).
    rewrite <- L in B. split; [lia | split; [exact F | ]].
    intros j y Hj Hy.
    destruct (Nat.eq_dec j (List.length pre)) as [-> | Hne].
    + rewrite <- E in Hy. rewrite nth_error_app2 in Hy by lia.
      rewrite Nat.sub_diag in Hy. injection Hy as <-. exact K.
    + apply (M j y); [rewrite <- L; lia | exact Hy].
Qed.

Lemma first_index_none {A : Type} (keep : A -> bool) (l : list A)
  (start : nat) :
  first_index keep start l = None <-> (forall x, In x l -> keep x = false).
Proof.
  revert start. induction l as [| x rest IH]; intros start; cbn.
  - split; [intros _ x [] | reflexivity].
  - destruct (keep x) eqn:K.
    + split; [discriminate | ]. intros H. rewrite (H x) in K by auto.
      discriminate.
    + rewrite IH. split.
      * intros H y [<- | Hy]; [exact K | apply H, Hy].
      * intros H y Hy. apply H. right. exact Hy.
Qed.

Lemma indices_where_In {A : Type} (keep : A -> bool) (l : list A)
  (start i : nat) :
  In i (indices_where keep start l)
  <-> (start <= i)%nat
      /\ exists x, nth_error l (i - start) = Some x /\ keep x = true.
Proof.
  revert start. induction l as [| x rest IH]; intros start.
  - cbn. split; [contradiction | ].
    intros (_ & y & H & _). destruct (i - start)%nat; discriminate H.
  - assert (R : In i (indices_where keep (S start) rest)
                <-> (start < i)%nat
                    /\ exists y, nth_error (x :: rest) (i - start) = Some y
                                 /\ keep y = true).
    { rewrite IH. split.
      - intros (B & y & H & K). split; [lia | ]. exists y.
        replace (i - start)%nat with (S (i - S start)) by lia.
        split; assumption.
      - intros (B & y & H & K). split; [lia | ]. exists y.
        replace (i - start)%nat with (S (i - S start)) in H by lia.
        split; assumption. }
    cbn [indices_where]. destruct (keep x) eqn:Kx.
    + cbn [In]. rewrite R. split.
      * intros [<- | (B & H)].
        -- split; [lia | ]. exists x. rewrite Nat.sub_diag.
           split; [reflexivity | exact Kx].
        -- split; [lia | exact H].
      * intros (B & H).
        destruct (Nat.eq_dec start i) as [E | E]; [left; exact E | ].
        right. split; [lia | exact H].
    + rewrite R. split.
      * intros (B & H). split; [lia | exact H].
      * intros (B & y & H & K).
        destruct (Nat.eq_dec start i) as [E | E].
        -- subst i. rewrite Nat.sub_diag in H. injection H as <-.
           rewrite K in Kx. discriminate.
        -- split; [lia | ]. exists y. split; assumption.
Qed.

(** X16.  The selections of a play-by-play.  [Goals], [Penalties], [Shots],
    [PlaysInPeriod] and [TeamRoster] return pointers that dereference, in
    order, to exactly the elements that pass their test; the positions
    pointed at increase strictly; every goal is among the shots, and no
    penalty is. *)
Theorem PlayByPlay_selections (p : PlayByPlay.t) (period teamID : Z) :
  map (nth_error (PlayByPlay.Plays p)) (PlayByPlay.Goals p)
  = map Some
      (filter (fun e => String.eqb (PlayByPlay.TypeDescKey e)
                          PlayEventType.PlayEventTypeGoal)
         (PlayByPlay.Plays p))
  /\ map (nth_error (PlayByPlay.Plays p)) (PlayByPlay.Penalties p)
     = map Some
         (filter (fun e => String.eqb (PlayByPlay.TypeDescKey e)
                             PlayEventType.PlayEventTypePenalty)
            (PlayByPlay.Plays p))
  /\ map (nth_error (PlayByPlay.Plays p)) (PlayByPlay.Shots p)
     = map Some
         (filter (fun e => PlayEventType.IsScoringChance
                             (PlayByPlay.TypeDescKey e))
            (PlayByPlay.Plays p))
  /\ map (nth_error (PlayByPlay.Plays p)) (PlayByPlay.PlaysInPeriod p period)
     = map Some
         (filter (fun e => PlayByPlay.PeriodNumber e =? period)
            (PlayByPlay.Plays p))
  /\ map (nth_error (PlayByPlay.RosterSpots p)) (PlayByPlay.TeamRoster p teamID)
     = map Some
         (filter (fun r => PlayByPlay.TeamID r =? teamID)
            (PlayByPlay.RosterSpots p))
  /\ StronglySorted lt (PlayByPlay.Goals p)
  /\ StronglySorted lt (PlayByPlay.Penalties p)
  /\ StronglySorted lt (PlayByPlay.Shots p)
  /\ StronglySorted lt (PlayByPlay.PlaysInPeriod p period)
  /\ StronglySorted lt (PlayByPlay.TeamRoster p teamID)
  /\ incl (PlayByPlay.Goals p) (PlayByPlay.Shots p)
  /\ (forall i, In i (PlayByPlay.Penalties p) ->
                In i (PlayByPlay.Shots p) -> False).
Proof.
  unfold PlayByPlay.Goals, PlayByPlay.Penalties, PlayByPlay.Shots,
    PlayByPlay.PlaysInPeriod, PlayByPlay.TeamRoster.
  repeat match goal with |- _ /\ _ => split end;
    try apply (indices_where_deref _ _ []);
    try apply indices_where_sorted.
  - apply indices_where_incl. intros e E. apply String.eqb_eq in E.
    rewrite E. reflexivity.
  - intros i H1 H2.
    apply indices_where_In in H1. destruct H1 as (_ & x & N1 & K1).
    apply indices_where_In in H2. destruct H2 as (_ & y & N2 & K2).
    rewrite N1 in N2. injection N2 as <-.
    apply String.eqb_eq in K1. rewrite K1 in K2. discriminate K2.
Qed.

(** X17.  [GetPlayer] returns the first roster spot with the player ID:
    the spot it returns has that ID, no spot before it has, and the spot is
    among [TeamRoster] of its own team; it returns nil exactly when no spot
    has the ID. *)
Theorem GetPlayer_first_match (p : PlayByPlay.t) (playerID : Z) :
  (forall i, PlayByPlay.GetPlayer p playerID = Some i ->
     (exists r, nth_error (PlayByPlay.RosterSpots p) i = Some r
                /\ PlayByPlay.PlayerID r = playerID
                /\ In i (PlayByPlay.TeamRoster p (PlayByPlay.TeamID r)))
     /\ (forall j r', (j < i)%nat ->
           nth_error (PlayByPlay.RosterSpots p) j = Some r' ->
           PlayByPlay.PlayerID r' <> playerID))
  /\ (PlayByPlay.GetPlayer p playerID = None
      <-> forall r, In r (PlayByPlay.RosterSpots p) ->
                    PlayByPlay.PlayerID r <> playerID).
Proof.
  unfold PlayByPlay.GetPlayer, PlayByPlay.TeamRoster. split.
  - intros i H.
    destruct (first_index_found _ _ [] _ H) as (_ & (r & N & K) & M).
    cbn [app] in N, M. split.
    + exists r. split; [exact N | split].
      * apply Z.eqb_eq, K.
      * apply indices_where_In. split; [lia | ]. exists r.
        rewrite Nat.sub_0_r. split; [exact N | apply Z.eqb_refl].
    + intros j r' Hj Hr' E.
      assert (F := M j r' ltac:(cbn; lia) Hr').
      apply Z.eqb_neq in F. exact (F E).
  - rewrite first_index_none. split.
    + intros H r Hr E. specialize (H r Hr). apply Z.eqb_neq in H. exact (H E).
    + intros H r Hr. apply Z.eqb_neq. exact (H r Hr).
Qed.

Lemma rev_seq_map (n : nat) :
  rev (seq 0 n) = map (fun i => (n - 1 - i)%nat) (seq 0 n).
Proof.
  induction n as [| n IH]; [reflexivity | ].
  rewrite seq_S at 1. rewrite rev_app_distr. cbn [rev app plus].
  cbn [seq map]. f_equal; [lia | ].
  rewrite IH, <- seq_shift, map_map. apply map_ext. intros i. lia.
Qed.

Lemma nth_error_seq_all {A : Type} (l pre : list A) :
  map (nth_error (pre ++ l)%list) (seq (List.length pre) (List.length l))
  = map Some l.
Proof.
  revert pre. induction l as [| x rest IH]; intros pre; [reflexivity | ].
  cbn [List.length seq map]. f_equal.
  - rewrite nth_error_app2 by lia. rewrite Nat.sub_diag. reflexivity.
  - replace (pre ++ x :: rest)%list with ((pre ++ [x]) ++ rest)%list
      by (rewrite <- app_assoc; reflexivity).
    replace (S (List.length pre)) with (List.length (pre ++ [x])%list)
      by (rewrite List.length_app; simpl; lia).
    apply IH.
Qed.

Lemma firstn_map {A B : Type} (f : A -> B) (k : nat) (l : list A) :
  firstn k (map f l) = map f (firstn k l).
Proof.
  revert l. induction k as [| k IH]; intros [| x l]; cbn; try reflexivity.
  f_equal. apply IH.
Qed.

Lemma firstn_seq_min (k start n : nat) :
  firstn k (seq start n) = seq start (Nat.min k n).
Proof.
  revert start n. induction k as [| k IH]; intros start [| n]; cbn;
    try reflexivity.
  f_equal. apply IH.
Qed.

Lemma RecentPlays_some (p : PlayByPlay.t) (count : Z) :
  0 < count -> PlayByPlay.Plays p <> [] ->
  PlayByPlay.RecentPlays p count
  = Some (firstn (Z.to_nat count)
            (rev (seq 0 (List.length (PlayByPlay.Plays p))))).
Proof.
  intros C N. unfold PlayByPlay.RecentPlays, len_list.
  set (n := List.length (PlayByPlay.Plays p)).
  assert (Hn : (0 < n)%nat).
  { subst n. destruct (PlayByPlay.Plays p); [congruence | simpl; lia]. }
  destruct (Z.leb_spec count 0) as [H | _]; [lia | ].
  destruct (Z.eqb_spec (Z.of_nat n) 0) as [H | _]; [lia | ].
  f_equal. rewrite rev_seq_map, firstn_map, firstn_seq_min.
  assert (K : Z.to_nat (if count >? Z.of_nat n then Z.of_nat n else count)
              = Nat.min (Z.to_nat count) n).
  { rewrite Z.gtb_ltb. destruct (Z.ltb_spec (Z.of_nat n) count); lia. }
  rewrite K. apply map_ext_in. intros i Hi. apply in_seq in Hi. lia.
Qed.

(** X15.  [RecentPlays] returns nil exactly when the count is not positive
    or there is no play.  Otherwise the pointers it returns dereference to
    the first [count] elements of the plays taken in reverse order, their
    number is the smaller of [count] and the number of plays, and the first
    of them points at the last play. *)
Theorem RecentPlays_most_recent_first (p : PlayByPlay.t) (count : Z) :
  (PlayByPlay.RecentPlays p count = None
   <-> count <= 0 \/ PlayByPlay.Plays p = [])
  /\ (forall l, PlayByPlay.RecentPlays p count = Some l ->
        map (nth_error (PlayByPlay.Plays p)) l
        = map Some (firstn (Z.to_nat count) (rev (PlayByPlay.Plays p)))
        /\ len_list l = Z.min count (len_list (PlayByPlay.Plays p))
        /\ (forall e rest, PlayByPlay.Plays p = (rest ++ [e])%list ->
              hd_error l = Some (List.length rest))).
Proof.
  assert (D : count <= 0 \/ PlayByPlay.Plays p = []
              \/ (0 < count /\ PlayByPlay.Plays p <> [])).
  { destruct (PlayByPlay.Plays p); [auto | ].
    destruct (Z.leb_spec count 0); [auto | ].
    right. right. split; [lia | discriminate]. }
  destruct D as [D | [D | (C & N)]].
  - assert (E : PlayByPlay.RecentPlays p count = None).
    { unfold PlayByPlay.RecentPlays.
      destruct (Z.leb_spec count 0); [reflexivity | lia]. }
    rewrite E. split; [split; auto | discriminate].
  - assert (E : PlayByPlay.RecentPlays p count = None).
    { unfold PlayByPlay.RecentPlays. rewrite D. cbn.
      destruct (count <=? 0); reflexivity. }
    rewrite E. split; [split; auto | discriminate].
  - rewrite (RecentPlays_some p count C N). split.
    + split; [discriminate | ]. intros [H | H]; [lia | contradiction].
    + intros l [= <-].
      set (plays := PlayByPlay.Plays p) in *.
      split; [ | split].
      * pose proof (nth_error_seq_all plays []) as S. cbn [app List.length] in S.
        rewrite <- firstn_map, map_rev, S, <- map_rev, firstn_map.
        reflexivity.
      * unfold len_list. rewrite length_firstn, length_rev, length_seq. lia.
      * intros e rest E. rewrite E, List.length_app. cbn [List.length].
        rewrite Nat.add_1_r, seq_S, rev_app_distr. cbn [rev app plus].
        destruct (Z.to_nat count) eqn:K; [lia | reflexivity].
Qed.

(** X14.  [CurrentSituation] is nil when there is no play, and otherwise
    what [GameSituationFromCode] gives for the situation code of the last
    play.  Of the three strength predicates (even strength, away power play,
    home power play) exactly one holds of any situation. *)
Theorem CurrentSituation_reads_the_last_play (p : PlayByPlay.t) :
  (PlayByPlay.Plays p = [] -> PlayByPlay.CurrentSituation p = None)
  /\ (forall e rest, PlayByPlay.Plays p = (rest ++ [e])%list ->
        PlayByPlay.CurrentSituation p
        = GameSituation.GameSituationFromCode (PlayByPlay.SituationCode e))
  /\ (forall g : GameSituation.t,
        (GameSituation.IsEvenStrength g = true
         /\ GameSituation.IsAwayPowerPlay g = false
         /\ GameSituation.IsHomePowerPlay g = false)
        \/ (GameSituation.IsEvenStrength g = false
            /\ GameSituation.IsAwayPowerPlay g = true
            /\ GameSituation.IsHomePowerPlay g = false)
        \/ (GameSituation.IsEvenStrength g = false
            /\ GameSituation.IsAwayPowerPlay g = false
            /\ GameSituation.IsHomePowerPlay g = true)).
Proof.
  split; [ | split].
  - intros E. unfold PlayByPlay.CurrentSituation. rewrite E. reflexivity.
  - intros e rest E. unfold PlayByPlay.CurrentSituation, len_list.
    rewrite E, List.length_app. cbn [List.length].
    destruct (Z.eqb_spec (Z.of_nat (List.length rest + 1)) 0) as [H | _];
      [lia | ].
    replace (Z.to_nat (Z.of_nat (List.length rest + 1) - 1))
      with (List.length rest) by lia.
    rewrite nth_error_app2 by lia. rewrite Nat.sub_diag. reflexivity.
  - intros g.
    unfold GameSituation.IsEvenStrength, GameSituation.IsAwayPowerPlay,
      GameSituation.IsHomePowerPlay.
    rewrite !Z.gtb_ltb.
    destruct (Z.eqb_spec (GameSituation.AwaySkaters g)
                (GameSituation.HomeSkaters g));
      destruct (Z.ltb_spec (GameSituation.HomeSkaters g)
                  (GameSituation.AwaySkaters g));
      destruct (Z.ltb_spec (GameSituation.AwaySkaters g)
                  (GameSituation.HomeSkaters g)); auto; lia.
Qed.

(** ** The aggregator and the rates together *)

Lemma well_formed_mk (a b c d e f g h i j : Z) :
  in_int64 a -> in_int64 b -> in_int64 c -> in_int64 d -> in_int64 e ->
  in_int64 f -> in_int64 g -> in_int64 h -> in_int64 i -> in_int64 j ->
  TeamGameStats.well_formed (TeamGameStats.mk a b c d e f g h i j).
Proof. intros. unfold TeamGameStats.well_formed. cbn. tauto. Qed.

Lemma zero_well_formed : TeamGameStats.well_formed TeamGameStats.zero.
Proof.
  assert (Z0 : in_int64 0) by (apply in_int64b_spec; reflexivity).
  apply well_formed_mk; exact Z0.
Qed.

Lemma skaterStep_well_formed (t : TeamGameStats.t) (x : SkaterStats.t) :
  TeamGameStats.well_formed t ->
  TeamGameStats.well_formed (Boxscore.skaterStep t x).
Proof.
  intros (H1 & H2 & H3 & H4 & H5 & H6 & H7 & H8 & H9 & H10).
  unfold Boxscore.skaterStep, Boxscore.addFaceoffStats, int_add.
  destruct (Boxscore.countsForFaceoffs x); apply well_formed_mk;
    try apply wrap64_range; assumption.
Qed.

Lemma goalieStep_well_formed (t : TeamGameStats.t) (g : GoalieStats.t) :
  TeamGameStats.well_formed t ->
  TeamGameStats.well_formed (Boxscore.goalieStep t g).
Proof.
  intros (H1 & H2 & H3 & H4 & H5 & H6 & H7 & H8 & H9 & H10).
  unfold Boxscore.goalieStep, int_add.
  apply well_formed_mk; try apply wrap64_range; try assumption.
  destruct (GoalieStats.PIM g); [apply wrap64_range | assumption].
Qed.

Lemma fold_left_invariant {S I : Type} (step : S -> I -> S) (P : S -> Prop) :
  (forall s x, P s -> P (step s x)) ->
  forall l s, P s -> P (fold_left step l s).
Proof.
  intros K l. induction l as [| x l IH]; intros s Hs; cbn [fold_left];
    [exact Hs | apply IH, K, Hs].
Qed.

Lemma FromTeamPlayerStats_well_formed (stats : TeamPlayerStats.t) :
  TeamGameStats.well_formed (Boxscore.FromTeamPlayerStats stats).
Proof.
  unfold Boxscore.FromTeamPlayerStats, Boxscore.aggregateGoalieStats,
    Boxscore.aggregateSkaterStats.
  apply fold_left_invariant; [apply goalieStep_well_formed | ].
  apply fold_left_invariant; [apply skaterStep_well_formed | ].
  apply zero_well_formed.
Qed.

Lemma map_zero_sum {A : Type} (f : A -> Z) (l : list A) :
  (forall x, In x l -> f x = 0) -> sumZ (map f l) = 0.
Proof.
  induction l as [| x l IH]; intros H; [reflexivity | ].
  cbn [map]. rewrite sumZ_cons, (H x) by (left; reflexivity).
  rewrite IH; [reflexivity | ]. intros y Hy. apply H. right. exact Hy.
Qed.

(** X18.  The rates of an aggregate.  Whatever the player statistics, every
    field of [FromTeamPlayerStats] is a Go int, and [FaceoffPercentage] and
    [PowerPlayPercentage] of the aggregate are never NaN; with no center
    that counts for faceoffs the faceoff percentage is 0.0, and with no
    goalie the power-play percentage is 0.0. *)
Theorem rates_of_an_aggregate (stats : TeamPlayerStats.t) :
  TeamGameStats.well_formed (Boxscore.FromTeamPlayerStats stats)
  /\ PrimFloat.is_nan
       (TeamGameStats.FaceoffPercentage (Boxscore.FromTeamPlayerStats stats))
     = false
  /\ PrimFloat.is_nan
       (TeamGameStats.PowerPlayPercentage
          (Boxscore.FromTeamPlayerStats stats))
     = false
  /\ (faceoffCenters stats = [] ->
      TeamGameStats.FaceoffPercentage (Boxscore.FromTeamPlayerStats stats)
      = 0%float)
  /\ (TeamPlayerStats.Goalies stats = [] ->
      TeamGameStats.PowerPlayPercentage (Boxscore.FromTeamPlayerStats stats)
      = 0%float).
Proof.
  pose proof (FromTeamPlayerStats_well_formed stats) as W.
  split; [exact W | ].
  destruct W as (_ & _ & Hft & _ & Hpp & _). unfold in_int64 in Hft, Hpp.
  unfold TeamGameStats.FaceoffPercentage, TeamGameStats.PowerPlayPercentage.
  split; [ | split; [ | split]].
  - destruct (Z.gtb_spec (TeamGameStats.FaceoffTotal
                            (Boxscore.FromTeamPlayerStats stats)) 0);
      [apply ratio_times_100_not_nan; lia | reflexivity].
  - destruct (Z.gtb_spec (TeamGameStats.PowerPlayOpportunities
                            (Boxscore.FromTeamPlayerStats stats)) 0);
      [apply ratio_times_100_not_nan; lia | reflexivity].
  - intros E.
    assert (Z0 : TeamGameStats.FaceoffTotal
                   (Boxscore.FromTeamPlayerStats stats) = 0).
    { rewrite (skater_only_field TeamGameStats.FaceoffTotal
                 (fun x => if Boxscore.countsForFaceoffs x
                           then SkaterStats.Shifts x else 0) stats
                 eq_refl (fun _ _ => eq_refl) skaterStep_FaceoffTotal).
      rewrite <- sumZ_filter. fold (faceoffCenters stats). rewrite E.
      reflexivity. }
    rewrite Z0. reflexivity.
  - intros E.
    assert (Z0 : TeamGameStats.PowerPlayOpportunities
                   (Boxscore.FromTeamPlayerStats stats) = 0).
    { unfold Boxscore.FromTeamPlayerStats, Boxscore.aggregateGoalieStats,
        Boxscore.aggregateSkaterStats.
      rewrite E. cbn [fold_left].
      rewrite (fold_left_keeps Boxscore.skaterStep
                 TeamGameStats.PowerPlayOpportunities
                 skaterStep_PowerPlayOpportunities).
      reflexivity. }
    rewrite Z0. reflexivity.
Qed.

(** ** The aggregate does not depend on the order of the players *)

Lemma int_add_swap (x a b : Z) :
  int_add (int_add x a) b = int_add (int_add x b) a.
Proof.
  unfold int_add. rewrite !wrap64_add_l. f_equal. lia.
Qed.

Lemma skaterStep_swap (t : TeamGameStats.t) (a b : SkaterStats.t) :
  Boxscore.skaterStep (Boxscore.skaterStep t a) b
  = Boxscore.skaterStep (Boxscore.skaterStep t b) a.
Proof.
  unfold Boxscore.skaterStep, Boxscore.addFaceoffStats.
  destruct (Boxscore.countsForFaceoffs a), (Boxscore.countsForFaceoffs b);
    cbn; f_equal; apply int_add_swap.
Qed.

Lemma goalieStep_swap (t : TeamGameStats.t) (a b : GoalieStats.t) :
  Boxscore.goalieStep (Boxscore.goalieStep t a) b
  = Boxscore.goalieStep (Boxscore.goalieStep t b) a.
Proof.
  unfold Boxscore.goalieStep. cbn.
  destruct (GoalieStats.PIM a), (GoalieStats.PIM b);
    f_equal; try apply int_add_swap; reflexivity.
Qed.

Lemma fold_left_Permutation {S I : Type} (step : S -> I -> S) :
  (forall s a b, step (step s a) b = step (step s b) a) ->
  forall l l', Permutation l l' ->
  forall s, fold_left step l s = fold_left step l' s.
Proof.
  intros K l l' P. induction P as [| x l l' P IH | x y l | l l' l'' P1 IH1 P2 IH2];
    intros s; cbn [fold_left].
  - reflexivity.
  - apply IH.
  - rewrite K. reflexivity.
  - rewrite IH1. apply IH2.
Qed.

(** X19.  The aggregate does not depend on the order of the players: two
    teams whose skaters (the forwards followed by the defensemen) are a
    permutation of one another, and whose goalies are, have the same
    [FromTeamPlayerStats]. *)
Theorem FromTeamPlayerStats_order_independent
  (stats stats' : TeamPlayerStats.t) :
  Permutation (Boxscore.allSkaters stats) (Boxscore.allSkaters stats') ->
  Permutation (TeamPlayerStats.Goalies stats)
    (TeamPlayerStats.Goalies stats') ->
  Boxscore.FromTeamPlayerStats stats = Boxscore.FromTeamPlayerStats stats'.
Proof.
  intros Ps Pg.
  unfold Boxscore.FromTeamPlayerStats, Boxscore.aggregateGoalieStats,
    Boxscore.aggregateSkaterStats.
  rewrite (fold_left_Permutation _ skaterStep_swap _ _ Ps).
  apply (fold_left_Permutation _ goalieStep_swap _ _ Pg).
Qed.

(** The players of a team in another order, a defenseman listed with the
    forwards. *)
Lemma FromTeamPlayerStats_order_independent_witness :
  Boxscore.FromTeamPlayerStats
    (TeamPlayerStats.mk
       [skaterWith Position.PositionCenter 27 pctg_055]
       [skaterWith Position.PositionDefense 20 0%float]
       [GoalieStats.mk 2 (Some 4); GoalieStats.mk 1 None])
  = Boxscore.FromTeamPlayerStats
      (TeamPlayerStats.mk
         [skaterWith Position.PositionDefense 20 0%float;
          skaterWith Position.PositionCenter 27 pctg_055]
         []
         [GoalieStats.mk 1 None; GoalieStats.mk 2 (Some 4)]).
Proof.
  apply FromTeamPlayerStats_order_independent.
  - cbn. apply perm_swap.
  - cbn. apply perm_swap.
Defined.

(** ** The client: URLs *)

Lemma append_nonempty_r (b : string) (c : ascii) (r : string) :
  String.eqb (b ++ String c r) EmptyString = false.
Proof. destruct b; reflexivity. Qed.

Lemma HasSuffix_snoc (b : string) (c : ascii) :
  strings_HasSuffix (b ++ String c EmptyString) c = true.
Proof.
  induction b as [| c0 b IH]; cbn.
  - apply Ascii.eqb_refl.
  - destruct (b ++ String c EmptyString) eqn:E.
    + destruct b; discriminate E.
    + exact IH.
Qed.

Lemma append_assoc (a b c : string) : (a ++ b) ++ c = a ++ (b ++ c).
Proof. induction a as [| x a IH]; cbn; [reflexivity | rewrite IH; reflexivity]. Qed.

Lemma substring_all (r : string) : substring 0 (String.length r) r = r.
Proof. induction r as [| x r IH]; cbn; [ | rewrite IH]; reflexivity. Qed.

Lemma slice_from_1 (c : ascii) (r : string) : slice_from (String c r) 1 = r.
Proof.
  unfold slice_from. cbn [String.length substring].
  rewrite Nat.sub_succ, Nat.sub_0_r. apply substring_all.
Qed.

(** X20.  [buildURL] joins with one slash.  A base that ends in a slash and
    a resource that starts with one are joined with one of the two slashes
    dropped; when only the base has its slash, when only the resource has,
    or when neither has and both are non-empty, the result is the base, a
    slash and the resource; an empty base gives the resource and an empty
    resource gives the base. *)
Theorem buildURL_one_slash (b r : string) :
  Client.buildURL (b ++ "/") ("/" ++ r) = b ++ "/" ++ r
  /\ (strings_HasPrefix r "/" = false ->
      Client.buildURL (b ++ "/") r = b ++ "/" ++ r)
  /\ (strings_HasSuffix b "/" = false ->
      Client.buildURL b ("/" ++ r) = b ++ "/" ++ r)
  /\ (b <> EmptyString -> r <> EmptyString ->
      strings_HasSuffix b "/" = false -> strings_HasPrefix r "/" = false ->
      Client.buildURL b r = b ++ "/" ++ r)
  /\ Client.buildURL EmptyString r = r
  /\ Client.buildURL b EmptyString = b.
Proof.
  split; [ | split; [ | split; [ | split; [ | split]]]].
  - unfold Client.buildURL. rewrite append_nonempty_r. cbn [orb String.eqb append].
    rewrite HasSuffix_snoc. cbn [strings_HasPrefix].
    rewrite Ascii.eqb_refl. cbn [andb].
    rewrite slice_from_1. apply append_assoc.
  - intros P. unfold Client.buildURL. rewrite append_nonempty_r. cbn [orb].
    rewrite HasSuffix_snoc, P. cbn [andb negb].
    destruct (String.eqb r EmptyString); apply append_assoc.
  - intros S. unfold Client.buildURL.
    cbn [String.eqb append strings_HasPrefix]. rewrite Ascii.eqb_refl, S.
    cbn [andb negb].
    destruct (String.eqb b EmptyString); reflexivity.
  - intros Hb Hr S P. unfold Client.buildURL. rewrite S, P.
    apply String.eqb_neq in Hb, Hr. rewrite Hb, Hr. reflexivity.
  - unfold Client.buildURL. reflexivity.
  - unfold Client.buildURL.
    destruct (String.eqb b EmptyString); cbn [orb String.eqb];
      apply append_empty_r.
Qed.

(** ** The client: the schedule of one day *)

Lemma gamesOn_first {G : Type} (pre post : list (Client.GameDay G))
  (day : Client.GameDay G) (dateString : string) :
  (forall d, In d pre -> Client.GameDay_Date d <> dateString) ->
  Client.GameDay_Date day = dateString ->
  Client.gamesOn (pre ++ day :: post)%list dateString
  = Client.GameDay_Games day.
Proof.
  intros Hpre Hday. induction pre as [| d pre IH]; cbn.
  - rewrite Hday, String.eqb_refl. reflexivity.
  - destruct (String.eqb_spec (Client.GameDay_Date d) dateString) as [E | _].
    + exfalso. apply (Hpre d); [left; reflexivity | exact E].
    + apply IH. intros d' Hd'. apply Hpre. right. exact Hd'.
Qed.

Lemma gamesOn_none {G : Type} (days : list (Client.GameDay G))
  (dateString : string) :
  (forall d, In d days -> Client.GameDay_Date d <> dateString) ->
  Client.gamesOn days dateString = None.
Proof.
  intros H. induction days as [| d days IH]; cbn; [reflexivity | ].
  destruct (String.eqb_spec (Client.GameDay_Date d) dateString) as [E | _].
  - exfalso. apply (H d); [left; reflexivity | exact E].
  - apply IH. intros d' Hd'. apply H. right. exact Hd'.
Qed.

(** X21.  [extractDailySchedule]: the date of the result is the date asked,
    [NumberOfGames] is the length of [Games], and the two start dates are
    those of the week.  [Games] is empty when no day of the week has the
    date; otherwise it holds the games of the first day that has it, and is
    empty when that day has a nil slice, whatever the later days hold. *)
Theorem extractDailySchedule_first_matching_day {G : Type}
  (w : Client.WeeklyScheduleResponse G) (dateString : string) :
  Client.Date (Client.extractDailySchedule w dateString) = dateString
  /\ Client.NumberOfGames (Client.extractDailySchedule w dateString)
     = len_list (Client.Games (Client.extractDailySchedule w dateString))
  /\ Client.NextStartDate (Client.extractDailySchedule w dateString)
     = Some (Client.Weekly_NextStartDate w)
  /\ Client.PreviousStartDate (Client.extractDailySchedule w dateString)
     = Some (Client.Weekly_PreviousStartDate w)
  /\ ((forall d, In d (Client.GameWeek w) ->
                 Client.GameDay_Date d <> dateString) ->
      Client.Games (Client.extractDailySchedule w dateString) = [])
  /\ (forall pre day post,
        Client.GameWeek w = (pre ++ day :: post)%list ->
        (forall d, In d pre -> Client.GameDay_Date d <> dateString) ->
        Client.GameDay_Date day = dateString ->
        Client.Games (Client.extractDailySchedule w dateString)
        = match Client.GameDay_Games day with
          | Some games => games
          | None => []
          end).
Proof.
  unfold Client.extractDailySchedule. cbn.
  repeat match goal with |- _ /\ _ => split end; try reflexivity.
  - intros H. rewrite (gamesOn_none _ _ H). reflexivity.
  - intros pre day post E Hpre Hday.
    rewrite E, (gamesOn_first pre post day dateString Hpre Hday).
    reflexivity.
Qed.

(** ** Errors by status code *)

(** X22.  [ErrorFromStatusCode] keeps the status code it is given.  The
    message is the one given, or the status text of the code when the one
    given is empty.  The error is a [BadRequestError] only for 400, an
    [UnauthorizedError] only for 401, a [ResourceNotFoundError] only for
    404, a [RateLimitExceededError] only for 429, a [ServerError] only for
    a code of 500 or more, and an [APIError] only for a code below 500
    other than those four. *)
Theorem ErrorFromStatusCode_keeps_the_code (StatusText : Z -> string)
  (statusCode : Z) (message : string) :
  Errors.StatusCode_ (Errors.ErrorFromStatusCode StatusText statusCode message)
  = statusCode
  /\ Errors.Message_
       (Errors.ErrorFromStatusCode StatusText statusCode message)
     = (if String.eqb message EmptyString then StatusText statusCode
        else message)
  /\ match Errors.ErrorFromStatusCode StatusText statusCode message with
     | Errors.BadRequestError _ => statusCode = 400
     | Errors.UnauthorizedError _ => statusCode = 401
     | Errors.ResourceNotFoundError _ => statusCode = 404
     | Errors.RateLimitExceededError _ => statusCode = 429
     | Errors.ServerError _ => 500 <= statusCode
     | Errors.APIError _ =>
         statusCode < 500 /\ statusCode <> 400 /\ statusCode <> 401
         /\ statusCode <> 404 /\ statusCode <> 429
     end.
Proof.
  unfold Errors.ErrorFromStatusCode. cbv zeta.
  set (m := if String.eqb message EmptyString then StatusText statusCode
            else message).
  rewrite Z.geb_leb.
  destruct (Z.eqb_spec statusCode 400) as [E400 | N400];
    [cbn; auto | ].
  destruct (Z.eqb_spec statusCode 401) as [E401 | N401];
    [cbn; auto | ].
  destruct (Z.eqb_spec statusCode 404) as [E404 | N404];
    [cbn; auto | ].
  destruct (Z.eqb_spec statusCode 429) as [E429 | N429];
    [cbn; auto | ].
  destruct (Z.leb_spec 500 statusCode) as [H500 | H500]; cbn.
  - auto.
  - repeat split; auto.
Qed.

(** ** The roster *)

Lemma joinParts_later (i : nat) (parts : list string) (result : string) :
  Roster.joinParts (S i) parts result = result ++ prefix_all ", " parts.
Proof.
  revert i result. induction parts as [| p rest IH]; intros i result.
  - cbn. symmetry. apply append_empty_r.
  - cbn [Roster.joinParts prefix_all]. rewrite IH.
    replace (0 <? S i)%nat with true by reflexivity.
    rewrite !append_assoc. reflexivity.
Qed.

Lemma concat_cons (sep x : string) (rest : list string) :
  String.concat sep (x :: rest) = x ++ prefix_all sep rest.
Proof.
  revert x. induction rest as [| y rest IH]; intros x.
  - cbn. symmetry. apply append_empty_r.
  - change (String.concat sep (x :: y :: rest))
      with (x ++ sep ++ String.concat sep (y :: rest)).
    rewrite IH. reflexivity.
Qed.

Lemma joinParts_concat (parts : list string) :
  Roster.joinParts 0 parts EmptyString = String.concat ", " parts.
Proof.
  destruct parts as [| x rest]; [reflexivity | ].
  cbn [Roster.joinParts]. rewrite joinParts_later, concat_cons.
  reflexivity.
Qed.

(** X23.  [PlayerCount] is the length of [AllPlayers] as a Go int, and equal
    to it when the length fits one.  [BirthPlace] is the city, the state or
    province and the country that are present (the pointer is not nil and
    the text is not empty), in this order, joined by a comma and a
    space. *)
Theorem Roster_counts_and_birth_place (r : Roster.t) (p : Roster.RosterPlayer) :
  Roster.PlayerCount r = wrap64 (len_list (Roster.AllPlayers r))
  /\ (len_list (Roster.AllPlayers r) <= maxInt64 ->
      Roster.PlayerCount r = len_list (Roster.AllPlayers r))
  /\ Roster.BirthPlace p
     = String.concat ", "
         (present (Roster.BirthCity p)
          ++ present (Roster.BirthStateProvince p)
          ++ present (Some (Roster.BirthCountry p)))%list.
Proof.
  assert (E : Roster.PlayerCount r = wrap64 (len_list (Roster.AllPlayers r))).
  { unfold Roster.PlayerCount, Roster.AllPlayers, int_add, len_list.
    rewrite wrap64_add_l, !List.length_app. f_equal. lia. }
  split; [exact E | split].
  - intros H. rewrite E. apply wrap64_id.
    unfold in_int64, minInt64, len_list in *. lia.
  - unfold Roster.BirthPlace, present. cbv zeta. rewrite joinParts_concat.
    f_equal.
    destruct (Roster.BirthCity p) as [c | ];
      [destruct (String.eqb c EmptyString) | ];
      (destruct (Roster.BirthStateProvince p) as [s | ];
       [destruct (String.eqb s EmptyString) | ]);
      destruct (String.eqb (Roster.BirthCountry p) EmptyString);
      reflexivity.
Qed.

(** ** Season game types *)

Lemma gameTypeInts_ok (gts : list GameType.t) :
  forall i acc, all_valid gts ->
                SeasonGameTypes.gameTypeInts i gts acc = Ok (acc ++ gts)%list.
Proof.
  induction gts as [| g rest IH]; intros i acc H; cbn.
  - rewrite app_nil_r. reflexivity.
  - inversion H as [| ? ? Hg Hrest]; subst. rewrite Hg. cbn [negb].
    rewrite IH by exact Hrest. rewrite <- app_assoc. reflexivity.
Qed.

Lemma gameTypeInts_err (pre post : list GameType.t) (g : GameType.t) :
  forall i acc, all_valid pre -> GameType.IsValid g = false ->
    SeasonGameTypes.gameTypeInts i (pre ++ g :: post)%list acc
    = Err (Errorf "invalid game type at index %d: %d"
             [ArgInt (i + len_list pre); ArgInt g]).
Proof.
  induction pre as [| x pre IH]; intros i acc H Hg; cbn.
  - rewrite Hg. cbn. rewrite Z.add_0_r. reflexivity.
  - inversion H as [| ? ? Hx Hpre]; subst. rewrite Hx. cbn [negb].
    rewrite IH by assumption. unfold len_list. cbn [List.length].
    replace (i + 1 + Z.of_nat (List.length pre))
      with (i + Z.of_nat (S (List.length pre))) by lia.
    reflexivity.
Qed.

Lemma gameTypeInts_valid (gts : list GameType.t) :
  forall i acc l, SeasonGameTypes.gameTypeInts i gts acc = Ok l ->
                  all_valid gts.
Proof.
  induction gts as [| g rest IH]; intros i acc l H; [constructor | ].
  cbn in H. destruct (GameType.IsValid g) eqn:Hg; [ | discriminate H].
  constructor; [exact Hg | exact (IH _ _ _ H)].
Qed.

Lemma gameTypesFromInts_ok (gts : list Z) :
  forall acc, all_valid gts ->
              SeasonGameTypes.gameTypesFromInts gts acc = Ok (acc ++ gts)%list.
Proof.
  induction gts as [| g rest IH]; intros acc H; cbn.
  - rewrite app_nil_r. reflexivity.
  - inversion H as [| ? ? Hg Hrest]; subst.
    unfold GameType.GameTypeFromInt. rewrite Hg. cbn [negb].
    rewrite IH by exact Hrest. rewrite <- app_assoc. reflexivity.
Qed.

Lemma gameTypesFromInts_valid (gts : list Z) :
  forall acc l, SeasonGameTypes.gameTypesFromInts gts acc = Ok l ->
                all_valid gts.
Proof.
  induction gts as [| g rest IH]; intros acc l H; [constructor | ].
  cbn in H. unfold GameType.GameTypeFromInt in H.
  destruct (GameType.IsValid g) eqn:Hg; [ | discriminate H].
  constructor; [exact Hg | exact (IH _ _ H)].
Qed.

(** X24.  The wire form of season game types.  [MarshalJSON] builds its raw
    struct exactly when every game type is valid, and the struct then holds
    [ToInt] of the season and the game types as they are; it fails at the
    first invalid game type, with its index.  What [UnmarshalJSON] builds
    from a raw struct has valid game types and a start year between 1000
    and 9998, and marshals back to that raw struct; and what [MarshalJSON]
    builds from a value with such a start year is read back to that
    value.  A nil slice and an empty slice are the same list here. *)
Theorem SeasonGameTypes_wire_form (s : SeasonGameTypes.t)
  (r : SeasonGameTypes.raw) :
  (SeasonGameTypes.toRaw s = Ok r
   <-> all_valid (SeasonGameTypes.GameTypes s)
       /\ r = SeasonGameTypes.mkRaw
                (Season.ToInt (SeasonGameTypes.Season s))
                (SeasonGameTypes.GameTypes s))
  /\ (forall pre g post,
        SeasonGameTypes.GameTypes s = (pre ++ g :: post)%list ->
        all_valid pre -> GameType.IsValid g = false ->
        SeasonGameTypes.toRaw s
        = Err (Errorf "invalid game type at index %d: %d"
                 [ArgInt (len_list pre); ArgInt g]))
  /\ (SeasonGameTypes.fromRaw r = Ok s ->
      all_valid (SeasonGameTypes.GameTypes s)
      /\ 1000 <= Season.StartYear (SeasonGameTypes.Season s) <= 9998
      /\ SeasonGameTypes.toRaw s = Ok r)
  /\ (SeasonGameTypes.toRaw s = Ok r ->
      1000 <= Season.StartYear (SeasonGameTypes.Season s) <= 9998 ->
      SeasonGameTypes.fromRaw r = Ok s).
Proof.
  assert (T : all_valid (SeasonGameTypes.GameTypes s) ->
              SeasonGameTypes.toRaw s
              = Ok (SeasonGameTypes.mkRaw
                      (Season.ToInt (SeasonGameTypes.Season s))
                      (SeasonGameTypes.GameTypes s))).
  { intros V. unfold SeasonGameTypes.toRaw.
    rewrite gameTypeInts_ok by exact V. reflexivity. }
  split; [ | split; [ | split]].
  - split.
    + intros H. unfold SeasonGameTypes.toRaw in H.
      destruct (SeasonGameTypes.gameTypeInts 0 (SeasonGameTypes.GameTypes s) [])
        as [ints | ] eqn:E; [ | discriminate H].
      pose proof (gameTypeInts_valid _ _ _ _ E) as V.
      rewrite gameTypeInts_ok in E by exact V.
      injection E as <-. injection H as <-. split; [exact V | reflexivity].
    + intros (V & ->). apply T, V.
  - intros pre g post E V Hg. unfold SeasonGameTypes.toRaw.
    rewrite E, (gameTypeInts_err pre post g 0 [] V Hg). reflexivity.
  - intros H. unfold SeasonGameTypes.fromRaw in H.
    destruct (Season.SeasonFromInt (SeasonGameTypes.raw_Season r))
      as [season | ] eqn:Es; [ | discriminate H].
    destruct (SeasonGameTypes.gameTypesFromInts
                (SeasonGameTypes.raw_GameTypes r) [])
      as [gts | ] eqn:Eg; [ | discriminate H].
    injection H as <-. cbn [SeasonGameTypes.GameTypes SeasonGameTypes.Season].
    pose proof (gameTypesFromInts_valid _ _ _ Eg) as V.
    rewrite gameTypesFromInts_ok in Eg by exact V. injection Eg as <-.
    apply SeasonFromInt_accepts in Es. destruct Es as (Hr & Hm & ->).
    assert (Hy : 1000 <= SeasonGameTypes.raw_Season r / 10000 <= 9998)
      by dlia.
    destruct (Season_four_digit_wire _ Hy) as (Hi & _).
    split; [exact V | split; [exact Hy | ]].
    unfold SeasonGameTypes.toRaw.
    cbn [SeasonGameTypes.GameTypes SeasonGameTypes.Season].
    rewrite gameTypeInts_ok by exact V. cbn [app]. rewrite Hi.
    destruct r as [rs rg]. cbn [SeasonGameTypes.raw_Season
      SeasonGameTypes.raw_GameTypes] in *. f_equal. f_equal. dlia.
  - intros H Hy. unfold SeasonGameTypes.toRaw in H.
    destruct (SeasonGameTypes.gameTypeInts 0 (SeasonGameTypes.GameTypes s) [])
      as [ints | ] eqn:E; [ | discriminate H].
    pose proof (gameTypeInts_valid _ _ _ _ E) as V.
    rewrite gameTypeInts_ok in E by exact V.
    injection E as <-. injection H as <-.
    destruct s as [[y] gts]. cbn [SeasonGameTypes.GameTypes
      SeasonGameTypes.Season Season.StartYear Season.startYear app] in *.
    destruct (Season_four_digit_wire y Hy) as (Hi & _).
    unfold SeasonGameTypes.fromRaw.
    cbn [SeasonGameTypes.raw_Season SeasonGameTypes.raw_GameTypes].
    change (Season.mk y) with (Season.NewSeason y). rewrite Hi.
    assert (Es : Season.SeasonFromInt (y * 10000 + (y + 1))
                 = Ok (Season.NewSeason y)).
    { apply SeasonFromInt_accepts. repeat split; try lia; try dlia.
      f_equal. dlia. }
    rewrite Es, gameTypesFromInts_ok by exact V. reflexivity.
Qed.

(** ** Dates on the wire *)

Lemma all_digits_app (a b : string) :
  all_digits (a ++ b) = all_digits a && all_digits b.
Proof.
  induction a as [| c a IH]; cbn [append all_digits]; [reflexivity | ].
  rewrite IH. apply andb_assoc.
Qed.

Lemma all_digits_zeros (k : nat) : all_digits (zeros k) = true.
Proof. induction k as [| k IH]; [reflexivity | exact IH]. Qed.

Lemma parse_digits_zeros (k : nat) (s : string) :
  strconv.parse_digits (zeros k ++ s) 0 = strconv.parse_digits s 0.
Proof.
  induction k as [| k IH]; [reflexivity | ].
  cbn [zeros append]. change "0"%char with (digit_char 0).
  rewrite parse_digits_turn; [exact IH | | | ];
    unfold is_dec, maxUint64; lia.
Qed.

Lemma padded_head (k : nat) (n : Z) :
  0 <= n ->
  exists d rest, is_dec d /\ padded k n = String (digit_char d) rest.
Proof.
  intros Hn. unfold padded. destruct k as [| k].
  - apply formatBits_head; lia.
  - exists 0, (zeros k ++ strconv.FormatUint n).
    split; [unfold is_dec; lia | reflexivity].
Qed.

Lemma padded_all_digits (k : nat) (n : Z) :
  0 <= n -> all_digits (padded k n) = true.
Proof.
  intros Hn. unfold padded. rewrite all_digits_app, all_digits_zeros.
  apply formatBits_all_digits; [exact Hn | reflexivity].
Qed.

Lemma Atoi_padded (k : nat) (n : Z) :
  0 <= n <= maxInt64 -> strconv.Atoi (padded k n) = (n, None).
Proof.
  unfold maxInt64. intros Hn.
  destruct (padded_head k n ltac:(lia)) as (d & rest & Hd & E).
  assert (P : strconv.parse_digits (padded k n) 0 = (n, None)).
  { unfold padded. rewrite parse_digits_zeros.
    apply FormatUint_parse. unfold maxUint64. lia. }
  unfold strconv.Atoi. rewrite E in *.
  rewrite (parse_int_unsigned d rest n Hd ltac:(lia) P). reflexivity.
Qed.

Lemma fmt_d_zero_nonneg (width : nat) (n : Z) :
  0 <= n ->
  fmt_d_zero width n
  = padded (width - String.length (strconv.FormatUint n)) n.
Proof.
  intros Hn. unfold fmt_d_zero, padded. cbv zeta.
  assert (E : (n <? 0) = false) by lia. rewrite E, Z.abs_eq by exact Hn.
  reflexivity.
Qed.

Lemma fmt_d_zero_neg (width : nat) (n : Z) :
  n < 0 ->
  fmt_d_zero width n
  = String "-"%char
      (padded (width - 1 - String.length (strconv.FormatUint (- n))) (- n)).
Proof.
  intros Hn. unfold fmt_d_zero, padded. cbv zeta.
  assert (E : (n <? 0) = true) by lia. rewrite E.
  replace (Z.abs n) with (- n) by lia. reflexivity.
Qed.

Lemma digit_head_not_now (d : Z) (rest : string) :
  is_dec d -> String.eqb (String (digit_char d) rest) "now" = false.
Proof.
  intros Hd. apply is_dec_cases in Hd.
  repeat (destruct Hd as [-> | Hd]; [reflexivity | ]). subst d. reflexivity.
Qed.

(** The three pieces of a date written by [ToAPIString], for a year that
    is not negative. *)
Lemma ToAPIString_split {Time : Type} (Year Month Day : Time -> Z)
  (clock : Time) (gd : GameDate.t Time) :
  0 <= Year (GameDate.Date clock gd) ->
  0 <= Month (GameDate.Date clock gd) ->
  0 <= Day (GameDate.Date clock gd) ->
  exists ky km kd,
    GameDate.ToAPIString Year Month Day clock gd
    = padded ky (Year (GameDate.Date clock gd))
      ++ String "-"%char
           (padded km (Month (GameDate.Date clock gd))
            ++ String "-"%char (padded kd (Day (GameDate.Date clock gd))))
    /\ strings_Split (GameDate.ToAPIString Year Month Day clock gd) "-"%char
       = [padded ky (Year (GameDate.Date clock gd));
          padded km (Month (GameDate.Date clock gd));
          padded kd (Day (GameDate.Date clock gd))].
Proof.
  intros Hy Hm Hd. unfold GameDate.ToAPIString. cbv zeta.
  rewrite !fmt_d_zero_nonneg by assumption.
  eexists _, _, _. split; [reflexivity | ].
  unfold strings_Split.
  change ("-" ++ ?x) with (String "-"%char x).
  rewrite split_from_piece
    by (apply all_digits_no_dash, padded_all_digits; assumption).
  change ("-" ++ ?x) with (String "-"%char x).
  rewrite split_from_piece
    by (apply all_digits_no_dash, padded_all_digits; assumption).
  rewrite split_from_last
    by (apply all_digits_no_dash, padded_all_digits; assumption).
  reflexivity.
Qed.

(** X25.  Game dates on the wire.  The symbolic date is written as the JSON
    string now and read back as the symbolic date; a decoded date is
    symbolic exactly when the input was that JSON string.  A concrete date
    whose year is not negative is written and read back as [FromYMD] of its
    year, month and day.  A concrete date with a negative year is written
    too, but its text starts with a dash and [UnmarshalJSON] refuses it as
    an invalid date format. *)
Theorem GameDate_JSON_forms (Time : Type) (zeroTime : Time)
  (time_Date : Z -> Z -> Z -> Time) (Year Month Day : Time -> Z)
  (clock d : Time) :
  (exists j, GameDate.MarshalJSON Year Month Day clock (GameDate.Now zeroTime)
             = Ok j
             /\ GameDate.UnmarshalJSON zeroTime time_Date j
                = Ok (GameDate.Now zeroTime))
  /\ (forall data gd,
        GameDate.UnmarshalJSON zeroTime time_Date data = Ok gd ->
        (GameDate.IsNow gd = true <-> data = JString "now"))
  /\ (0 <= Year d <= maxInt64 -> 0 <= Month d <= maxInt64 ->
      0 <= Day d <= maxInt64 ->
      exists j,
        GameDate.MarshalJSON Year Month Day clock (GameDate.FromDate d) = Ok j
        /\ GameDate.UnmarshalJSON zeroTime time_Date j
           = Ok (GameDate.FromYMD time_Date (Year d) (Month d) (Day d)))
  /\ (Year d < 0 -> 0 <= Month d -> 0 <= Day d ->
      exists j,
        GameDate.MarshalJSON Year Month Day clock (GameDate.FromDate d) = Ok j
        /\ GameDate.UnmarshalJSON zeroTime time_Date j
           = Err (Errorf "invalid date format: %s"
                    [ArgString (GameDate.ToAPIString Year Month Day clock
                                  (GameDate.FromDate d))])).
Proof.
  split; [ | split; [ | split]].
  - eexists. split; reflexivity.
  - intros data gd H. unfold GameDate.UnmarshalJSON in H.
    destruct (Json.Unmarshal_string data) as [s | ] eqn:U; [ | discriminate H].
    destruct (String.eqb_spec s "now") as [-> | Hne].
    + injection H as <-. split; [intros _ | reflexivity].
      destruct data; cbn in U; try discriminate U.
      injection U as ->. reflexivity.
    + assert (F : GameDate.IsNow gd = false).
      { destruct (strings_Split s "-"%char) as [| p0 [| p1 [| p2 [| ? ?]]]];
          try discriminate H.
        destruct (strconv.Atoi p0) as [? [? | ]]; [discriminate H | ].
        destruct (strconv.Atoi p1) as [? [? | ]]; [discriminate H | ].
        destruct (strconv.Atoi p2) as [? [? | ]]; [discriminate H | ].
        injection H as <-. reflexivity. }
      rewrite F. split; [discriminate | ].
      intros ->. cbn in U. injection U as <-. contradiction Hne. reflexivity.
  - intros Hy Hm Hd.
    exists (JString (GameDate.ToAPIString Year Month Day clock
                       (GameDate.FromDate d))).
    split; [reflexivity | ].
    unfold GameDate.UnmarshalJSON. cbn [Json.Unmarshal_string].
    destruct (ToAPIString_split Year Month Day clock (GameDate.FromDate d))
      as (ky & km & kd & E & S); cbn [GameDate.Date GameDate.isNow
                                       GameDate.FromDate GameDate.date];
      try lia.
    cbn [GameDate.Date GameDate.isNow GameDate.FromDate GameDate.date] in E, S.
    rewrite S.
    destruct (padded_head ky (Year d) ltac:(lia)) as (c & rest & Hc & Eh).
    rewrite E, Eh. cbn [append]. rewrite digit_head_not_now by exact Hc.
    rewrite <- Eh. rewrite !Atoi_padded by assumption. reflexivity.
  - intros Hy Hm Hd.
    exists (JString (GameDate.ToAPIString Year Month Day clock
                       (GameDate.FromDate d))).
    split; [reflexivity | ].
    unfold GameDate.UnmarshalJSON. cbn [Json.Unmarshal_string].
    assert (E : exists ky km kd,
               GameDate.ToAPIString Year Month Day clock (GameDate.FromDate d)
               = String "-"%char
                   (padded ky (- Year d)
                    ++ String "-"%char
                         (padded km (Month d)
                          ++ String "-"%char (padded kd (Day d))))).
    { unfold GameDate.ToAPIString. cbv zeta.
      cbn [GameDate.Date GameDate.isNow GameDate.FromDate GameDate.date].
      rewrite fmt_d_zero_neg by exact Hy.
      rewrite !fmt_d_zero_nonneg by assumption.
      eexists _, _, _. reflexivity. }
    destruct E as (ky & km & kd & E). rewrite E.
    change (String.eqb (String "-"%char ?x) "now") with false. cbv iota.
    unfold strings_Split. cbn [split_from].
    change (Ascii.eqb "-" "-") with true. cbv iota.
    rewrite split_from_piece
      by (apply all_digits_no_dash, padded_all_digits; lia).
    rewrite split_from_piece
      by (apply all_digits_no_dash, padded_all_digits; lia).
    rewrite split_from_last
      by (apply all_digits_no_dash, padded_all_digits; lia).
    reflexivity.
Qed.

(** A calendar of triples: the first day of 2024, and a day of the year
    before year 0. *)
Lemma GameDate_JSON_forms_witness :
  GameDate.UnmarshalJSON (0, 0, 0) (fun y m d => (y, m, d))
    (JString "2024-01-01")
  = Ok (GameDate.FromYMD (fun y m d => (y, m, d)) 2024 1 1)
  /\ GameDate.UnmarshalJSON (0, 0, 0) (fun y m d => (y, m, d))
       (JString "-001-03-04")
     = Err (Errorf "invalid date format: %s" [ArgString "-001-03-04"]).
Proof.
  pose proof (GameDate_JSON_forms (Z * Z * Z) (0, 0, 0)
                (fun y m d => (y, m, d))
                (fun t => fst (fst t)) (fun t => snd (fst t)) snd
                (0, 0, 0) (2024, 1, 1)) as (_ & _ & H3 & _).
  pose proof (GameDate_JSON_forms (Z * Z * Z) (0, 0, 0)
                (fun y m d => (y, m, d))
                (fun t => fst (fst t)) (fun t => snd (fst t)) snd
                (0, 0, 0) (-1, 3, 4)) as (_ & _ & _ & H4).
  cbn [fst snd] in H3, H4.
  destruct (H3 ltac:(unfold maxInt64; lia) ltac:(unfold maxInt64; lia)
              ltac:(unfold maxInt64; lia)) as (j & M & U).
  destruct (H4 ltac:(lia) ltac:(lia) ltac:(lia)) as (j' & M' & U').
  vm_compute in M. injection M as <-.
  vm_compute in M'. injection M' as <-.
  split; [exact U | exact U'].
Defined.

(** ** Game identifiers that validate *)

Lemma GameID_parts (g : Z) :
  1000000000 <= g <= 9999999999 ->
  GameID.Season g = Ok (Season.NewSeason (g / 1000000))
  /\ GameID.GameType g = Ok ((g / 10000) mod 100)
  /\ GameID.GameNumber g = Ok (g mod 10000).
Proof.
  intros Hg. unfold GameID.Season, GameID.GameType, GameID.GameNumber.
  rewrite GameID_bound_test by assumption. cbv zeta.
  rewrite !int_div_nonneg by lia.
  rewrite !int_mod_nonneg by (try apply Z.div_pos; lia).
  repeat split.
Qed.

(** X26.  [Validate] returns nil exactly on the identifiers of ten digits
    whose game-type digits are a valid game type.  Its error is either the
    digit-count error or the game-type error: the error of the [GameType]
    accessor never comes out of it.  An identifier that validates
    decomposes without error into a season whose start year has four
    digits, a game type that [GameTypeFromInt] accepts and a game number
    below 10000, the three recombine to it, and [GameIDFromString] reads
    its [String] back. *)
Theorem GameID_Validate_exactly (g : GameID.t) :
  (GameID.Validate g = None
   <-> 1000000000 <= g <= 9999999999
       /\ GameType.IsValid ((g / 10000) mod 100) = true)
  /\ (forall e, GameID.Validate g = Some e ->
        e = Errorf "game ID must be 10 digits, got: %d" [ArgInt g]
        \/ exists gt, GameID.GameType g = Ok gt
                      /\ GameType.IsValid gt = false
                      /\ e = Errorf "invalid game type: %02d" [ArgInt gt])
  /\ (GameID.Validate g = None ->
      exists s gt n,
        GameID.Season g = Ok s /\ GameID.GameType g = Ok gt
        /\ GameID.GameNumber g = Ok n
        /\ 1000 <= Season.StartYear s <= 9999
        /\ GameType.GameTypeFromInt gt = Ok gt
        /\ 0 <= n <= 9999
        /\ Season.StartYear s * 1000000 + gt * 10000 + n = g
        /\ GameID.GameIDFromString (GameID.String_ g) = Ok g).
Proof.
  destruct (Z_le_dec 1000000000 g) as [Hlo | Hlo];
    [destruct (Z_le_dec g 9999999999) as [Hhi | Hhi] | ].
  - assert (Hg : 1000000000 <= g <= 9999999999) by lia.
    destruct (GameID_parts g Hg) as (ES & ET & EN).
    assert (V : GameID.Validate g
                = if negb (GameType.IsValid ((g / 10000) mod 100))
                  then Some (Errorf "invalid game type: %02d"
                               [ArgInt ((g / 10000) mod 100)])
                  else None).
    { unfold GameID.Validate. rewrite GameID_bound_test by assumption.
      cbv zeta. rewrite ET. reflexivity. }
    rewrite V.
    destruct (GameType.IsValid ((g / 10000) mod 100)) eqn:K; cbn [negb].
    + split; [split; [intros _; split; [exact Hg | reflexivity]
                     | reflexivity] | ].
      split; [discriminate | ].
      intros _. exists (Season.NewSeason (g / 1000000)),
                  ((g / 10000) mod 100), (g mod 10000).
      repeat match goal with |- _ /\ _ => split end;
        try assumption; cbn [Season.StartYear Season.NewSeason
                              Season.startYear]; try dlia.
      * unfold GameType.GameTypeFromInt. rewrite K. reflexivity.
      * unfold GameID.GameIDFromString, GameID.String_.
        rewrite ParseInt_FormatInt
          by (unfold in_int64, minInt64, maxInt64; lia).
        reflexivity.
    + split; [split; [discriminate | intros (_ & F); discriminate F] | ].
      split; [ | discriminate].
      intros e [= <-]. right. exists ((g / 10000) mod 100).
      repeat split; assumption.
  - assert (Hg : ~ 1000000000 <= g <= 9999999999) by lia.
    unfold GameID.Validate. rewrite GameID_bound_test_out by assumption.
    split; [split; [discriminate | intros (F & _); lia] | ].
    split; [intros e [= <-]; left; reflexivity | discriminate].
  - assert (Hg : ~ 1000000000 <= g <= 9999999999) by lia.
    unfold GameID.Validate. rewrite GameID_bound_test_out by assumption.
    split; [split; [discriminate | intros (F & _); lia] | ].
    split; [intros e [= <-]; left; reflexivity | discriminate].
Qed.

(** ** The label of a season *)

Lemma formatBits_length (fuel : nat) :
  forall u acc,
    (0 < fuel)%nat ->
    (S (String.length acc) <= String.length (strconv.formatBits fuel u acc))%nat.
Proof.
  induction fuel as [| fuel IH]; intros u acc Hf; [lia | ].
  cbn [strconv.formatBits]. destruct (u <? 10); [cbn; lia | ].
  destruct fuel as [| fuel'].
  - cbn. lia.
  - specialize (IH (u / 10) (String (digit_char (u mod 10)) acc) ltac:(lia)).
    cbn [String.length] in IH. lia.
Qed.

Lemma FormatUint_two_digits (n : Z) :
  10 <= n -> (2 <= String.length (strconv.FormatUint n))%nat.
Proof.
  intros Hn. unfold strconv.FormatUint.
  change 20%nat with (S 19). cbn [strconv.formatBits].
  assert (E : (n <? 10) = false) by lia. rewrite E.
  pose proof (formatBits_length 19 (n / 10)
                (String (digit_char (n mod 10)) EmptyString) ltac:(lia)) as L.
  cbn [String.length] in L. exact L.
Qed.

(** X27.  The label of a season.  For a start year from 0 on, [Parse] reads
    the label back to the season; from the start year 9 on, the label is
    the text that [String] gives for the season. *)
Theorem SeasonInfo_Label_reads_back (s : SeasonInfo.t) :
  (0 <= Season.StartYear (SeasonInfo.ID s) < maxInt64 ->
   Season.Parse (SeasonInfo.Label s) = Ok (SeasonInfo.ID s))
  /\ (9 <= Season.StartYear (SeasonInfo.ID s) < maxInt64 ->
      SeasonInfo.Label s = Season.String_ (SeasonInfo.ID s)).
Proof.
  destruct s as [[y]]. unfold SeasonInfo.Label.
  cbn [SeasonInfo.ID Season.StartYear Season.startYear]. cbv zeta.
  unfold maxInt64. split; intros Hy.
  - assert (Hend : in_int64 (y + 1))
      by (unfold in_int64, minInt64, maxInt64; lia).
    unfold int_add. rewrite wrap64_id by exact Hend.
    rewrite fmt_d_zero_nonneg by lia.
    change ("-" ++ ?x) with (String "-"%char x).
    unfold Season.Parse. rewrite Contains_app_sep. unfold strings_Split.
    rewrite split_from_piece
      by (apply all_digits_no_dash, FormatInt_nonneg_all_digits; lia).
    rewrite split_from_last
      by (apply all_digits_no_dash, padded_all_digits; lia).
    cbn [rev string_of_list_ascii append List.length].
    rewrite Atoi_FormatInt by (unfold in_int64, minInt64, maxInt64; lia).
    rewrite Atoi_padded by (unfold maxInt64; lia).
    change (Season.mk y) with (Season.NewSeason y).
    apply FromYears_adjacent, Hend.
  - assert (Hend : in_int64 (y + 1))
      by (unfold in_int64, minInt64, maxInt64; lia).
    change (Season.mk y) with (Season.NewSeason y).
    rewrite (Season_String_eq y Hend).
    unfold int_add. rewrite wrap64_id by exact Hend.
    rewrite fmt_d_zero_nonneg by lia.
    pose proof (FormatUint_two_digits (y + 1) ltac:(lia)) as L.
    replace (2 - String.length (strconv.FormatUint (y + 1)))%nat with 0%nat
      by lia.
    unfold padded, strconv.FormatInt.
    assert (E : (y + 1 <? 0) = false) by lia. rewrite E. reflexivity.
Qed.

(** The season that starts in 2023, and the one that starts in year 5. *)
Lemma SeasonInfo_Label_reads_back_witness :
  Season.Parse (SeasonInfo.Label (SeasonInfo.mk (Season.NewSeason 5)))
  = Ok (Season.NewSeason 5)
  /\ SeasonInfo.Label (SeasonInfo.mk (Season.NewSeason 2023))
     = Season.String_ (Season.NewSeason 2023).
Proof.
  split.
  - apply (SeasonInfo_Label_reads_back (SeasonInfo.mk (Season.NewSeason 5))).
    cbn. unfold maxInt64. lia.
  - apply (SeasonInfo_Label_reads_back
             (SeasonInfo.mk (Season.NewSeason 2023))).
    cbn. unfold maxInt64. lia.
Defined.
